(** * Strategies and backtester of the crypto trading bot

    A shallow embedding of the signal-generation layer (the six strategies
    under [src/strategies]), of [src/backtesting/Backtester.ts] and
    [StrategyComparator.ts], of the paper-trading account
    [src/trading/DemoTrader.ts] and of the sample-data generator of
    [src/data/DataProvider.ts].

    The code is embedded twice.

    - The exact model (the modules at top level).  A JavaScript [number]
      that carries a price, a balance or an indicator is a rational [Q] and
      a period is a natural number.  It serves the statements on the
      structure of the code: guards, latches, the order and the shape of the
      ledger, the windows that the loops cut, what a call records.  [Q]
      totalises division by [x / 0 = 0], which is not what the code
      computes: no statement on a computed number is made in this model
      where a divisor may vanish.
    - The binary64 model (module [Binary64]).  A [number] is an IEEE-754
      binary64 value, a primitive float of the kernel: operations round to
      nearest even, overflow to an infinity, and yield NaN and signed zeros
      as in JavaScript.  Periods are numbers of any sign, fractional, NaN or
      infinite, and arrays are indexed and sliced as JavaScript does with
      such numbers.  It holds the backtester, the moving-average crossover,
      RSI and Bollinger strategies, and serves the statements on the
      numbers they compute.

    Conventions of both.

    - Comparisons are the boolean functions of module [Num], one per
      JavaScript operator.
    - Array lengths and indices are natural numbers; a [Date] is its
      millisecond count, an integer [Z].
    - A method that mutates [this] takes the object and returns the new one;
      where one object is reached through several references
      ([StrategyComparator]) the objects live in a store.  A call that
      throws (reading a field of [undefined]) returns [None].
    - [console.log] output and the free-form [metadata] field of a signal
      are not modelled.
    - A JavaScript [Map] is an association list in insertion order.  What
      the program reads from outside, the clock ([new Date()]) and
      [Math.random()], is an argument of the function that reads it. *)

From Stdlib Require Import QArith ZArith List Bool Lia Lqa.
From Stdlib Require String Floats.
Import ListNotations.
Import String.StringSyntax.

Delimit Scope string_scope with string.
Bind Scope string_scope with String.string.

Open Scope Q_scope.

(** A decimal literal of the binary64 model stands for the nearest binary64
    value, as in JavaScript. *)
Set Warnings "-inexact-float".

(** ** JavaScript comparison operators on numbers *)

Module Num.

Definition lt (x y : Q) : bool := negb (Qle_bool y x).
Definition gt (x y : Q) : bool := negb (Qle_bool x y).
Definition le (x y : Q) : bool := Qle_bool x y.
Definition ge (x y : Q) : bool := Qle_bool y x.
Definition eq (x y : Q) : bool := Qeq_bool x y.

(** [Math.sign], [Math.min], [Math.max], [Math.abs] *)
Definition sign (x : Q) : Q :=
  if gt x 0 then 1 else if lt x 0 then -1 else 0.
Definition min (x y : Q) : Q := if le x y then x else y.
Definition max (x y : Q) : Q := if le x y then y else x.
Definition abs (x : Q) : Q := if le 0 x then x else - x.

(** An array length, a period or a counter used as a number. *)
Definition ofNat (n : nat) : Q := inject_Z (Z.of_nat n).

End Num.

(** ** Data model ([Strategy.ts], [Backtester.ts]) *)

Inductive SignalType := BUY | SELL | HOLD.

Definition SignalType_eqb (a b : SignalType) : bool :=
  match a, b with
  | BUY, BUY | SELL, SELL | HOLD, HOLD => true
  | _, _ => false
  end.

Module Candle.

Record t := mk {
  timestamp : Z;
  open : Q;
  high : Q;
  low : Q;
  close : Q;
  volume : Q
}.

End Candle.

Module Signal.

Record t := mk {
  type : SignalType;
  price : Q;
  timestamp : Z;
  confidence : Q
}.

End Signal.

(** The ledger entry of the backtester; its [type] is ["BUY" | "SELL"]. *)
Inductive TradeType := TradeBUY | TradeSELL.

Module Trade.

Record t := mk {
  type : TradeType;
  price : Q;
  timestamp : Z;
  quantity : Q
}.

End Trade.

Record BacktestResult := mkResult {
  totalTrades : nat;
  winningTrades : nat;
  losingTrades : nat;
  winRate : Q;
  totalReturn : Q;
  maxDrawdown : Q;
  sharpeRatio : Q;
  resultTrades : list Trade.t
}.

(** ** Array helpers *)

(** [a[a.length - 1]], [undefined] on the empty array. *)
Definition lastOf {A} (l : list A) : option A :=
  match l with
  | [] => None
  | x :: r => Some (last r x)
  end.

(** [a.slice(-n)]: the last [n] elements, all of them when [n] exceeds the
    length and, since [-0] is [0], also when [n] is [0]. *)
Definition sliceLast {A} (n : nat) (l : list A) : list A :=
  match n with
  | O => l
  | _ => skipn (length l - n) l
  end.

(** [a.slice(0, -1)] *)
Definition dropLast {A} (l : list A) : list A := removelast l.

(** [a.slice(0, n)] *)
Definition slicePrefix {A} (n : nat) (l : list A) : list A := firstn n l.

(** [a[a.length - k]] for [k >= 1], [undefined] when the index is negative. *)
Definition fromEnd {A} (k : nat) (l : list A) : option A :=
  if (k <=? length l)%nat then nth_error l (length l - k) else None.

(** [a.reduce((acc, x) => acc + f(x), 0)] *)
Definition sumOf {A} (f : A -> Q) (l : list A) : Q :=
  fold_left (fun acc x => acc + f x) l 0.

(** ** The strategy interface ([abstract class Strategy]) *)

(** [longPeriod] is the entry of that name in [getParameters()], when the
    strategy declares one; [analyze] returns the signal and the mutated
    instance, or [None] when the call throws. *)
Class Strategy (St : Type) := {
  longPeriod : St -> option nat;
  analyze : St -> list Candle.t -> option (Signal.t * St)
}.

(** The warm-up answer shared by the strategies:
    [{ type: "HOLD", price: c.close, timestamp: c.timestamp, confidence: 0 }] *)
Definition holdSignal (c : Candle.t) : Signal.t :=
  Signal.mk HOLD (Candle.close c) (Candle.timestamp c) 0.

(** [this.lastSignal !== x] *)
Definition differs (lastSignal x : SignalType) : bool :=
  negb (SignalType_eqb lastSignal x).

(** ** Moving average crossover ([MovingAverageCrossover.ts]) *)

Module MovingAverageCrossover.

Record t := mk {
  shortPeriod : nat;
  longPeriod : nat;
  lastSignal : SignalType
}.

(** [new MovingAverageCrossover(shortPeriod, longPeriod)] *)
Definition create (shortPeriod longPeriod : nat) : t :=
  mk shortPeriod longPeriod HOLD.

Definition withLastSignal (s : t) (x : SignalType) : t :=
  mk (shortPeriod s) (longPeriod s) x.

Definition calculateMA (candles : list Candle.t) (period : nat) : Q :=
  if (length candles <? period)%nat then 0
  else sumOf Candle.close (sliceLast period candles) / Num.ofNat period.

(** [Math.max(0.5, Math.min(0.9, Math.abs(currentSpread) * 50))] *)
Definition crossConfidence (currentSpread : Q) : Q :=
  Num.max 0.5 (Num.min 0.9 (Num.abs currentSpread * 50)).

(** [prevSpread] only feeds the metadata and is left out.  An empty window
    throws at the first read of [candles[candles.length - 1]], before any
    field of the instance is written. *)
Definition analyze (s : t) (candles : list Candle.t)
  : option (Signal.t * t) :=
  match lastOf candles with
  | None => None
  | Some currentCandle =>
      if (length candles <? longPeriod s)%nat
      then Some (holdSignal currentCandle, s)
      else
        let shortMA := calculateMA candles (shortPeriod s) in
        let longMA := calculateMA candles (longPeriod s) in
        let prevCandles := dropLast candles in
        let prevShortMA := calculateMA prevCandles (shortPeriod s) in
        let prevLongMA := calculateMA prevCandles (longPeriod s) in
        let currentSpread := (shortMA - longMA) / longMA in
        if Num.le prevShortMA prevLongMA && Num.gt shortMA longMA
           && differs (lastSignal s) BUY
        then Some (Signal.mk BUY (Candle.close currentCandle)
                             (Candle.timestamp currentCandle)
                             (crossConfidence currentSpread),
                   withLastSignal s BUY)
        else if Num.ge prevShortMA prevLongMA && Num.lt shortMA longMA
                && differs (lastSignal s) SELL
        then Some (Signal.mk SELL (Candle.close currentCandle)
                             (Candle.timestamp currentCandle)
                             (crossConfidence currentSpread),
                   withLastSignal s SELL)
        else Some (Signal.mk HOLD (Candle.close currentCandle)
                             (Candle.timestamp currentCandle) 0, s)
  end.

End MovingAverageCrossover.

(** ** RSI ([RSIStrategy.ts]) *)

(** [changes.push(candles[i].close - candles[i - 1].close)] for
    [i = 1 .. candles.length - 1] *)
Fixpoint closeChanges (candles : list Candle.t) : list Q :=
  match candles with
  | a :: (b :: _) as rest =>
      (Candle.close b - Candle.close a) :: closeChanges rest
  | _ => []
  end.

(** The accumulation loop over [recentChanges]: the pair is
    [(gains, losses)]. *)
Definition gainsLosses (recentChanges : list Q) : Q * Q :=
  fold_left
    (fun acc change =>
       if Num.gt change 0
       then (fst acc + change, snd acc)
       else (fst acc, snd acc + Num.abs change))
    recentChanges (0, 0).

(** [calculateRSI] of [RSIStrategy] and of [RSI_MA_ComboStrategy], which
    are the same function of the period. *)
Definition rsiOf (period : nat) (candles : list Candle.t) : Q :=
  if (length candles <? period + 1)%nat then 50
  else
    let changes := closeChanges candles in
    let recentChanges := sliceLast period changes in
    let '(gains, losses) := gainsLosses recentChanges in
    let avgGain := gains / Num.ofNat period in
    let avgLoss := losses / Num.ofNat period in
    if Num.eq avgLoss 0 then 100
    else
      let rs := avgGain / avgLoss in
      100 - 100 / (1 + rs).

Module RSIStrategy.

Record t := mk {
  period : nat;
  oversoldThreshold : Q;
  overboughtThreshold : Q;
  lastSignal : SignalType
}.

Definition create (period : nat) (oversold overbought : Q) : t :=
  mk period oversold overbought HOLD.

Definition withLastSignal (s : t) (x : SignalType) : t :=
  mk (period s) (oversoldThreshold s) (overboughtThreshold s) x.

Definition calculateRSI (s : t) (candles : list Candle.t) : Q :=
  rsiOf (period s) candles.

Definition analyze (s : t) (candles : list Candle.t)
  : option (Signal.t * t) :=
  match lastOf candles with
  | None => None
  | Some currentCandle =>
      if (length candles <? period s + 1)%nat
      then Some (holdSignal currentCandle, s)
      else
        let rsi := calculateRSI s candles in
        let prevRSI := calculateRSI s (dropLast candles) in
        if Num.le prevRSI (oversoldThreshold s)
           && Num.gt rsi (oversoldThreshold s)
           && differs (lastSignal s) BUY
        then Some (Signal.mk BUY (Candle.close currentCandle)
                     (Candle.timestamp currentCandle)
                     (Num.min 0.9
                        ((oversoldThreshold s - Num.min prevRSI 20) / 20)),
                   withLastSignal s BUY)
        else if Num.ge prevRSI (overboughtThreshold s)
                && Num.lt rsi (overboughtThreshold s)
                && differs (lastSignal s) SELL
        then Some (Signal.mk SELL (Candle.close currentCandle)
                     (Candle.timestamp currentCandle)
                     (Num.min 0.9
                        ((Num.max prevRSI 80 - overboughtThreshold s) / 20)),
                   withLastSignal s SELL)
        else Some (Signal.mk HOLD (Candle.close currentCandle)
                     (Candle.timestamp currentCandle) 0, s)
  end.

End RSIStrategy.

(** ** Bollinger bands ([BollingerBandsStrategy.ts]) *)

Module BollingerBandsStrategy.

Record t := mk {
  period : nat;
  standardDeviations : Q;
  lastSignal : SignalType
}.

Definition create (period : nat) (standardDeviations : Q) : t :=
  mk period standardDeviations HOLD.

Definition withLastSignal (s : t) (x : SignalType) : t :=
  mk (period s) (standardDeviations s) x.

Record Bands := mkBands {
  upperBand : Q;
  lowerBand : Q;
  middleBand : Q
}.

Section WithSqrt.

(** [Math.sqrt], which the rationals do not have: the strategy is a
    function of it. *)
Variable sqrt : Q -> Q.

Definition calculateBollingerBands (s : t) (candles : list Candle.t) : Bands :=
  let recentCandles := sliceLast (period s) candles in
  let middleBand :=
    sumOf Candle.close recentCandles / Num.ofNat (period s) in
  let variance :=
    sumOf (fun candle =>
             (Candle.close candle - middleBand)
             * (Candle.close candle - middleBand))
          recentCandles
    / Num.ofNat (period s) in
  let standardDeviation := sqrt variance in
  mkBands (middleBand + standardDeviation * standardDeviations s)
          (middleBand - standardDeviation * standardDeviations s)
          middleBand.

Definition analyze (s : t) (candles : list Candle.t)
  : option (Signal.t * t) :=
  match lastOf candles with
  | None => None
  | Some currentCandle =>
      if (length candles <? period s)%nat
      then Some (holdSignal currentCandle, s)
      else
        let bands := calculateBollingerBands s candles in
        let price := Candle.close currentCandle in
        if Num.le price (lowerBand bands) && differs (lastSignal s) BUY
        then Some (Signal.mk BUY (Candle.close currentCandle)
                     (Candle.timestamp currentCandle)
                     (Num.min 0.9
                        (((lowerBand bands - price) / lowerBand bands) * 10)),
                   withLastSignal s BUY)
        else if Num.ge price (upperBand bands) && differs (lastSignal s) SELL
        then Some (Signal.mk SELL (Candle.close currentCandle)
                     (Candle.timestamp currentCandle)
                     (Num.min 0.9
                        (((price - upperBand bands) / upperBand bands) * 10)),
                   withLastSignal s SELL)
        else Some (Signal.mk HOLD (Candle.close currentCandle)
                     (Candle.timestamp currentCandle) 0, s)
  end.

End WithSqrt.

End BollingerBandsStrategy.

(** ** MACD ([MACDStrategy.ts]) *)

Module MACDStrategy.

Record t := mk {
  fastPeriod : nat;
  slowPeriod : nat;
  signalPeriod : nat;
  lastSignal : SignalType
}.

Definition create (fastPeriod slowPeriod signalPeriod : nat) : t :=
  mk fastPeriod slowPeriod signalPeriod HOLD.

Definition withLastSignal (s : t) (x : SignalType) : t :=
  mk (fastPeriod s) (slowPeriod s) (signalPeriod s) x.

Record MACDData := mkData {
  macd : Q;
  signal : Q;
  histogram : Q
}.

(** [None] when the function throws: [candles[candles.length - 1]] on an
    empty array, [candles[candles.length - period]] for [period = 0]. *)
Definition calculateEMA (candles : list Candle.t) (period : nat) : option Q :=
  if (length candles <? period)%nat
  then option_map Candle.close (lastOf candles)
  else
    let multiplier := 2 / (Num.ofNat period + 1) in
    match nth_error candles (length candles - period) with
    | None => None
    | Some first =>
        Some (fold_left
                (fun ema candle =>
                   Candle.close candle * multiplier + ema * (1 - multiplier))
                (skipn (length candles - period + 1) candles)
                (Candle.close first))
    end.

(** The loop that fills [macdValues], at indices [i .. i + n - 1]. *)
Fixpoint macdValuesFrom (s : t) (candles : list Candle.t) (i n : nat)
  : option (list Q) :=
  match n with
  | O => Some []
  | S n' =>
      if (slowPeriod s <=? i)%nat then
        match calculateEMA (slicePrefix (i + 1) candles) (fastPeriod s),
              calculateEMA (slicePrefix (i + 1) candles) (slowPeriod s),
              macdValuesFrom s candles (i + 1) n' with
        | Some fEMA, Some sEMA, Some rest => Some ((fEMA - sEMA) :: rest)
        | _, _, _ => None
        end
      else macdValuesFrom s candles (i + 1) n'
  end.

(** The outer [option] is [None] when the function throws, the inner one
    when it returns [null]. *)
Definition calculateMACD (s : t) (candles : list Candle.t)
  : option (option MACDData) :=
  if (length candles <? slowPeriod s + signalPeriod s)%nat then Some None
  else
    match calculateEMA candles (fastPeriod s),
          calculateEMA candles (slowPeriod s) with
    | Some fastEMA, Some slowEMA =>
        let macd := fastEMA - slowEMA in
        match macdValuesFrom s candles (length candles - signalPeriod s)
                             (signalPeriod s) with
        | Some macdValues =>
            let signal :=
              sumOf (fun val => val) macdValues
              / Num.ofNat (length macdValues) in
            Some (Some (mkData macd signal (macd - signal)))
        | None => None
        end
    | _, _ => None
    end.

Definition analyze (s : t) (candles : list Candle.t)
  : option (Signal.t * t) :=
  match lastOf candles with
  | None => None
  | Some currentCandle =>
      if (length candles <? slowPeriod s + signalPeriod s + 5)%nat
      then Some (holdSignal currentCandle, s)
      else
        match calculateMACD s candles, calculateMACD s (dropLast candles) with
        | Some (Some macdData), Some (Some prevMACDData) =>
            let bullishCrossover :=
              Num.le (macd prevMACDData) (signal prevMACDData)
              && Num.gt (macd macdData) (signal macdData) in
            let bearishCrossover :=
              Num.ge (macd prevMACDData) (signal prevMACDData)
              && Num.lt (macd macdData) (signal macdData) in
            if bullishCrossover && differs (lastSignal s) BUY
            then Some (Signal.mk BUY (Candle.close currentCandle)
                         (Candle.timestamp currentCandle)
                         (if Num.gt (macd macdData) 0 then 0.8
                          else if Num.gt (histogram macdData) 0 then 0.6
                          else 0.4),
                       withLastSignal s BUY)
            else if bearishCrossover && differs (lastSignal s) SELL
            then Some (Signal.mk SELL (Candle.close currentCandle)
                         (Candle.timestamp currentCandle)
                         (if Num.lt (macd macdData) 0 then 0.8
                          else if Num.lt (histogram macdData) 0 then 0.6
                          else 0.4),
                       withLastSignal s SELL)
            else Some (Signal.mk HOLD (Candle.close currentCandle)
                         (Candle.timestamp currentCandle) 0, s)
        | Some _, Some _ => Some (holdSignal currentCandle, s)
        | _, _ => None
        end
  end.

End MACDStrategy.

(** ** RSI + MA combo ([RSI_MA_ComboStrategy.ts]) *)

Module RSI_MA_ComboStrategy.

Record t := mk {
  rsiPeriod : nat;
  rsiOversold : Q;
  rsiOverbought : Q;
  maShortPeriod : nat;
  maLongPeriod : nat;
  lastSignal : SignalType
}.

Definition create (rsiPeriod : nat) (rsiOversold rsiOverbought : Q)
  (maShortPeriod maLongPeriod : nat) : t :=
  mk rsiPeriod rsiOversold rsiOverbought maShortPeriod maLongPeriod HOLD.

Definition withLastSignal (s : t) (x : SignalType) : t :=
  mk (rsiPeriod s) (rsiOversold s) (rsiOverbought s) (maShortPeriod s)
     (maLongPeriod s) x.

Definition calculateRSI (s : t) (candles : list Candle.t) : Q :=
  rsiOf (rsiPeriod s) candles.

(** Unlike the crossover's, this moving average answers the last close on a
    short window; [None] when that read throws. *)
Definition calculateMA (candles : list Candle.t) (period : nat) : option Q :=
  if (length candles <? period)%nat
  then option_map Candle.close (lastOf candles)
  else Some (sumOf Candle.close (sliceLast period candles)
             / Num.ofNat period).

Definition analyze (s : t) (candles : list Candle.t)
  : option (Signal.t * t) :=
  match lastOf candles with
  | None => None
  | Some currentCandle =>
      if (length candles <? Nat.max (rsiPeriod s) (maLongPeriod s) + 5)%nat
      then Some (holdSignal currentCandle, s)
      else
        let rsi := calculateRSI s candles in
        let prevRSI := calculateRSI s (dropLast candles) in
        match calculateMA candles (maShortPeriod s),
              calculateMA candles (maLongPeriod s),
              calculateMA (dropLast candles) (maShortPeriod s),
              calculateMA (dropLast candles) (maLongPeriod s) with
        | Some shortMA, Some longMA, Some prevShortMA, Some prevLongMA =>
            let bullishTrend := Num.gt shortMA longMA in
            let bearishTrend := Num.lt shortMA longMA in
            let trendStrength := Num.abs ((shortMA - longMA) / longMA) in
            let rsiOversoldRecovery :=
              Num.le prevRSI (rsiOversold s) && Num.gt rsi (rsiOversold s) in
            let maUpCross :=
              Num.le prevShortMA prevLongMA && Num.gt shortMA longMA in
            let strongBullishTrend :=
              bullishTrend && Num.gt trendStrength 0.001 in
            let rsiOverboughtDecline :=
              Num.ge prevRSI (rsiOverbought s)
              && Num.lt rsi (rsiOverbought s) in
            let maDownCross :=
              Num.ge prevShortMA prevLongMA && Num.lt shortMA longMA in
            let strongBearishTrend :=
              bearishTrend && Num.gt trendStrength 0.001 in
            let emit (type : SignalType) (confidence : Q) :=
              Some (Signal.mk type (Candle.close currentCandle)
                      (Candle.timestamp currentCandle) confidence,
                    withLastSignal s type) in
            if rsiOversoldRecovery && maUpCross && differs (lastSignal s) BUY
            then emit BUY 0.9
            else if rsiOversoldRecovery && strongBullishTrend
                    && differs (lastSignal s) BUY
            then emit BUY 0.7
            else if maUpCross && Num.lt rsi 60 && differs (lastSignal s) BUY
            then emit BUY 0.5
            else if rsiOverboughtDecline && maDownCross
                    && differs (lastSignal s) SELL
            then emit SELL 0.9
            else if rsiOverboughtDecline && strongBearishTrend
                    && differs (lastSignal s) SELL
            then emit SELL 0.7
            else if maDownCross && Num.gt rsi 40
                    && differs (lastSignal s) SELL
            then emit SELL 0.5
            else Some (Signal.mk HOLD (Candle.close currentCandle)
                         (Candle.timestamp currentCandle) 0, s)
        | _, _, _, _ => None
        end
  end.

End RSI_MA_ComboStrategy.

(** ** Scalping ([ScalpingStrategy.ts])

    [calculateVolatility] and [calculateSpread] are never called, and
    [getCurrentPositions] hands out a copy of the map: they are left out. *)

Module ScalpingStrategy.

(** The keys ["LONG"] and ["SHORT"] of the [positions] map. *)
Inductive PositionType := LONG | SHORT.

Definition PositionType_eqb (a b : PositionType) : bool :=
  match a, b with
  | LONG, LONG | SHORT, SHORT => true
  | _, _ => false
  end.

Record Position := mkPosition {
  entry : Q;
  timestamp : Z;
  candles : nat
}.

Record RecentTrade := mkRecentTrade {
  tradeTimestamp : Z;
  profit : Q
}.

(** [positions] is a JavaScript [Map], iterated in insertion order: an
    association list with at most one entry per key. *)
Record t := mk {
  spreadThreshold : Q;
  volumeThreshold : Q;
  quickProfitTarget : Q;
  maxHoldTime : nat;
  volatilityPeriod : nat;
  minVolatility : Q;
  positions : list (PositionType * Position);
  recentTrades : list RecentTrade
}.

Definition create (spreadThreshold volumeThreshold quickProfitTarget : Q)
  (maxHoldTime volatilityPeriod : nat) (minVolatility : Q) : t :=
  mk spreadThreshold volumeThreshold quickProfitTarget maxHoldTime
     volatilityPeriod minVolatility [] [].

Definition withState (s : t) (positions : list (PositionType * Position))
  (recentTrades : list RecentTrade) : t :=
  mk (spreadThreshold s) (volumeThreshold s) (quickProfitTarget s)
     (maxHoldTime s) (volatilityPeriod s) (minVolatility s)
     positions recentTrades.

(** [Map.prototype.set]: replaces in place, appends a new key. *)
Fixpoint mapSet (k : PositionType) (v : Position)
  (m : list (PositionType * Position)) : list (PositionType * Position) :=
  match m with
  | [] => [(k, v)]
  | (k', v') :: m' =>
      if PositionType_eqb k k' then (k, v) :: m' else (k', v') :: mapSet k v m'
  end.

(** [Map.prototype.delete] *)
Definition mapDelete (k : PositionType) (m : list (PositionType * Position))
  : list (PositionType * Position) :=
  filter (fun kv => negb (PositionType_eqb k (fst kv))) m.

Definition createHoldSignal (candle : Candle.t) : Signal.t :=
  Signal.mk HOLD (Candle.close candle) (Candle.timestamp candle) 0.

Definition updatePositions (s : t) : t :=
  withState s
    (map (fun kv => (fst kv,
                     mkPosition (entry (snd kv)) (timestamp (snd kv))
                                (candles (snd kv) + 1)))
         (positions s))
    (recentTrades s).

Definition cleanOldTrades (s : t) (currentTime : Z) : t :=
  let oneHourAgo := (currentTime - 3600000)%Z in
  withState s (positions s)
    (filter (fun trade => (oneHourAgo <? tradeTimestamp trade)%Z)
            (recentTrades s)).

Inductive Direction := UP | DOWN | SIDEWAYS | NEUTRAL.

Definition Direction_eqb (a b : Direction) : bool :=
  match a, b with
  | UP, UP | DOWN, DOWN | SIDEWAYS, SIDEWAYS | NEUTRAL, NEUTRAL => true
  | _, _ => false
  end.

Definition calculateAverageVolume (cs : list Candle.t) (period : nat) : Q :=
  let recentCandles := sliceLast period cs in
  sumOf Candle.volume recentCandles / Num.ofNat (length recentCandles).

Definition checkVolumeSpike (s : t) (cs : list Candle.t) : option bool :=
  match fromEnd 1 cs with
  | None => None
  | Some current =>
      Some (Num.ge (Candle.volume current / calculateAverageVolume cs 20)
                   (volumeThreshold s))
  end.

(** The pair is [(direction, strength)]. *)
Definition analyzePriceAction (cs : list Candle.t) : option (Direction * Q) :=
  match fromEnd 1 cs, fromEnd 2 cs with
  | Some current, Some prev =>
      let instantChange :=
        (Candle.close current - Candle.close prev) / Candle.close prev in
      let bodySize :=
        Num.abs (Candle.close current - Candle.open current)
        / Candle.open current in
      let strength :=
        Num.min 1 (Num.abs instantChange * 2000 + bodySize * 100) in
      if Num.gt instantChange 0.0001 then Some (UP, strength)
      else if Num.lt instantChange (-0.0001) then Some (DOWN, strength)
      else Some (SIDEWAYS, 0)
  | _, _ => None
  end.

(** The counting loop of [calculateMomentum] over [recent]: the pair is
    [(upMoves, downMoves)]. *)
Fixpoint countMoves (recent : list Candle.t) : nat * nat :=
  match recent with
  | a :: (b :: _) as rest =>
      let '(upMoves, downMoves) := countMoves rest in
      let change := Candle.close b - Candle.close a in
      if Num.gt change 0 then (S upMoves, downMoves)
      else if Num.lt change 0 then (upMoves, S downMoves)
      else (upMoves, downMoves)
  | _ => (O, O)
  end.

(** The pair is [(strength, direction)]. *)
Definition calculateMomentum (cs : list Candle.t) : Q * Direction :=
  let recent := sliceLast 3 cs in
  let '(upMoves, downMoves) := countMoves recent in
  let strength :=
    Num.abs (Num.ofNat upMoves - Num.ofNat downMoves)
    / Num.ofNat (length recent) in
  let direction :=
    if (downMoves <? upMoves)%nat then UP
    else if (upMoves <? downMoves)%nat then DOWN
    else NEUTRAL in
  (strength, direction).

(** [{ type: isLong ? "SELL" : "BUY", ... }] *)
Definition exitType (isLong : bool) : SignalType :=
  if isLong then SELL else BUY.

(** The body of the loop of [checkExitConditions] for one map entry:
    [Some] when one of the four [return]s is taken, with the signal and the
    profit it records.  The local [priceAction], computed and never read, is
    left out. *)
Definition exitFor (s : t) (cs : list Candle.t) (currentCandle : Candle.t)
  (positionType : PositionType) (position : Position)
  : option (Signal.t * Q) :=
  let priceChange :=
    ((Candle.close currentCandle - entry position) / entry position) * 100 in
  let isLong := PositionType_eqb positionType LONG in
  let profit := if isLong then priceChange else - priceChange in
  let leave (confidence : Q) :=
    Some (Signal.mk (exitType isLong) (Candle.close currentCandle)
                    (Candle.timestamp currentCandle) confidence,
          profit) in
  if Num.ge profit (quickProfitTarget s * 0.5) then leave 0.9
  else if (maxHoldTime s <=? candles position)%nat && Num.le profit 0
  then leave 0.7
  else
    let momentum := calculateMomentum cs in
    let momentumReversed :=
      (isLong && Direction_eqb (snd momentum) DOWN)
      || (negb isLong && Direction_eqb (snd momentum) UP) in
    if momentumReversed && (2 <=? candles position)%nat
       && Num.lt profit (quickProfitTarget s * 0.5)
    then leave 0.8
    else
      let stopLoss := - quickProfitTarget s * 2 in
      if Num.le profit stopLoss then leave 0.8 else None.

(** The [for ... of this.positions.entries()] loop over the entries still
    to visit. *)
Fixpoint exitLoop (s : t) (cs : list Candle.t) (currentCandle : Candle.t)
  (entries : list (PositionType * Position)) : Signal.t * t :=
  match entries with
  | [] => (createHoldSignal currentCandle, s)
  | (positionType, position) :: entries' =>
      match exitFor s cs currentCandle positionType position with
      | Some (signal, profit) =>
          (signal,
           withState s (mapDelete positionType (positions s))
             (recentTrades s
              ++ [mkRecentTrade (Candle.timestamp currentCandle) profit]))
      | None => exitLoop s cs currentCandle entries'
      end
  end.

Definition checkExitConditions (s : t) (cs : list Candle.t)
  : option (Signal.t * t) :=
  match fromEnd 1 cs with
  | None => None
  | Some currentCandle => Some (exitLoop s cs currentCandle (positions s))
  end.

Definition getInstantScalpSignal (s : t) (cs : list Candle.t)
  : option (Signal.t * t) :=
  match fromEnd 1 cs, fromEnd 2 cs, fromEnd 3 cs with
  | Some current, Some prev, Some prev2 =>
      let instantChange :=
        (Candle.close current - Candle.close prev) / Candle.close prev in
      let prevChange :=
        (Candle.close prev - Candle.close prev2) / Candle.close prev2 in
      let volumeBoost :=
        Num.gt (Candle.volume current) (Candle.volume prev * 1.1) in
      let significantMove := Num.gt (Num.abs instantChange) 0.0003 in
      let accelerating :=
        Num.eq (Num.sign instantChange) (Num.sign prevChange)
        && Num.gt (Num.abs instantChange) (Num.abs prevChange) in
      if significantMove && (accelerating || volumeBoost) then
        let signal := if Num.gt instantChange 0 then BUY else SELL in
        let positionType :=
          if SignalType_eqb signal BUY then LONG else SHORT in
        Some (Signal.mk signal (Candle.close current)
                        (Candle.timestamp current) 0.8,
              withState s
                (mapSet positionType
                   (mkPosition (Candle.close current)
                               (Candle.timestamp current) 0)
                   (positions s))
                (recentTrades s))
      else Some (createHoldSignal current, s)
  | _, _, _ => None
  end.

Definition checkEntryConditions (s : t) (cs : list Candle.t)
  : option (Signal.t * t) :=
  match fromEnd 1 cs with
  | None => None
  | Some currentCandle =>
      if (0 <? length (positions s))%nat
      then Some (createHoldSignal currentCandle, s)
      else
        match getInstantScalpSignal s cs with
        | None => None
        | Some (instantSignal, s1) =>
            if negb (SignalType_eqb (Signal.type instantSignal) HOLD)
            then Some (instantSignal, s1)
            else
              match analyzePriceAction cs, checkVolumeSpike s1 cs with
              | Some priceAction, Some volumeRatio =>
                  let momentum := calculateMomentum cs in
                  let enter (type : SignalType) (positionType : PositionType) :=
                    Some (Signal.mk type (Candle.close currentCandle)
                            (Candle.timestamp currentCandle) 0.7,
                          withState s1
                            (mapSet positionType
                               (mkPosition (Candle.close currentCandle)
                                  (Candle.timestamp currentCandle) 0)
                               (positions s1))
                            (recentTrades s1)) in
                  if Direction_eqb (fst priceAction) UP
                     && (volumeRatio || Num.gt (fst momentum) 0.2)
                  then enter BUY LONG
                  else if Direction_eqb (fst priceAction) DOWN
                          && (volumeRatio || Num.gt (fst momentum) 0.2)
                  then enter SELL SHORT
                  else Some (Signal.mk HOLD (Candle.close currentCandle)
                               (Candle.timestamp currentCandle) 0, s1)
              | _, _ => None
              end
        end
  end.

Definition analyze (s : t) (cs : list Candle.t) : option (Signal.t * t) :=
  match lastOf cs with
  | None => None
  | Some currentCandle =>
      if (length cs <? volatilityPeriod s + 5)%nat
      then Some (createHoldSignal currentCandle, s)
      else
        let s1 := updatePositions s in
        let s2 := cleanOldTrades s1 (Candle.timestamp currentCandle) in
        match checkExitConditions s2 cs with
        | None => None
        | Some (exitSignal, s3) =>
            if negb (SignalType_eqb (Signal.type exitSignal) HOLD)
            then Some (exitSignal, s3)
            else checkEntryConditions s3 cs
        end
  end.

Record Performance := mkPerformance {
  performanceTrades : nat;
  avgProfit : Q;
  performanceWinRate : Q
}.

(** The fields [trades], [avgProfit] and [winRate] of the object it
    returns. *)
Definition getRecentPerformance (s : t) : Performance :=
  if (length (recentTrades s) =? 0)%nat then mkPerformance 0 0 0
  else
    let totalProfit := sumOf profit (recentTrades s) in
    let winningTrades :=
      length (filter (fun trade => Num.gt (profit trade) 0)
                     (recentTrades s)) in
    mkPerformance
      (length (recentTrades s))
      (totalProfit / Num.ofNat (length (recentTrades s)))
      (Num.ofNat winningTrades / Num.ofNat (length (recentTrades s))).

End ScalpingStrategy.

(** ** The six strategies as instances of the interface *)

(** Only the crossover's parameter record has a [longPeriod] entry; the
    combo's is called [maLongPeriod]. *)
#[export] Instance MovingAverageCrossover_Strategy
  : Strategy MovingAverageCrossover.t :=
  {| longPeriod := fun s => Some (MovingAverageCrossover.longPeriod s);
     analyze := MovingAverageCrossover.analyze |}.

#[export] Instance RSIStrategy_Strategy : Strategy RSIStrategy.t :=
  {| longPeriod := fun _ => None;
     analyze := RSIStrategy.analyze |}.

#[export] Instance MACDStrategy_Strategy : Strategy MACDStrategy.t :=
  {| longPeriod := fun _ => None;
     analyze := MACDStrategy.analyze |}.

#[export] Instance RSI_MA_ComboStrategy_Strategy
  : Strategy RSI_MA_ComboStrategy.t :=
  {| longPeriod := fun _ => None;
     analyze := RSI_MA_ComboStrategy.analyze |}.

#[export] Instance ScalpingStrategy_Strategy : Strategy ScalpingStrategy.t :=
  {| longPeriod := fun _ => None;
     analyze := ScalpingStrategy.analyze |}.

(** The closed set of strategy classes of the repository. *)
Inductive AnyStrategy :=
| Crossover (s : MovingAverageCrossover.t)
| Rsi (s : RSIStrategy.t)
| Bollinger (s : BollingerBandsStrategy.t)
| Macd (s : MACDStrategy.t)
| Combo (s : RSI_MA_ComboStrategy.t)
| Scalping (s : ScalpingStrategy.t).

Definition anyLongPeriod (s : AnyStrategy) : option nat :=
  match s with
  | Crossover s => Some (MovingAverageCrossover.longPeriod s)
  | _ => None
  end.

(** Lifts the answer of one class into the closed set. *)
Definition lift {A} (wrap : A -> AnyStrategy) (r : option (Signal.t * A))
  : option (Signal.t * AnyStrategy) :=
  match r with
  | Some (signal, s') => Some (signal, wrap s')
  | None => None
  end.

Definition anyAnalyze (sqrt : Q -> Q) (s : AnyStrategy)
  (candles : list Candle.t) : option (Signal.t * AnyStrategy) :=
  match s with
  | Crossover s => lift Crossover (MovingAverageCrossover.analyze s candles)
  | Rsi s => lift Rsi (RSIStrategy.analyze s candles)
  | Bollinger s =>
      lift Bollinger (BollingerBandsStrategy.analyze sqrt s candles)
  | Macd s => lift Macd (MACDStrategy.analyze s candles)
  | Combo s => lift Combo (RSI_MA_ComboStrategy.analyze s candles)
  | Scalping s => lift Scalping (ScalpingStrategy.analyze s candles)
  end.

Definition AnyStrategy_Strategy (sqrt : Q -> Q) : Strategy AnyStrategy :=
  {| longPeriod := anyLongPeriod;
     analyze := anyAnalyze sqrt |}.

(** The growing windows [candles[0..i]] for [i = from .. candles.length - 1]. *)
Definition growingWindows (candles : list Candle.t) (from : nat)
  : list (list Candle.t) :=
  map (fun i => slicePrefix (i + 1) candles)
      (seq from (length candles - from)).

(** An integer square root on the rationals, exact on quotients of perfect
    squares; it stands for [Math.sqrt] where a run of the Bollinger strategy
    is evaluated. *)
Definition sqrtQ (x : Q) : Q :=
  let r := Qred x in Z.sqrt (Qnum r) # Pos.sqrt (Qden r).

(** ** The backtester ([Backtester.ts]) *)

Module Backtester.

Record t := mk {
  initialBalance : Q;
  currentBalance : Q;
  position : Q;
  trades : list Trade.t;
  maxBalance : Q
}.

(** [new Backtester(initialBalance)] *)
Definition create (initial : Q) : t :=
  mk initial initial 0 [] initial.

Definition reset (b : t) : t :=
  mk (initialBalance b) (initialBalance b) 0 [] (initialBalance b).

Definition executeSignal (signal : Signal.t) (candle : Candle.t) (b : t) : t :=
  let price := Signal.price signal in
  if SignalType_eqb (Signal.type signal) BUY
     && Num.gt (currentBalance b) 100
     && Num.eq (position b) 0
  then
    let quantity := (currentBalance b * 0.95) / price in
    mk (initialBalance b)
       (currentBalance b * 0.05)
       quantity
       (trades b
        ++ [Trade.mk TradeBUY price (Signal.timestamp signal) quantity])
       (maxBalance b)
  else if SignalType_eqb (Signal.type signal) SELL && Num.gt (position b) 0
  then
    let saleValue := position b * price in
    let balance := currentBalance b + saleValue in
    mk (initialBalance b)
       balance
       0
       (trades b ++ [Trade.mk TradeSELL price (Signal.timestamp signal)
                              (position b)])
       (Num.max (maxBalance b) balance)
  else b.

(** The value logged after a trade and every 200 candles: the cash plus the
    position at [currentPrice]. *)
Definition getTotalValue (b : t) (currentPrice : Q) : Q :=
  currentBalance b + position b * currentPrice.

Definition isBuy (t : Trade.t) : bool :=
  match Trade.type t with TradeBUY => true | TradeSELL => false end.

Definition isSell (t : Trade.t) : bool :=
  match Trade.type t with TradeSELL => true | TradeBUY => false end.

(** The pairing loop of [calculateResults]: [i] runs over
    [0 .. min(buys.length, sells.length) - 1], which is the walk down both
    arrays at once. *)
Fixpoint countPairs (buys sells : list Trade.t) (winning losing : nat)
  : nat * nat :=
  match buys, sells with
  | b :: buys', s :: sells' =>
      if Num.gt (Trade.price s) (Trade.price b)
      then countPairs buys' sells' (S winning) losing
      else countPairs buys' sells' winning (S losing)
  | _, _ => (winning, losing)
  end.

Definition calculateResults (b : t) : BacktestResult :=
  let buyTrades := filter isBuy (trades b) in
  let sellTrades := filter isSell (trades b) in
  let '(winning, losing) := countPairs buyTrades sellTrades 0 0 in
  let totalReturn :=
    ((currentBalance b - initialBalance b) / initialBalance b) * 100 in
  let maxDrawdown :=
    ((maxBalance b - currentBalance b) / maxBalance b) * 100 in
  let winRate :=
    if (0 <? length buyTrades)%nat
    then (Num.ofNat winning / Num.ofNat (length buyTrades)) * 100
    else 0 in
  mkResult (length buyTrades) winning losing winRate totalReturn maxDrawdown
           0 (trades b).

Section Backtest.

Context {St : Type} `{Strategy St}.

(** [strategy.getParameters().longPeriod || 20]: an absent entry and the
    number [0] are both falsy. *)
Definition startIndex (strategy : St) : nat :=
  match longPeriod strategy with
  | Some (S n) => S n
  | Some O | None => 20%nat
  end.

(** [signal.type !== "HOLD" && signal.confidence > 0.1] *)
Definition shouldExecute (signal : Signal.t) : bool :=
  negb (SignalType_eqb (Signal.type signal) HOLD)
  && Num.gt (Signal.confidence signal) 0.1.

(** The body of the simulation loop at index [i]. *)
Definition loopBody (candles : list Candle.t) (i : nat) (st : St * t)
  : option (St * t) :=
  let historicalCandles := slicePrefix (i + 1) candles in
  match analyze (fst st) historicalCandles with
  | None => None
  | Some (signal, strategy') =>
      if shouldExecute signal
      then match nth_error candles i with
           | Some candle =>
               Some (strategy', executeSignal signal candle (snd st))
           | None => None
           end
      else Some (strategy', snd st)
  end.

(** [for (let i = ...; i < candles.length; i++)], entered at [i]; [fuel]
    bounds the number of iterations still allowed. *)
Fixpoint loopFrom (fuel : nat) (candles : list Candle.t) (i : nat)
  (st : St * t) : option (St * t) :=
  if (i <? length candles)%nat then
    match fuel with
    | O => None
    | S fuel' =>
        match loopBody candles i st with
        | None => None
        | Some st' => loopFrom fuel' candles (i + 1) st'
        end
    end
  else Some st.

(** "Close any remaining position" *)
Definition closeRemaining (candles : list Candle.t) (b : t) : option t :=
  if Num.gt (position b) 0 then
    match lastOf candles with
    | Some lastCandle =>
        Some (executeSignal
                (Signal.mk SELL (Candle.close lastCandle)
                           (Candle.timestamp lastCandle) 1)
                lastCandle b)
    | None => None
    end
  else Some b.

(** [backtest]: the result together with the final state of the backtester
    and of the strategy instance.  The loop runs at most [candles.length]
    times, which is the fuel it gets. *)
Definition backtest (b : t) (strategy : St) (candles : list Candle.t)
  : option (BacktestResult * t * St) :=
  match loopFrom (length candles) candles (startIndex strategy)
                 (strategy, reset b) with
  | None => None
  | Some (strategy', b') =>
      match closeRemaining candles b' with
      | None => None
      | Some b'' => Some (calculateResults b'', b'', strategy')
      end
  end.

End Backtest.

End Backtester.

(** ** Names and parameter records ([Strategy.getName], [getParameters]) *)

(** The name each constructor passes to [super]. *)
Definition getName (s : AnyStrategy) : String.string :=
  match s with
  | Crossover _ => "Moving Average Crossover"
  | Rsi _ => "RSI Strategy"
  | Bollinger _ => "Bollinger Bands"
  | Macd _ => "MACD Strategy"
  | Combo _ => "RSI + MA Combo"
  | Scalping _ => "Advanced Scalping Strategy"
  end.

(** The parameter object each constructor passes to [super], as its list of
    entries; every entry is a number. *)
Definition getParameters (s : AnyStrategy) : list (String.string * Q) :=
  match s with
  | Crossover s =>
      [("shortPeriod"%string,
        Num.ofNat (MovingAverageCrossover.shortPeriod s));
       ("longPeriod"%string,
        Num.ofNat (MovingAverageCrossover.longPeriod s))]
  | Rsi s =>
      [("period"%string, Num.ofNat (RSIStrategy.period s));
       ("oversoldThreshold"%string, RSIStrategy.oversoldThreshold s);
       ("overboughtThreshold"%string, RSIStrategy.overboughtThreshold s)]
  | Bollinger s =>
      [("period"%string, Num.ofNat (BollingerBandsStrategy.period s));
       ("standardDeviations"%string,
        BollingerBandsStrategy.standardDeviations s)]
  | Macd s =>
      [("fastPeriod"%string, Num.ofNat (MACDStrategy.fastPeriod s));
       ("slowPeriod"%string, Num.ofNat (MACDStrategy.slowPeriod s));
       ("signalPeriod"%string, Num.ofNat (MACDStrategy.signalPeriod s))]
  | Combo s =>
      [("rsiPeriod"%string, Num.ofNat (RSI_MA_ComboStrategy.rsiPeriod s));
       ("rsiOversold"%string, RSI_MA_ComboStrategy.rsiOversold s);
       ("rsiOverbought"%string, RSI_MA_ComboStrategy.rsiOverbought s);
       ("maShortPeriod"%string,
        Num.ofNat (RSI_MA_ComboStrategy.maShortPeriod s));
       ("maLongPeriod"%string,
        Num.ofNat (RSI_MA_ComboStrategy.maLongPeriod s))]
  | Scalping s =>
      [("spreadThreshold"%string, ScalpingStrategy.spreadThreshold s);
       ("volumeThreshold"%string, ScalpingStrategy.volumeThreshold s);
       ("quickProfitTarget"%string, ScalpingStrategy.quickProfitTarget s);
       ("maxHoldTime"%string, Num.ofNat (ScalpingStrategy.maxHoldTime s));
       ("volatilityPeriod"%string,
        Num.ofNat (ScalpingStrategy.volatilityPeriod s));
       ("minVolatility"%string, ScalpingStrategy.minVolatility s)]
  end.

(** ** Strategy comparison ([StrategyComparator.ts]) *)

Module StrategyComparator.

Record StrategyComparison := mkComparison {
  strategyName : String.string;
  parameters : list (String.string * Q);
  results : BacktestResult
}.

(** [a.reduce(f)] without an initial value: a [TypeError] on the empty
    array. *)
Definition reduce {A} (f : A -> A -> A) (l : list A) : option A :=
  match l with
  | [] => None
  | x :: rest => Some (fold_left f rest x)
  end.

(** The three reductions of [printBestPerformers]. *)
Definition bestReturn (comparisons : list StrategyComparison)
  : option StrategyComparison :=
  reduce (fun best current =>
            if Num.gt (totalReturn (results current))
                      (totalReturn (results best))
            then current else best)
         comparisons.

Definition bestWinRate (comparisons : list StrategyComparison)
  : option StrategyComparison :=
  reduce (fun best current =>
            if Num.gt (winRate (results current)) (winRate (results best))
            then current else best)
         comparisons.

Definition mostTrades (comparisons : list StrategyComparison)
  : option StrategyComparison :=
  reduce (fun best current =>
            if (totalTrades (results best) <? totalTrades (results current))%nat
            then current else best)
         comparisons.

(** The three winners it prints, [None] when a reduction throws. *)
Definition printBestPerformers (comparisons : list StrategyComparison)
  : option (StrategyComparison * StrategyComparison * StrategyComparison) :=
  match bestReturn comparisons, bestWinRate comparisons,
        mostTrades comparisons with
  | Some byReturn, Some byWinRate, Some byTrades =>
      Some (byReturn, byWinRate, byTrades)
  | _, _, _ => None
  end.

Section WithSqrt.

Variable sqrt : Q -> Q.

(** The strategies are objects that [backtest] mutates in place (the latch,
    the positions of the scalping strategy), and the array [strategies]
    holds references to them: one instance may be listed more than once.
    The instances live in a store and a reference is an index of it. *)
Definition Store := list AnyStrategy.

Definition deref (store : Store) (ref : nat) : option AnyStrategy :=
  nth_error store ref.

Fixpoint assign (store : Store) (ref : nat) (strategy : AnyStrategy)
  : Store :=
  match store, ref with
  | [], _ => []
  | _ :: rest, O => strategy :: rest
  | x :: rest, S ref => x :: assign rest ref strategy
  end.

(** The loop of [compareStrategies] over the references still to test: the
    instance is tested in the state it is in, and is left in the state in
    which [backtest] leaves it.  The store is returned beside the
    comparisons.  (No reference of the code dangles; the model answers
    [None] for one outside the store.) *)
Fixpoint compareLoop (initialBalance : Q) (strategies : list nat)
  (candles : list Candle.t) (store : Store)
  (comparisons : list StrategyComparison)
  : option (list StrategyComparison * Store) :=
  match strategies with
  | [] => Some (comparisons, store)
  | ref :: rest =>
      match deref store ref with
      | None => None
      | Some strategy =>
          let backtester := Backtester.create initialBalance in
          match @Backtester.backtest AnyStrategy (AnyStrategy_Strategy sqrt)
                  backtester strategy candles with
          | None => None
          | Some (results, _, strategy') =>
              compareLoop initialBalance rest candles
                (assign store ref strategy')
                (comparisons
                 ++ [mkComparison (getName strategy')
                                  (getParameters strategy') results])
          end
      end
  end.

Definition compareStrategies (initialBalance : Q) (store : Store)
  (strategies : list nat) (candles : list Candle.t)
  : option (list StrategyComparison * Store) :=
  match compareLoop initialBalance strategies candles store [] with
  | None => None
  | Some (comparisons, store') =>
      match printBestPerformers comparisons with
      | None => None
      | Some _ => Some (comparisons, store')
      end
  end.

End WithSqrt.

End StrategyComparator.

(** ** A [Map] with string keys *)

Module StringMap.

Definition t (V : Type) : Type := list (String.string * V).

(** [Map.prototype.get]: [None] for [undefined]. *)
Fixpoint get {V} (k : String.string) (m : t V) : option V :=
  match m with
  | [] => None
  | (k', v) :: m' => if String.eqb k k' then Some v else get k m'
  end.

(** [Map.prototype.set]: replaces in place, appends a new key. *)
Fixpoint set {V} (k : String.string) (v : V) (m : t V) : t V :=
  match m with
  | [] => [(k, v)]
  | (k', v') :: m' =>
      if String.eqb k k' then (k, v) :: m' else (k', v') :: set k v m'
  end.

(** [Map.prototype.delete] *)
Definition delete {V} (k : String.string) (m : t V) : t V :=
  filter (fun kv => negb (String.eqb k (fst kv))) m.

End StringMap.

(** ** The paper-trading account ([DemoTrader.ts]) *)

Module DemoPosition.

Record t := mk {
  symbol : String.string;
  quantity : Q;
  averagePrice : Q;
  currentValue : Q
}.

End DemoPosition.

Module DemoTrade.

Record t := mk {
  symbol : String.string;
  side : TradeType;
  quantity : Q;
  price : Q;
  timestamp : Z;
  value : Q
}.

End DemoTrade.

Module DemoTrader.

Record t := mk {
  balance : Q;
  positions : StringMap.t DemoPosition.t;
  trades : list DemoTrade.t;
  initialBalance : Q
}.

(** [new DemoTrader(initialBalance)] *)
Definition create (initialBalance : Q) : t :=
  mk initialBalance [] [] initialBalance.

(** [now] is the reading of the clock that stamps the trade. *)
Definition demoMarketBuy (d : t) (symbol : String.string) (price : Q)
  (now : Z) : bool * t :=
  let tradeValue := balance d * 0.95 in
  if Num.lt tradeValue 10 then (false, d)
  else
    let quantity := tradeValue / price in
    let position :=
      match StringMap.get symbol (positions d) with
      | Some existingPosition =>
          let totalQuantity :=
            DemoPosition.quantity existingPosition + quantity in
          let averagePrice :=
            (DemoPosition.quantity existingPosition
             * DemoPosition.averagePrice existingPosition
             + quantity * price)
            / totalQuantity in
          DemoPosition.mk symbol totalQuantity averagePrice
                          (totalQuantity * price)
      | None => DemoPosition.mk symbol quantity price (quantity * price)
      end in
    (true,
     mk (balance d - tradeValue)
        (StringMap.set symbol position (positions d))
        (trades d
         ++ [DemoTrade.mk symbol TradeBUY quantity price now tradeValue])
        (initialBalance d)).

Definition demoMarketSell (d : t) (symbol : String.string) (price : Q)
  (now : Z) : bool * t :=
  match StringMap.get symbol (positions d) with
  | None => (false, d)
  | Some position =>
      if Num.le (DemoPosition.quantity position) 0 then (false, d)
      else
        let saleValue := DemoPosition.quantity position * price in
        (true,
         mk (balance d + saleValue)
            (StringMap.delete symbol (positions d))
            (trades d
             ++ [DemoTrade.mk symbol TradeSELL
                              (DemoPosition.quantity position) price now
                              saleValue])
            (initialBalance d))
  end.

(** Nothing in the two branches throws, so the [catch] is never entered. *)
Definition executeTrade (d : t) (signal : Signal.t) (symbol : String.string)
  (currentPrice : Q) (now : Z) : bool * t :=
  match Signal.type signal with
  | BUY => demoMarketBuy d symbol currentPrice now
  | SELL => demoMarketSell d symbol currentPrice now
  | HOLD => (false, d)
  end.

(** [currentPrices.get(symbol) || position.averagePrice]: a missing price
    and the price [0] are both falsy. *)
Definition priceOr (price : option Q) (averagePrice : Q) : Q :=
  match price with
  | Some p => if Num.eq p 0 then averagePrice else p
  | None => averagePrice
  end.

Definition getPortfolioValue (d : t) (currentPrices : StringMap.t Q) : Q :=
  fold_left
    (fun totalValue entry =>
       let currentPrice :=
         priceOr (StringMap.get (fst entry) currentPrices)
                 (DemoPosition.averagePrice (snd entry)) in
       totalValue + DemoPosition.quantity (snd entry) * currentPrice)
    (positions d) (balance d).

Record Stats := mkStats {
  statsInitialBalance : Q;
  statsCurrentBalance : Q;
  statsCurrentValue : Q;
  statsTotalReturn : Q;
  statsTotalTrades : nat;
  statsPositions : list DemoPosition.t
}.

Definition getPerformanceStats (d : t) (currentPrices : StringMap.t Q)
  : Stats :=
  let currentValue := getPortfolioValue d currentPrices in
  let totalReturn :=
    ((currentValue - initialBalance d) / initialBalance d) * 100 in
  mkStats (initialBalance d) (balance d) currentValue totalReturn
          (length (trades d)) (map snd (positions d)).

End DemoTrader.

(** ** Sample data ([DataProvider.generateSampleData]) *)

Module DataProvider.

Section WithRandom.

(** [random n] is the value of the [n]-th call of [Math.random()], counted
    from 0. *)
Variable random : nat -> Q.

(** The variables of the loop, and the number of calls of [Math.random()]
    made so far. *)
Record LoopState := mkState {
  candles : list Candle.t;
  price : Q;
  trend : Q;
  trendCounter : nat;
  calls : nat
}.

(** The body of the loop at index [i]; [startTime] is
    [startDate.getTime()]. *)
Definition loopBody (startTime : Z) (st : LoopState) (i : nat) : LoopState :=
  let timestamp := (startTime + Z.of_nat i * 60 * 60 * 1000)%Z in
  let trendCounter := S (trendCounter st) in
  let changeTrend :=
    Num.gt (Num.ofNat trendCounter) (100 + random (calls st) * 100) in
  let trend :=
    if changeTrend then (random (calls st + 1) - 0.5) * 0.003
    else trend st in
  let trendCounter := if changeTrend then O else trendCounter in
  let calls := if changeTrend then (calls st + 2)%nat
               else (calls st + 1)%nat in
  let trendChange := trend + (random calls - 0.5) * 0.015 in
  let open := price st in
  let close := price st * (1 + trendChange) in
  let high := Num.max open close * (1 + random (calls + 1) * 0.005) in
  let low := Num.min open close * (1 - random (calls + 2) * 0.005) in
  let volume := 800 + random (calls + 3) * 400 in
  mkState (candles st ++ [Candle.mk timestamp open high low close volume])
          close trend trendCounter (calls + 4).

(** [generateSampleData(days)], for the start date [startTime] that
    [setDate] computes from the clock. *)
Definition generateSampleData (startTime : Z) (days : nat) : list Candle.t :=
  candles (fold_left (loopBody startTime) (seq 0 (days * 24))
                     (mkState [] 50000 0.001 0 0)).

End WithRandom.

End DataProvider.

(** ** The live trader ([LiveTrader.ts])

    The exchange client sits behind the network.  A call of [executeTrade]
    is modelled with what the exchange answers to the requests of that call
    as an argument, and with the requests it makes as a result. *)

(** [s.replace(pattern, "")] with a string pattern: the first occurrence
    is removed. *)
Definition removeFirst (pattern s : String.string) : String.string :=
  match String.index 0 pattern s with
  | Some i =>
      String.append
        (String.substring 0 i s)
        (String.substring (i + String.length pattern)
                          (String.length s - i - String.length pattern) s)
  | None => s
  end.

Module LiveTrader.

Record AccountBalance := mkBalance {
  asset : String.string;
  free : String.string;
  locked : String.string
}.

(** The calls of the exchange client. *)
Inductive Request :=
| MarketBuy (symbol : String.string) (quoteOrderQty : Q)
| GetAccountBalance
| MarketSell (symbol : String.string) (quantity : Q).

(** What the exchange answers: the [status] of the order that [marketBuy]
    returns, the balances, the [status] of the order that [marketSell]
    returns; [None] when the call throws. *)
Record Answers := mkAnswers {
  buyStatus : option String.string;
  balances : option (list AccountBalance);
  sellStatus : option String.string
}.

Record t := mk {
  isActive : bool
}.

(** [new LiveTrader(binanceClient)] *)
Definition create : t := mk false.

Definition activate (l : t) : t := mk true.

Definition deactivate (l : t) : t := mk false.

Definition isLiveActive (l : t) : bool := isActive l.

(** [result.status === "FILLED"], [false] when the order threw and the
    [catch] answered. *)
Definition filled (status : option String.string) : bool :=
  match status with
  | Some status => String.eqb status "FILLED"
  | None => false
  end.

Section WithParseFloat.

(** [parseFloat], [None] for NaN. *)
Variable parseFloat : String.string -> option Q.

(** [parseFloat(free) > 0] *)
Definition positiveFree (balance : AccountBalance) : bool :=
  match parseFloat (free balance) with
  | Some quantity => Num.gt quantity 0
  | None => false
  end.

(** The answer of [executeTrade] and the requests it made, in order. *)
Definition executeTrade (l : t) (signal : Signal.t) (symbol : String.string)
  (tradeAmount : Q) (answers : Answers) : bool * list Request :=
  if negb (isActive l) then (false, [])
  else
    match Signal.type signal with
    | BUY => (filled (buyStatus answers), [MarketBuy symbol tradeAmount])
    | SELL =>
        match balances answers with
        | None => (false, [GetAccountBalance])
        | Some balances =>
            let baseAsset :=
              removeFirst "BUSD" (removeFirst "USDT" symbol) in
            match find (fun b => String.eqb (asset b) baseAsset) balances with
            | Some assetBalance =>
                if positiveFree assetBalance then
                  match parseFloat (free assetBalance) with
                  | Some quantity =>
                      (filled (sellStatus answers),
                       [GetAccountBalance; MarketSell symbol quantity])
                  | None => (false, [GetAccountBalance])
                  end
                else (false, [GetAccountBalance])
            | None => (false, [GetAccountBalance])
            end
        end
    | HOLD => (false, [])
    end.

End WithParseFloat.

End LiveTrader.

(** ** The trading bot ([TradingBot.ts])

    The timer with [getIntervalMs], the clock that paces the status lines
    and the status lines themselves are not modelled.  What the exchange
    returns to a call is an argument of the method that makes the call. *)

Module TradingBot.

(** The configuration without its strategy, which the bot mutates and the
    model keeps in the state of the bot. *)
Record BotConfig := mkConfig {
  symbol : String.string;
  interval : String.string;
  tradeAmount : Q;
  demoMode : bool;
  maxLossPercent : Q;
  stopLossPercent : Q
}.

Record t := mk {
  config : BotConfig;
  strategy : AnyStrategy;
  demoTrader : DemoTrader.t;
  liveTrader : LiveTrader.t;
  isRunning : bool;
  candleHistory : list Candle.t
}.

(** [new TradingBot(config, binanceClient)] *)
Definition create (config : BotConfig) (strategy : AnyStrategy) : t :=
  mk config strategy (DemoTrader.create (tradeAmount config))
     LiveTrader.create false [].

(** [start()], given what [getHistoricalKlines] returns for the last 200
    candles; [None] when that call throws, and [start] with it, before
    anything is written. *)
Definition start (bot : t) (klines : option (list Candle.t)) : option t :=
  if isRunning bot then Some bot
  else
    match klines with
    | None => None
    | Some history =>
        Some (mk (config bot) (strategy bot) (demoTrader bot)
                 (liveTrader bot) true history)
    end.

Definition stop (bot : t) : t :=
  if negb (isRunning bot) then bot
  else mk (config bot) (strategy bot) (demoTrader bot) (liveTrader bot)
          false (candleHistory bot).

(** [signal.type !== "HOLD" && signal.confidence > 0.3] *)
Definition shouldTrade (signal : Signal.t) : bool :=
  negb (SignalType_eqb (Signal.type signal) HOLD)
  && Num.gt (Signal.confidence signal) 0.3.

Section WithOutside.

Variable sqrt : Q -> Q.
Variable parseFloat : String.string -> option Q.

(** One turn of [tradingLoop]: [latestCandles] is what
    [getHistoricalKlines] returns for the last candle ([None] when it
    throws), [now] the reading of the clock that stamps a paper trade,
    [answers] what the exchange answers to the live trader.  The result is
    the bot and the requests made to the exchange for orders.  Whatever
    throws is caught by the loop, which keeps what was written before. *)
Definition tradingLoop (bot : t) (latestCandles : option (list Candle.t))
  (now : Z) (answers : LiveTrader.Answers) : t * list LiveTrader.Request :=
  match latestCandles with
  | None => (bot, [])
  | Some [] => (bot, [])
  | Some (latestCandle :: _) =>
      let history := candleHistory bot ++ [latestCandle] in
      match anyAnalyze sqrt (strategy bot) history with
      | None =>
          (mk (config bot) (strategy bot) (demoTrader bot) (liveTrader bot)
              (isRunning bot) history,
           [])
      | Some (signal, strategy') =>
          if shouldTrade signal then
            if demoMode (config bot) then
              (mk (config bot) strategy'
                  (snd (DemoTrader.executeTrade (demoTrader bot) signal
                          (symbol (config bot)) (Signal.price signal) now))
                  (liveTrader bot) (isRunning bot) history,
               [])
            else
              (mk (config bot) strategy' (demoTrader bot) (liveTrader bot)
                  (isRunning bot) history,
               snd (LiveTrader.executeTrade parseFloat (liveTrader bot)
                      signal (symbol (config bot))
                      (tradeAmount (config bot)) answers))
          else
            (mk (config bot) strategy' (demoTrader bot) (liveTrader bot)
                (isRunning bot) history,
             [])
      end
  end.

End WithOutside.

Definition activateLiveTrading (bot : t) : t :=
  if negb (demoMode (config bot))
  then mk (config bot) (strategy bot) (demoTrader bot)
          (LiveTrader.activate (liveTrader bot)) (isRunning bot)
          (candleHistory bot)
  else bot.

Definition deactivateLiveTrading (bot : t) : t :=
  mk (config bot) (strategy bot) (demoTrader bot)
     (LiveTrader.deactivate (liveTrader bot)) (isRunning bot)
     (candleHistory bot).

End TradingBot.
(** * The arithmetic of the code: binary64

    A JavaScript [number] is an IEEE-754 binary64 value.  The functions
    whose results depend on rounding, on overflow, on a division by zero or
    on a period that is not a natural number are embedded a second time in
    this module, over the primitive floats of the kernel ([PrimFloat], whose
    [+ - * /], [sqrt] and comparisons are those of binary64 with rounding
    to nearest even): the backtester, and the three strategies whose
    confidence is computed (moving average crossover, RSI, Bollinger
    bands).  Here every parameter of a constructor is a [number] as in the
    TypeScript source: a period may be negative, fractional, an infinity or
    NaN. *)

Module Binary64.
Import PrimFloat SpecFloat FloatOps.

Local Open Scope float_scope.

(** ** JavaScript operators on numbers *)

Module Num.

Definition lt (x y : float) : bool := x <? y.
Definition gt (x y : float) : bool := y <? x.
Definition le (x y : float) : bool := x <=? y.
Definition ge (x y : float) : bool := y <=? x.

(** [x === y] on two numbers: false on NaN, true on [+0] and [-0]. *)
Definition eq (x y : float) : bool := x =? y.

Definition isNaN (x : float) : bool := is_nan x.

(** [Math.min] and [Math.max]: NaN when an argument is NaN, and [-0] is
    below [+0]. *)
Definition min (x y : float) : float :=
  if isNaN x || isNaN y then nan
  else if lt x y then x
  else if lt y x then y
  else if get_sign x then x else y.

Definition max (x y : float) : float :=
  if isNaN x || isNaN y then nan
  else if lt x y then y
  else if lt y x then x
  else if get_sign x then y else x.

Definition abs (x : float) : float := PrimFloat.abs x.

(** The truth value of a number, for [x || y]: [0], [-0] and NaN are
    falsy. *)
Definition truthy (x : float) : bool := negb (isNaN x || eq x 0).

(** An array length or a counter used as a number: the binary64 value of
    the integer, which is the integer itself up to [2^53] (an array has
    fewer than [2^32] elements). *)
Definition ofNat (n : nat) : float :=
  of_uint63 (Uint63Axioms.of_Z (Z.of_nat n)).

(** [ToIntegerOrInfinity]: NaN and the zeros give 0, a finite number is
    truncated towards 0. *)
Inductive Integer := NegInfinity | Finite (z : Z) | PosInfinity.

Definition toIntegerOrInfinity (x : float) : Integer :=
  match Prim2SF x with
  | S754_nan | S754_zero _ => Finite 0
  | S754_infinity s => if s then NegInfinity else PosInfinity
  | S754_finite s m e =>
      Finite (cond_Zopp s
                (if (0 <=? e)%Z then Zpos m * 2 ^ e
                 else Zpos m / 2 ^ (- e))%Z)
  end.

(** The integer that a number is, when it is one. *)
Definition integerOf (x : float) : option Z :=
  match Prim2SF x with
  | S754_zero _ => Some 0%Z
  | S754_finite s m e =>
      if (0 <=? e)%Z then Some (cond_Zopp s (Zpos m * 2 ^ e))%Z
      else if (Zpos m mod 2 ^ (- e) =? 0)%Z
           then Some (cond_Zopp s (Zpos m / 2 ^ (- e)))%Z
           else None
  | S754_nan | S754_infinity _ => None
  end.

End Num.

(** ** Arrays indexed by numbers *)

(** The index that [slice] makes of an argument [k] on an array of [len]
    elements: [max(len + k, 0)] for a negative [k], [min(k, len)]
    otherwise. *)
Definition relativeIndex (len : nat) (k : Num.Integer) : nat :=
  match k with
  | Num.NegInfinity => 0%nat
  | Num.PosInfinity => len
  | Num.Finite z =>
      Z.to_nat (if (z <? 0)%Z then Z.max (Z.of_nat len + z) 0
                else Z.min z (Z.of_nat len))
  end.

(** [a.slice(start, end)] *)
Definition slice {A} (start finish : Num.Integer) (a : list A) : list A :=
  let from := relativeIndex (length a) start in
  let final := relativeIndex (length a) finish in
  firstn (final - from) (skipn from a).

(** [a.slice(-n)] *)
Definition sliceLast {A} (n : float) (a : list A) : list A :=
  slice (Num.toIntegerOrInfinity (- n)) Num.PosInfinity a.

(** [a.slice(0, n)] *)
Definition slicePrefix {A} (n : float) (a : list A) : list A :=
  slice (Num.Finite 0) (Num.toIntegerOrInfinity n) a.

(** ** Data model ([Strategy.ts], [Backtester.ts]) *)

Module Candle.

Record t := mk {
  timestamp : Z;
  open : float;
  high : float;
  low : float;
  close : float;
  volume : float
}.

End Candle.

Module Signal.

Record t := mk {
  type : SignalType;
  price : float;
  timestamp : Z;
  confidence : float
}.

End Signal.

Module Trade.

Record t := mk {
  type : TradeType;
  price : float;
  timestamp : Z;
  quantity : float
}.

End Trade.

Record BacktestResult := mkResult {
  totalTrades : nat;
  winningTrades : nat;
  losingTrades : nat;
  winRate : float;
  totalReturn : float;
  maxDrawdown : float;
  sharpeRatio : float;
  resultTrades : list Trade.t
}.

(** [a.reduce((acc, x) => acc + f(x), 0)] *)
Definition sumOf {A} (f : A -> float) (a : list A) : float :=
  fold_left (fun acc x => acc + f x) a 0.

(** [getParameters().longPeriod] is a number or [undefined]; [analyze]
    returns the signal and the mutated instance, or [None] when the call
    throws. *)
Class Strategy (St : Type) := {
  longPeriod : St -> option float;
  analyze : St -> list Candle.t -> option (Signal.t * St)
}.

Definition holdSignal (c : Candle.t) : Signal.t :=
  Signal.mk HOLD (Candle.close c) (Candle.timestamp c) 0.

(** ** Moving average crossover *)

Module MovingAverageCrossover.

Record t := mk {
  shortPeriod : float;
  longPeriod : float;
  lastSignal : SignalType
}.

Definition create (shortPeriod longPeriod : float) : t :=
  mk shortPeriod longPeriod HOLD.

Definition withLastSignal (s : t) (x : SignalType) : t :=
  mk (shortPeriod s) (longPeriod s) x.

Definition calculateMA (candles : list Candle.t) (period : float) : float :=
  if Num.lt (Num.ofNat (length candles)) period then 0
  else sumOf Candle.close (sliceLast period candles) / period.

Definition crossConfidence (currentSpread : float) : float :=
  Num.max 0.5 (Num.min 0.9 (Num.abs currentSpread * 50)).

(** On an empty window [candles[candles.length - 1]] is [undefined] and
    reading its [close] throws, in the warm-up answer or in the answer at
    the end. *)
Definition analyze (s : t) (candles : list Candle.t)
  : option (Signal.t * t) :=
  match lastOf candles with
  | None => None
  | Some currentCandle =>
      if Num.lt (Num.ofNat (length candles)) (longPeriod s)
      then Some (holdSignal currentCandle, s)
      else
        let shortMA := calculateMA candles (shortPeriod s) in
        let longMA := calculateMA candles (longPeriod s) in
        let prevCandles := dropLast candles in
        let prevShortMA := calculateMA prevCandles (shortPeriod s) in
        let prevLongMA := calculateMA prevCandles (longPeriod s) in
        let currentSpread := (shortMA - longMA) / longMA in
        if Num.le prevShortMA prevLongMA && Num.gt shortMA longMA
           && differs (lastSignal s) BUY
        then Some (Signal.mk BUY (Candle.close currentCandle)
                             (Candle.timestamp currentCandle)
                             (crossConfidence currentSpread),
                   withLastSignal s BUY)
        else if Num.ge prevShortMA prevLongMA && Num.lt shortMA longMA
                && differs (lastSignal s) SELL
        then Some (Signal.mk SELL (Candle.close currentCandle)
                             (Candle.timestamp currentCandle)
                             (crossConfidence currentSpread),
                   withLastSignal s SELL)
        else Some (Signal.mk HOLD (Candle.close currentCandle)
                             (Candle.timestamp currentCandle) 0, s)
  end.

End MovingAverageCrossover.

#[export] Instance MovingAverageCrossover_Strategy
  : Strategy MovingAverageCrossover.t := {
  longPeriod s := Some (MovingAverageCrossover.longPeriod s);
  analyze := MovingAverageCrossover.analyze
}.

(** ** RSI *)

Module RSIStrategy.

Record t := mk {
  period : float;
  oversoldThreshold : float;
  overboughtThreshold : float;
  lastSignal : SignalType
}.

Definition create (period oversold overbought : float) : t :=
  mk period oversold overbought HOLD.

Definition withLastSignal (s : t) (x : SignalType) : t :=
  mk (period s) (oversoldThreshold s) (overboughtThreshold s) x.

(** [changes.push(candles[i].close - candles[i - 1].close)] for
    [i = 1 .. candles.length - 1] *)
Fixpoint closeChanges (candles : list Candle.t) : list float :=
  match candles with
  | a :: (b :: _) as rest =>
      (Candle.close b - Candle.close a) :: closeChanges rest
  | _ => []
  end.

(** The accumulation loop over [recentChanges]: the pair is
    [(gains, losses)]. *)
Definition gainsLosses (recentChanges : list float) : float * float :=
  fold_left
    (fun acc change =>
       if Num.gt change 0
       then (fst acc + change, snd acc)
       else (fst acc, snd acc + Num.abs change))
    recentChanges (0, 0).

Definition calculateRSI (s : t) (candles : list Candle.t) : float :=
  if Num.lt (Num.ofNat (length candles)) (period s + 1) then 50
  else
    let changes := closeChanges candles in
    let recentChanges := sliceLast (period s) changes in
    let '(gains, losses) := gainsLosses recentChanges in
    let avgGain := gains / period s in
    let avgLoss := losses / period s in
    if Num.eq avgLoss 0 then 100
    else
      let rs := avgGain / avgLoss in
      100 - 100 / (1 + rs).

Definition analyze (s : t) (candles : list Candle.t)
  : option (Signal.t * t) :=
  match lastOf candles with
  | None => None
  | Some currentCandle =>
      if Num.lt (Num.ofNat (length candles)) (period s + 1)
      then Some (holdSignal currentCandle, s)
      else
        let rsi := calculateRSI s candles in
        let prevRSI := calculateRSI s (dropLast candles) in
        if Num.le prevRSI (oversoldThreshold s)
           && Num.gt rsi (oversoldThreshold s)
           && differs (lastSignal s) BUY
        then Some (Signal.mk BUY (Candle.close currentCandle)
                     (Candle.timestamp currentCandle)
                     (Num.min 0.9
                        ((oversoldThreshold s - Num.min prevRSI 20) / 20)),
                   withLastSignal s BUY)
        else if Num.ge prevRSI (overboughtThreshold s)
                && Num.lt rsi (overboughtThreshold s)
                && differs (lastSignal s) SELL
        then Some (Signal.mk SELL (Candle.close currentCandle)
                     (Candle.timestamp currentCandle)
                     (Num.min 0.9
                        ((Num.max prevRSI 80 - overboughtThreshold s) / 20)),
                   withLastSignal s SELL)
        else Some (Signal.mk HOLD (Candle.close currentCandle)
                     (Candle.timestamp currentCandle) 0, s)
  end.

End RSIStrategy.

#[export] Instance RSIStrategy_Strategy : Strategy RSIStrategy.t := {
  longPeriod _ := None;
  analyze := RSIStrategy.analyze
}.

(** ** Bollinger bands *)

Module BollingerBandsStrategy.

Record t := mk {
  period : float;
  standardDeviations : float;
  lastSignal : SignalType
}.

Definition create (period standardDeviations : float) : t :=
  mk period standardDeviations HOLD.

Definition withLastSignal (s : t) (x : SignalType) : t :=
  mk (period s) (standardDeviations s) x.

Record Bands := mkBands {
  upperBand : float;
  lowerBand : float;
  middleBand : float
}.

Section WithPow.

(** [Math.pow(x, 2)], which ECMAScript leaves to the implementation: the
    strategy is a function of it.  ([Math.sqrt] is the binary64 square
    root.) *)
Variable square : float -> float.

Definition calculateBollingerBands (s : t) (candles : list Candle.t) : Bands :=
  let recentCandles := sliceLast (period s) candles in
  let middleBand := sumOf Candle.close recentCandles / period s in
  let variance :=
    fold_left (fun sum candle => sum + square (Candle.close candle - middleBand))
              recentCandles 0
    / period s in
  let standardDeviation := sqrt variance in
  mkBands (middleBand + standardDeviation * standardDeviations s)
          (middleBand - standardDeviation * standardDeviations s)
          middleBand.

Definition analyze (s : t) (candles : list Candle.t)
  : option (Signal.t * t) :=
  match lastOf candles with
  | None => None
  | Some currentCandle =>
      if Num.lt (Num.ofNat (length candles)) (period s)
      then Some (holdSignal currentCandle, s)
      else
        let bands := calculateBollingerBands s candles in
        let price := Candle.close currentCandle in
        if Num.le price (lowerBand bands) && differs (lastSignal s) BUY
        then Some (Signal.mk BUY (Candle.close currentCandle)
                     (Candle.timestamp currentCandle)
                     (Num.min 0.9
                        (((lowerBand bands - price) / lowerBand bands) * 10)),
                   withLastSignal s BUY)
        else if Num.ge price (upperBand bands) && differs (lastSignal s) SELL
        then Some (Signal.mk SELL (Candle.close currentCandle)
                     (Candle.timestamp currentCandle)
                     (Num.min 0.9
                        (((price - upperBand bands) / upperBand bands) * 10)),
                   withLastSignal s SELL)
        else Some (Signal.mk HOLD (Candle.close currentCandle)
                     (Candle.timestamp currentCandle) 0, s)
  end.

End WithPow.

End BollingerBandsStrategy.

(** ** The backtester *)

Module Backtester.

Record t := mk {
  initialBalance : float;
  currentBalance : float;
  position : float;
  trades : list Trade.t;
  maxBalance : float
}.

Definition create (initial : float) : t :=
  mk initial initial 0 [] initial.

Definition reset (b : t) : t :=
  mk (initialBalance b) (initialBalance b) 0 [] (initialBalance b).

(** [executeSignal(signal, candle)] never reads [candle], which is
    [undefined] when the loop index is not an index of the array. *)
Definition executeSignal (signal : Signal.t) (candle : option Candle.t)
  (b : t) : t :=
  let price := Signal.price signal in
  if SignalType_eqb (Signal.type signal) BUY
     && Num.gt (currentBalance b) 100
     && Num.eq (position b) 0
  then
    let quantity := (currentBalance b * 0.95) / price in
    mk (initialBalance b)
       (currentBalance b * 0.05)
       quantity
       (trades b
        ++ [Trade.mk TradeBUY price (Signal.timestamp signal) quantity])
       (maxBalance b)
  else if SignalType_eqb (Signal.type signal) SELL && Num.gt (position b) 0
  then
    let saleValue := position b * price in
    let balance := currentBalance b + saleValue in
    mk (initialBalance b)
       balance
       0
       (trades b ++ [Trade.mk TradeSELL price (Signal.timestamp signal)
                              (position b)])
       (Num.max (maxBalance b) balance)
  else b.

Definition getTotalValue (b : t) (currentPrice : float) : float :=
  currentBalance b + position b * currentPrice.

Definition isBuy (t : Trade.t) : bool :=
  match Trade.type t with TradeBUY => true | TradeSELL => false end.

Definition isSell (t : Trade.t) : bool :=
  match Trade.type t with TradeSELL => true | TradeBUY => false end.

Fixpoint countPairs (buys sells : list Trade.t) (winning losing : nat)
  : nat * nat :=
  match buys, sells with
  | b :: buys', s :: sells' =>
      if Num.gt (Trade.price s) (Trade.price b)
      then countPairs buys' sells' (S winning) losing
      else countPairs buys' sells' winning (S losing)
  | _, _ => (winning, losing)
  end.

Definition calculateResults (b : t) : BacktestResult :=
  let buyTrades := filter isBuy (trades b) in
  let sellTrades := filter isSell (trades b) in
  let '(winning, losing) := countPairs buyTrades sellTrades 0 0 in
  let totalReturn :=
    ((currentBalance b - initialBalance b) / initialBalance b) * 100 in
  let maxDrawdown :=
    ((maxBalance b - currentBalance b) / maxBalance b) * 100 in
  let winRate :=
    if (0 <? length buyTrades)%nat
    then (Num.ofNat winning / Num.ofNat (length buyTrades)) * 100
    else 0 in
  mkResult (length buyTrades) winning losing winRate totalReturn maxDrawdown
           0 (trades b).

(** The loop variable [i] of [backtest] is a number.  While it is an
    integer of magnitude at most [2^53] it is kept as that integer, which
    [i++] increments exactly below [2^53]; any other value is kept as the
    binary64 number it is. *)
Inductive Index :=
| Integral (z : Z)
| Inexact (x : float).

Definition maxSafeInteger : Z := 2 ^ 53.

Definition indexOf (x : float) : Index :=
  match Num.integerOf x with
  | Some z => if (Z.abs z <=? maxSafeInteger)%Z then Integral z else Inexact x
  | None => Inexact x
  end.

(** [i++] *)
Definition next (i : Index) : Index :=
  match i with
  | Integral z => if (z <? maxSafeInteger)%Z then Integral (z + 1) else i
  | Inexact x => indexOf (x + 1)
  end.

(** [i < candles.length] *)
Definition below (i : Index) (len : nat) : bool :=
  match i with
  | Integral z => (z <? Z.of_nat len)%Z
  | Inexact x => Num.lt x (Num.ofNat len)
  end.

(** [candles.slice(0, i + 1)] *)
Definition windowAt {A} (i : Index) (candles : list A) : list A :=
  match i with
  | Integral z => slice (Num.Finite 0) (Num.Finite (z + 1)) candles
  | Inexact x => slicePrefix (x + 1) candles
  end.

(** [candles[i]]: [undefined] unless [i] is an index of the array. *)
Definition candleAt {A} (i : Index) (candles : list A) : option A :=
  match i with
  | Integral z =>
      if (0 <=? z)%Z then nth_error candles (Z.to_nat z) else None
  | Inexact _ => None
  end.

(** [i % 200 === 0]: [i] is an integer that 200 divides. *)
Definition isProgressIndex (i : Index) : bool :=
  match i with
  | Integral z => (z mod 200 =? 0)%Z
  | Inexact x =>
      match Num.integerOf x with
      | Some z => (z mod 200 =? 0)%Z
      | None => false
      end
  end.

Section Backtest.

Context {St : Type} `{Strategy St}.

(** [strategy.getParameters().longPeriod || 20] *)
Definition startIndex (strategy : St) : float :=
  match longPeriod strategy with
  | Some p => if Num.truthy p then p else 20
  | None => 20
  end.

(** [signal.type !== "HOLD" && signal.confidence > 0.1] *)
Definition shouldExecute (signal : Signal.t) : bool :=
  negb (SignalType_eqb (Signal.type signal) HOLD)
  && Num.gt (Signal.confidence signal) 0.1.

(** The body of the simulation loop at [i].  The progress report, every 200
    candles, reads [candles[i].close] and throws when [candles[i]] is
    [undefined]. *)
Definition loopBody (candles : list Candle.t) (i : Index) (st : St * t)
  : option (St * t) :=
  match analyze (fst st) (windowAt i candles) with
  | None => None
  | Some (signal, strategy') =>
      let b' :=
        if shouldExecute signal
        then executeSignal signal (candleAt i candles) (snd st)
        else snd st in
      if isProgressIndex i
      then match candleAt i candles with
           | Some _ => Some (strategy', b')
           | None => None
           end
      else Some (strategy', b')
  end.

(** [for (let i = ...; i < candles.length; i++)], entered at [i]; [fuel]
    bounds the number of iterations still allowed, and a loop that runs out
    of it does not return. *)
Fixpoint loopFrom (fuel : nat) (candles : list Candle.t) (i : Index)
  (st : St * t) : option (St * t) :=
  if below i (length candles) then
    match fuel with
    | O => None
    | S fuel' =>
        match loopBody candles i st with
        | None => None
        | Some st' => loopFrom fuel' candles (next i) st'
        end
    end
  else Some st.

(** The number of iterations that brings [i] to [len].  An integral [i]
    needs [len - i] of them.  A number with a fractional part advances by
    more than 1/2 at each [i++], and one beyond [2^53] that is below [len]
    never advances: the loop does not return, whatever the fuel. *)
Definition iterations (i : Index) (len : nat) : nat :=
  match i with
  | Integral z => Z.to_nat (Z.of_nat len - z)
  | Inexact x =>
      match Num.toIntegerOrInfinity x with
      | Num.Finite z =>
          if (Z.abs z <=? maxSafeInteger)%Z
          then 2 * Z.to_nat (Z.of_nat len - z) + 2
          else 0
      | _ => 0
      end
  end.

(** "Close any remaining position" *)
Definition closeRemaining (candles : list Candle.t) (b : t) : option t :=
  if Num.gt (position b) 0 then
    match lastOf candles with
    | Some lastCandle =>
        Some (executeSignal
                (Signal.mk SELL (Candle.close lastCandle)
                           (Candle.timestamp lastCandle) 1)
                (Some lastCandle) b)
    | None => None
    end
  else Some b.

(** [backtest]: the result together with the final state of the backtester
    and of the strategy instance, or [None] when the call does not
    return. *)
Definition backtest (b : t) (strategy : St) (candles : list Candle.t)
  : option (BacktestResult * t * St) :=
  let start := indexOf (startIndex strategy) in
  match loopFrom (iterations start (length candles)) candles start
                 (strategy, reset b) with
  | None => None
  | Some (strategy', b') =>
      match closeRemaining candles b' with
      | None => None
      | Some b'' => Some (calculateResults b'', b'', strategy')
      end
  end.

End Backtest.

End Backtester.

End Binary64.

(** ** The backtester's contract, in the specification's words *)

Module BacktesterSpec.
Import Backtester.

(** What an accepted BUY leaves behind: 95% of the balance invested at the
    signal price, 5% kept as cash, the trade recorded. *)
Definition afterBuy (signal : Signal.t) (b : t) : t :=
  let quantity := currentBalance b * 0.95 / Signal.price signal in
  mk (initialBalance b)
     (currentBalance b * 0.05)
     quantity
     (trades b
      ++ [Trade.mk TradeBUY (Signal.price signal) (Signal.timestamp signal)
                   quantity])
     (maxBalance b).

(** What an accepted SELL leaves behind: the whole position sold at the
    signal price, the trade recorded, the high-water mark raised. *)
Definition afterSell (signal : Signal.t) (b : t) : t :=
  let balance := currentBalance b + position b * Signal.price signal in
  mk (initialBalance b)
     balance
     0
     (trades b
      ++ [Trade.mk TradeSELL (Signal.price signal) (Signal.timestamp signal)
                   (position b)])
     (Num.max (maxBalance b) balance).

(** "BUY accepted only if cash balance > 100 and current position == 0" *)
Definition buyAccepted (signal : Signal.t) (b : t) : Prop :=
  Signal.type signal = BUY /\ 100 < currentBalance b /\ position b == 0.

(** "SELL accepted only if position > 0" *)
Definition sellAccepted (signal : Signal.t) (b : t) : Prop :=
  Signal.type signal = SELL /\ 0 < position b.

(** Every recorded BUY was made at a strictly positive price. *)
Definition buysAtPositivePrice (ledger : list Trade.t) : Prop :=
  Forall (fun tr => isBuy tr = true -> 0 < Trade.price tr) ledger.

(** The index-paired trades: the i-th BUY with the i-th SELL. *)
Definition tradePairs (ledger : list Trade.t) : list (Trade.t * Trade.t) :=
  combine (filter isBuy ledger) (filter isSell ledger).

Definition isWin (pair : Trade.t * Trade.t) : bool :=
  Num.gt (Trade.price (snd pair)) (Trade.price (fst pair)).

(** The number of pairs whose sell price is strictly greater than the buy
    price. *)
Definition pairedWins (ledger : list Trade.t) : nat :=
  length (filter isWin (tradePairs ledger)).

(** "winRate = fraction of index-paired trades where sell price > buy
    price" *)
Definition winFraction (ledger : list Trade.t) : Q :=
  Num.ofNat (pairedWins ledger) / Num.ofNat (length (tradePairs ledger)).

(** The high-water mark replayed from the ledger: it starts at the initial
    balance and moves only at a SELL, to the balance that SELL leaves when
    that is larger.  The accumulator is [(balance, peak)]. *)
Definition replayStep (acc : Q * Q) (tr : Trade.t) : Q * Q :=
  match Trade.type tr with
  | TradeBUY => (fst acc * 0.05, snd acc)
  | TradeSELL =>
      let balance := fst acc + Trade.quantity tr * Trade.price tr in
      (balance, Num.max (snd acc) balance)
  end.

Definition replay (initial : Q) (ledger : list Trade.t) : Q * Q :=
  fold_left replayStep ledger (initial, initial).

Definition peakAtSells (initial : Q) (ledger : list Trade.t) : Q :=
  snd (replay initial ledger).

(** The code's win rate: a percentage of the number of BUY trades, 0 when
    there is none. *)
Definition winPercentage (ledger : list Trade.t) : Q :=
  if (0 <? length (filter isBuy ledger))%nat
  then Num.ofNat (pairedWins ledger)
       / Num.ofNat (length (filter isBuy ledger)) * 100
  else 0.

(** The balance and the high-water mark are those replayed from the
    ledger. *)
Definition replayed (b : t) : Prop :=
  (currentBalance b, maxBalance b) = replay (initialBalance b) (trades b).

Section Loop.

Context {St : Type} `{Strategy St}.

(** "the strategy's declared long-period parameter if exposed, else a flat
    default of 20" *)
Definition declaredStart (strategy : St) : nat :=
  match longPeriod strategy with
  | Some p => p
  | None => 20%nat
  end.

(** "feed the strategy the prefix [candles[0..i]]; if the returned Signal is
    not HOLD and confidence > 0.1, execute it" *)
Definition stepAt (candles : list Candle.t) (acc : option (St * t)) (i : nat)
  : option (St * t) :=
  match acc with
  | None => None
  | Some (strategy, b) =>
      match analyze strategy (firstn (i + 1) candles), nth_error candles i with
      | Some (signal, strategy'), Some candle =>
          match Signal.type signal with
          | HOLD => Some (strategy', b)
          | _ =>
              if Qlt_le_dec 0.1 (Signal.confidence signal)
              then Some (strategy', executeSignal signal candle b)
              else Some (strategy', b)
          end
      | _, _ => None
      end
  end.

(** "For each index i from start to end" *)
Definition stepsFrom (candles : list Candle.t) (start : nat) (st : St * t)
  : option (St * t) :=
  fold_left (stepAt candles) (seq start (length candles - start)) (Some st).

End Loop.

End BacktesterSpec.

(** ** The strategies' contract, in the specification's words *)

Module StrategySpec.

(** The minimum lookback of each strategy: "longPeriod for the crossover;
    period+1 for RSI; period for Bollinger; slowPeriod+signalPeriod+5 for
    MACD; max(rsiPeriod, maLongPeriod)+5 for the combo; volatilityPeriod+5
    for scalping". *)
Definition minimumLookback (s : AnyStrategy) : nat :=
  match s with
  | Crossover s => MovingAverageCrossover.longPeriod s
  | Rsi s => RSIStrategy.period s + 1
  | Bollinger s => BollingerBandsStrategy.period s
  | Macd s => MACDStrategy.slowPeriod s + MACDStrategy.signalPeriod s + 5
  | Combo s =>
      Nat.max (RSI_MA_ComboStrategy.rsiPeriod s)
              (RSI_MA_ComboStrategy.maLongPeriod s) + 5
  | Scalping s => ScalpingStrategy.volatilityPeriod s + 5
  end.

(** The latch of the five strategies that have one: their [lastSignal]
    field. *)
Definition latchOf (s : AnyStrategy) : option SignalType :=
  match s with
  | Crossover s => Some (MovingAverageCrossover.lastSignal s)
  | Rsi s => Some (RSIStrategy.lastSignal s)
  | Bollinger s => Some (BollingerBandsStrategy.lastSignal s)
  | Macd s => Some (MACDStrategy.lastSignal s)
  | Combo s => Some (RSI_MA_ComboStrategy.lastSignal s)
  | Scalping _ => None
  end.

(** The types of the signals that are not HOLD, in order. *)
Fixpoint firedTypes (signals : list (option Signal.t)) : list SignalType :=
  match signals with
  | [] => []
  | Some signal :: rest =>
      match Signal.type signal with
      | HOLD => firedTypes rest
      | type => type :: firedTypes rest
      end
  | None :: rest => firedTypes rest
  end.

(** No two neighbours of the list are the same type, the first one being
    compared with [previous]. *)
Fixpoint alternatesAfter (previous : SignalType) (types : list SignalType)
  : Prop :=
  match types with
  | [] => True
  | type :: rest => type <> previous /\ alternatesAfter type rest
  end.

(** "two consecutive non-HOLD signals of the same type never occur" *)
Definition alternates (types : list SignalType) : Prop :=
  match types with
  | [] => True
  | type :: rest => alternatesAfter type rest
  end.

(** "confidence in [0,1]" *)
Definition inUnitInterval (x : Q) : Prop := 0 <= x <= 1.

(** One call against a latch: a HOLD leaves it, any other signal differs
    from it and replaces it. *)
Definition latchStep (before : SignalType) (signal : Signal.t)
  (after : SignalType) : Prop :=
  (Signal.type signal = HOLD /\ after = before)
  \/ (Signal.type signal <> HOLD /\ Signal.type signal <> before
      /\ after = Signal.type signal).

(** The instances whose [analyze] never throws on a non-empty window: all
    but a MACD strategy with a fast or slow period of 0, whose
    [calculateEMA] reads [candles[candles.length]]. *)
Definition answers (s : AnyStrategy) : Prop :=
  match s with
  | Macd s =>
      (0 < MACDStrategy.fastPeriod s)%nat /\ (0 < MACDStrategy.slowPeriod s)%nat
  | _ => True
  end.

(** The constructor calls of the six classes, with their arguments. *)
Inductive Config :=
| NewCrossover (shortPeriod longPeriod : nat)
| NewRsi (period : nat) (oversold overbought : Q)
| NewBollinger (period : nat) (standardDeviations : Q)
| NewMacd (fastPeriod slowPeriod signalPeriod : nat)
| NewCombo (rsiPeriod : nat) (rsiOversold rsiOverbought : Q)
           (maShortPeriod maLongPeriod : nat)
| NewScalping (spreadThreshold volumeThreshold quickProfitTarget : Q)
              (maxHoldTime volatilityPeriod : nat) (minVolatility : Q).

(** A freshly constructed instance. *)
Definition construct (config : Config) : AnyStrategy :=
  match config with
  | NewCrossover short long =>
      Crossover (MovingAverageCrossover.create short long)
  | NewRsi period oversold overbought =>
      Rsi (RSIStrategy.create period oversold overbought)
  | NewBollinger period k =>
      Bollinger (BollingerBandsStrategy.create period k)
  | NewMacd fast slow signal => Macd (MACDStrategy.create fast slow signal)
  | NewCombo rsiPeriod oversold overbought maShort maLong =>
      Combo (RSI_MA_ComboStrategy.create rsiPeriod oversold overbought
               maShort maLong)
  | NewScalping spread volume target maxHold volatilityPeriod minVolatility =>
      Scalping (ScalpingStrategy.create spread volume target maxHold
                  volatilityPeriod minVolatility)
  end.

(** The signals of one instance of the closed set over its windows. *)
Fixpoint anySignalsOf (sqrt : Q -> Q) (s : AnyStrategy)
  (windows : list (list Candle.t)) : list (option Signal.t) :=
  match windows with
  | [] => []
  | w :: windows' =>
      match anyAnalyze sqrt s w with
      | Some (signal, s') => Some signal :: anySignalsOf sqrt s' windows'
      | None => None :: anySignalsOf sqrt s windows'
      end
  end.

End StrategySpec.

(** ** Runs used as examples *)

Module Examples.
Import StrategySpec.

(** A candle whose open, high, low and close are one price, on volume 1. *)
Definition flatCandle (timestamp : Z) (close : Q) : Candle.t :=
  Candle.mk timestamp close close close close 1.

(** A run with one winning round trip: the crossover with periods 1 and 2
    on the closes 3, 2, 4, 5 buys at 4 and is closed out at 5. *)
Definition risingCloses : list Candle.t :=
  [flatCandle 60000 3; flatCandle 120000 2; flatCandle 180000 4;
   flatCandle 240000 5].

(** Ten flat candles at 100, one minute apart. *)
Definition tenCandles : list Candle.t :=
  map (fun i => Candle.mk (60000 * Z.of_nat i) 100 100 100 100 1)
      (seq 1 10).

(** Three falling closes: with periods 1 and 3 the first window past the
    warm-up sells. *)
Definition fallingThree : list Candle.t :=
  [Candle.mk 60000 3 3 3 3 1; Candle.mk 120000 2 2 2 2 1;
   Candle.mk 180000 1 1 1 1 1].

(** Seventeen one-minute candles for the scalping strategy with its
    fallback parameters (volatility period 10, so a lookback of 15):
    fourteen flat ones at 100, then 101 on doubled volume, 102, and 100 on
    tripled volume. *)
Definition scalpCandles : list Candle.t :=
  map (fun i => Candle.mk (60000 * Z.of_nat i) 100 100 100 100 1) (seq 1 14)
  ++ [Candle.mk 900000 101 101 101 101 2;
      Candle.mk 960000 102 102 102 102 1;
      Candle.mk 1020000 100 100 100 100 3].

(** The crossover with periods 1 and 2 on the closes 3, 2, 4, 5, 1 buys at
    4 and sells at 1. *)
Definition upThenDown : list Candle.t :=
  risingCloses ++ [flatCandle 300000 1].

End Examples.

(** ** Shapes of ledgers and of signal sequences *)

Module LedgerShape.
Import Backtester.

(** Reading a ledger from the left: [Some None] while every BUY read so far
    has been sold again, [Some (Some buy)] while [buy] is open, [None] once
    a trade came out of turn or a SELL did not sell the quantity bought. *)
Definition tripStep (state : option (option Trade.t)) (tr : Trade.t)
  : option (option Trade.t) :=
  match state, Trade.type tr with
  | Some None, TradeBUY => Some (Some tr)
  | Some (Some buy), TradeSELL =>
      if Qeq_bool (Trade.quantity tr) (Trade.quantity buy)
      then Some None else None
  | _, _ => None
  end.

Definition tripsOf (ledger : list Trade.t) : option (option Trade.t) :=
  fold_left tripStep ledger (Some None).

(** Whether a BUY is open in a state of the reading. *)
Definition openCount (state : option (option Trade.t)) : nat :=
  match state with
  | Some (Some _) => 1
  | _ => 0
  end.

(** The ledger is a sequence of round trips: a BUY, then the SELL of the
    quantity bought, and so on, ending on a SELL. *)
Definition roundTrips (ledger : list Trade.t) : Prop :=
  tripsOf ledger = Some None.

(** Pairs of trades laid end to end. *)
Definition laidOut (pairs : list (Trade.t * Trade.t)) : list Trade.t :=
  flat_map (fun pair => [fst pair; snd pair]) pairs.

(** The loop invariant behind [roundTrips]: the position is the literal 0
    and the ledger is closed, or the last BUY is open and the position is
    its quantity, which is positive. *)
Definition closedOrOpen (b : t) : Prop :=
  (position b = 0 /\ tripsOf (trades b) = Some None)
  \/ (exists buy,
        tripsOf (trades b) = Some (Some buy)
        /\ position b = Trade.quantity buy /\ 0 < Trade.quantity buy).

End LedgerShape.

Module SignalShape.

(** The signal quotes the candle: its close as the price, its timestamp. *)
Definition quotes (signal : Signal.t) (c : Candle.t) : Prop :=
  Signal.price signal = Candle.close c
  /\ Signal.timestamp signal = Candle.timestamp c.

Definition opposite (type : SignalType) : SignalType :=
  match type with
  | BUY => SELL
  | SELL => BUY
  | HOLD => HOLD
  end.

(** The signals that are not HOLD come in pairs, an entry and then the
    exit of the opposite type; [entry] is the entry still to be answered. *)
Fixpoint pairsFrom (entry : option SignalType) (types : list SignalType)
  : Prop :=
  match types with
  | [] => True
  | type :: rest =>
      match entry with
      | None => type <> HOLD /\ pairsFrom (Some type) rest
      | Some entry => type = opposite entry /\ pairsFrom None rest
      end
  end.

Definition entryExitPairs (types : list SignalType) : Prop :=
  pairsFrom None types.

(** The entry that the position map of the scalping strategy stands for:
    a BUY opened a LONG, a SELL a SHORT. *)
Definition openEntry (s : ScalpingStrategy.t) : option SignalType :=
  match ScalpingStrategy.positions s with
  | [] => None
  | (ScalpingStrategy.LONG, _) :: _ => Some BUY
  | (ScalpingStrategy.SHORT, _) :: _ => Some SELL
  end.

(** The strategies whose confidence is one of a few constants: MACD, the
    RSI+MA combo and the scalping strategy.  The crossover, RSI and
    Bollinger compute theirs. *)
Definition confidentClass (s : AnyStrategy) : Prop :=
  match s with
  | Macd _ | Combo _ | Scalping _ => True
  | _ => False
  end.

(** A HOLD, or a confidence of at least 0.4. *)
Definition confident (signal : Signal.t) : Prop :=
  Signal.type signal = HOLD \/ 0.4 <= Signal.confidence signal.

(** The scalping instance after its calls on [windows]; a call that throws
    leaves the instance as it was. *)
Fixpoint scalpingAfter (s : ScalpingStrategy.t)
  (windows : list (list Candle.t)) : ScalpingStrategy.t :=
  match windows with
  | [] => s
  | w :: windows' =>
      match ScalpingStrategy.analyze s w with
      | Some (_, s') => scalpingAfter s' windows'
      | None => scalpingAfter s windows'
      end
  end.

(** What one call does to the open entry: nothing on HOLD, an entry when
    none is open, the opposite exit when one is. *)
Definition toggles (before : option SignalType) (signal : Signal.t)
  (after : option SignalType) : Prop :=
  (Signal.type signal = HOLD /\ after = before)
  \/ match before with
     | None => Signal.type signal <> HOLD /\ after = Some (Signal.type signal)
     | Some entry => Signal.type signal = opposite entry /\ after = None
     end.

End SignalShape.

(** ** Shapes of comparisons and of paper-trading sessions *)

Module ComparatorShape.
Import StrategyComparator.

(** [best] is the first element of [all] whose [key] is the largest: the
    elements before it have a strictly smaller key, those after it a key
    that is not larger. *)
Definition firstMaximumBy {A} (key : A -> Q) (best : A) (all : list A)
  : Prop :=
  exists before after,
    all = before ++ best :: after
    /\ Forall (fun x => key x < key best) before
    /\ Forall (fun x => key x <= key best) after.

Definition returnOf (c : StrategyComparison) : Q := totalReturn (results c).

Definition winRateOf (c : StrategyComparison) : Q := winRate (results c).

Definition tradesOf (c : StrategyComparison) : Q :=
  Num.ofNat (totalTrades (results c)).

(** The comparison is that of [strategy], tested alone with a new
    backtester. *)
Definition testedAlone (sqrt : Q -> Q) (initialBalance : Q)
  (candles : list Candle.t) (strategy : AnyStrategy)
  (comparison : StrategyComparison) : Prop :=
  strategyName comparison = getName strategy
  /\ parameters comparison = getParameters strategy
  /\ exists b' strategy',
       @Backtester.backtest AnyStrategy (AnyStrategy_Strategy sqrt)
         (Backtester.create initialBalance) strategy candles
       = Some (results comparison, b', strategy').

(** The comparison is that of the instance that [ref] names in [store],
    tested alone with a new backtester in the state it has in [store]. *)
Definition refTestedAlone (sqrt : Q -> Q) (initialBalance : Q)
  (candles : list Candle.t) (store : Store) (ref : nat)
  (comparison : StrategyComparison) : Prop :=
  exists strategy,
    deref store ref = Some strategy
    /\ testedAlone sqrt initialBalance candles strategy comparison.

End ComparatorShape.

Module DemoSession.
Import DemoTrader.

(** One call of [executeTrade]: the signal, the symbol, the price quoted
    and the reading of the clock. *)
Record Call := mkCall {
  callSignal : Signal.t;
  callSymbol : String.string;
  callPrice : Q;
  callTime : Z
}.

Definition step (d : t) (call : Call) : t :=
  snd (executeTrade d (callSignal call) (callSymbol call) (callPrice call)
                    (callTime call)).

(** The account after a sequence of calls. *)
Definition session (d : t) (calls : list Call) : t := fold_left step calls d.

(** The orders that go through: a BUY with at least 10 to invest, a SELL
    of a symbol held in a positive quantity. *)
Definition accepted (d : t) (signal : Signal.t) (symbol : String.string)
  : Prop :=
  (Signal.type signal = BUY /\ 10 <= balance d * 0.95)
  \/ (Signal.type signal = SELL
      /\ exists position,
           StringMap.get symbol (positions d) = Some position
           /\ 0 < DemoPosition.quantity position).

(** The cash replayed from the ledger, trade by trade in the order of the
    ledger and with the operations of the code: a BUY takes the value of
    the trade off the cash, a SELL adds it. *)
Definition cashStep (cash : Q) (tr : DemoTrade.t) : Q :=
  match DemoTrade.side tr with
  | TradeBUY => cash - DemoTrade.value tr
  | TradeSELL => cash + DemoTrade.value tr
  end.

Definition cashOf (initial : Q) (ledger : list DemoTrade.t) : Q :=
  fold_left cashStep ledger initial.

End DemoSession.

(** ** Shapes of generated data *)

Module SampleShape.

(** Each candle opens where the one before closed, the first at [price]. *)
Fixpoint chained (price : Q) (candles : list Candle.t) : Prop :=
  match candles with
  | [] => True
  | c :: rest => Candle.open c = price /\ chained (Candle.close c) rest
  end.

(** The candles are one hour apart, the first one [i] hours after
    [startTime]. *)
Fixpoint hourlyFrom (startTime : Z) (i : nat) (candles : list Candle.t)
  : Prop :=
  match candles with
  | [] => True
  | c :: rest =>
      Candle.timestamp c = (startTime + Z.of_nat i * 3600000)%Z
      /\ hourlyFrom startTime (S i) rest
  end.

End SampleShape.

(** ** Sessions of the bot *)

Module BotSession.
Import TradingBot.

(** What happens to a bot: the calls of its public methods, and the turns
    of its loop with what the outside world returns to them. *)
Inductive Event :=
| Start (klines : option (list Candle.t))
| Stop
| Turn (latestCandles : option (list Candle.t)) (now : Z)
       (answers : LiveTrader.Answers)
| Activate
| Deactivate.

Definition after (sqrt : Q -> Q) (parseFloat : String.string -> option Q)
  (bot : t) (event : Event) : t * list LiveTrader.Request :=
  match event with
  | Start klines =>
      match start bot klines with
      | Some bot' => (bot', [])
      | None => (bot, [])
      end
  | Stop => (stop bot, [])
  | Turn latestCandles now answers =>
      tradingLoop sqrt parseFloat bot latestCandles now answers
  | Activate => (activateLiveTrading bot, [])
  | Deactivate => (deactivateLiveTrading bot, [])
  end.

(** The bot after the events, and every request it made to the exchange
    for an order or a balance, in order. *)
Fixpoint run (sqrt : Q -> Q) (parseFloat : String.string -> option Q)
  (bot : t) (events : list Event) : t * list LiveTrader.Request :=
  match events with
  | [] => (bot, [])
  | event :: rest =>
      let '(bot', requests) := after sqrt parseFloat bot event in
      let '(bot'', more) := run sqrt parseFloat bot' rest in
      (bot'', requests ++ more)
  end.

End BotSession.

(** ** Further runs used as examples *)

Module MoreExamples.
Import DemoSession.

(** A bot on BTCUSDT with 100 to trade, in demo mode or not. *)
Definition botConfig (demoMode : bool) : TradingBot.BotConfig :=
  TradingBot.mkConfig "BTCUSDT" "5m" 100 demoMode 5 2.

(** An exchange on which every request for an order throws. *)
Definition noAnswers : LiveTrader.Answers :=
  LiveTrader.mkAnswers None None None.

(** The bot is started on the closes 3 and 2, live trading is switched on,
    and the loop then sees the close 4, on which the crossover with periods
    1 and 2 buys. *)
Definition botEvents : list BotSession.Event :=
  [BotSession.Start
     (Some [Examples.flatCandle 60000 3; Examples.flatCandle 120000 2]);
   BotSession.Activate;
   BotSession.Turn (Some [Examples.flatCandle 180000 4]) 180500 noAnswers].

End MoreExamples.
(** ** Properties of binary64 numbers and of the binary64 backtester, in the
    specification's words *)

Module FloatShape.
Import PrimFloat SpecFloat FloatOps.
Import Binary64.

(** The sign of a value is [s], or the value is NaN. *)
Definition signed (s : bool) (x : spec_float) : Prop :=
  match x with
  | S754_nan => True
  | S754_zero s' | S754_infinity s' | S754_finite s' _ _ => s' = s
  end.

(** A value that is not below 0: NaN, a zero of either sign, or a value
    whose sign bit is clear. *)
Definition unsigned (x : spec_float) : Prop :=
  match x with
  | S754_nan | S754_zero _ => True
  | S754_infinity s | S754_finite s _ _ => s = false
  end.

(** The number is NaN or its sign bit is clear: [+0], a positive number or
    [+Infinity]. *)
Definition plus (x : float) : Prop := signed false (Prim2SF x).

(** The number is NaN or is not below 0; [-0] is allowed. *)
Definition notNegative (x : float) : Prop := unsigned (Prim2SF x).



(** The number is NaN or lies in the closed interval from [lo] to [hi]. *)
Definition nanOrWithin (lo hi x : float) : Prop :=
  Num.isNaN x = true \/ (Num.le lo x = true /\ Num.le x hi = true).

(** "confidence in [0,1]", for a number that may be NaN. *)
Definition nanOrUnit (x : float) : Prop := nanOrWithin 0 1 x.

(** Every close of the window is strictly positive. *)
Definition positiveCloses (candles : list Candle.t) : Prop :=
  Forall (fun c => Num.lt 0 (Candle.close c) = true) candles.

End FloatShape.

(** ** What a rounded value is measured against *)

Module Rounding.
Import SpecFloat.

Local Open Scope Z_scope.

(** What a shifted mantissa stands for is at most [k]: the mantissa is
    below [k], or it is [k] and nothing was shifted out. *)
Definition below (mrs : shr_record) (k : Z) : Prop :=
  shr_m mrs < k \/ (shr_m mrs = k /\ shr_r mrs = false /\ shr_s mrs = false).



End Rounding.

Module Binary64Spec.
Import PrimFloat.
Import Binary64 Binary64.Backtester.

Local Open Scope float_scope.

(** The balance and the high-water mark replayed from the ledger, with the
    operations of the code in the order of the ledger: a BUY leaves 5% of
    the balance, a SELL adds quantity times price and raises the mark.  The
    accumulator is [(balance, peak)]. *)
Definition replayStep (acc : float * float) (tr : Trade.t) : float * float :=
  match Trade.type tr with
  | TradeBUY => (fst acc * 0.05, snd acc)
  | TradeSELL =>
      let balance := fst acc + Trade.quantity tr * Trade.price tr in
      (balance, Num.max (snd acc) balance)
  end.

Definition replay (initial : float) (ledger : list Trade.t) : float * float :=
  fold_left replayStep ledger (initial, initial).

(** "the sum of sell proceeds (quantity times price over recorded SELL
    trades)" and the sum of the costs of the recorded BUY trades, each
    added up in the order of the ledger. *)
Definition sellProceeds (ledger : list Trade.t) : float :=
  sumOf (fun tr => Trade.quantity tr * Trade.price tr)
        (filter isSell ledger).

Definition buyCosts (ledger : list Trade.t) : float :=
  sumOf (fun tr => Trade.quantity tr * Trade.price tr)
        (filter isBuy ledger).

(** "the 95% of balance invested on each recorded BUY", replayed from the
    ledger.  The accumulator is [(balance, invested)]. *)
Definition investStep (acc : float * float) (tr : Trade.t) : float * float :=
  match Trade.type tr with
  | TradeBUY => (fst acc * 0.05, snd acc + fst acc * 0.95)
  | TradeSELL => (fst acc + Trade.quantity tr * Trade.price tr, snd acc)
  end.

Definition invested (initial : float) (ledger : list Trade.t) : float :=
  snd (fold_left investStep ledger (initial, 0)).

(** Every recorded BUY bought a strictly positive quantity. *)
Definition buysOfPositiveQuantity (ledger : list Trade.t) : Prop :=
  Forall (fun tr => isBuy tr = true -> Num.gt (Trade.quantity tr) 0 = true)
         ledger.

(** The position is that of the ledger: nothing after a SELL or with no
    trade, the quantity bought after a BUY. *)
Definition positionOf (ledger : list Trade.t) : float :=
  match lastOf ledger with
  | Some tr => if isBuy tr then Trade.quantity tr else 0
  | None => 0
  end.

(** The balance and the high-water mark are those replayed from the
    ledger, and the position is that of the ledger. *)
Definition replayed (b : t) : Prop :=
  (currentBalance b, maxBalance b) = replay (initialBalance b) (trades b)
  /\ position b = positionOf (trades b).



Section Loop.

Context {St : Type} `{Strategy St}.

(** The start index of the loop for a strategy whose declared long period
    is absent, falsy ([0], [-0] or NaN) or a positive integer up to [2^53]:
    "the strategy's declared long-period parameter if exposed, else a flat
    default of 20".  No start index is promised for another declared
    period. *)
Definition declaredStart (strategy : St) : option nat :=
  match longPeriod strategy with
  | None => Some 20%nat
  | Some p =>
      if Num.truthy p then
        match Num.integerOf p with
        | Some z =>
            if ((0 <? z) && (z <=? maxSafeInteger))%Z
            then Some (Z.to_nat z) else None
        | None => None
        end
      else Some 20%nat
  end.

(** "feed the strategy the prefix [candles[0..i]]; if the returned Signal is
    not HOLD and confidence > 0.1, execute it" *)
Definition stepAt (candles : list Candle.t) (acc : option (St * t)) (i : nat)
  : option (St * t) :=
  match acc with
  | None => None
  | Some (strategy, b) =>
      match analyze strategy (firstn (i + 1) candles), nth_error candles i with
      | Some (signal, strategy'), Some candle =>
          match Signal.type signal with
          | HOLD => Some (strategy', b)
          | _ =>
              if Num.gt (Signal.confidence signal) 0.1
              then Some (strategy', executeSignal signal (Some candle) b)
              else Some (strategy', b)
          end
      | _, _ => None
      end
  end.

(** "For each index i from start to end" *)
Definition stepsFrom (candles : list Candle.t) (start : nat) (st : St * t)
  : option (St * t) :=
  fold_left (stepAt candles) (seq start (length candles - start)) (Some st).

End Loop.

End Binary64Spec.

(** ** Runs in binary64 used as examples *)

Module Binary64Examples.
Import PrimFloat.
Import Binary64.

Local Open Scope float_scope.

(** A candle whose open, high, low and close are one price, on volume 1. *)
Definition flatCandle (timestamp : Z) (close : float) : Candle.t :=
  Candle.mk timestamp close close close close 1.

(** One-minute candles with the given closes. *)
Definition closes (prices : list float) : list Candle.t :=
  map (fun p => flatCandle (60000 * Z.of_nat (fst p)) (snd p))
      (combine (seq 1 (length prices)) prices).

(** [Math.pow(x, 2)] computed as the product, as V8 does. *)
Definition square (x : float) : float := x * x.

#[export] Instance BollingerBands_Strategy
  : Strategy BollingerBandsStrategy.t := {
  longPeriod _ := None;
  analyze := BollingerBandsStrategy.analyze square
}.

End Binary64Examples.
(** * Facts about the comparison operators *)

Lemma SignalType_eqb_eq a b : SignalType_eqb a b = true <-> a = b.
Proof. destruct a, b; simpl; split; congruence. Qed.

Module NumFacts.
Import Num.

Lemma lt_true x y : lt x y = true <-> x < y.
Proof.
  unfold lt. rewrite negb_true_iff, <- not_true_iff_false, Qle_bool_iff.
  split; [apply Qnot_le_lt | apply Qlt_not_le].
Qed.

Lemma lt_false x y : lt x y = false <-> y <= x.
Proof.
  unfold lt. now rewrite negb_false_iff, Qle_bool_iff.
Qed.

Lemma gt_true x y : gt x y = true <-> y < x.
Proof. apply lt_true. Qed.

Lemma gt_false x y : gt x y = false <-> x <= y.
Proof. apply lt_false. Qed.

Lemma le_true x y : le x y = true <-> x <= y.
Proof. apply Qle_bool_iff. Qed.

Lemma le_false x y : le x y = false <-> y < x.
Proof.
  unfold le. rewrite <- not_true_iff_false, Qle_bool_iff.
  split; [apply Qnot_le_lt | apply Qlt_not_le].
Qed.

Lemma ge_true x y : ge x y = true <-> y <= x.
Proof. apply le_true. Qed.

Lemma ge_false x y : ge x y = false <-> x < y.
Proof. apply le_false. Qed.

Lemma eq_true x y : eq x y = true <-> x == y.
Proof. apply Qeq_bool_iff. Qed.

Lemma eq_false x y : eq x y = false <-> ~ x == y.
Proof.
  unfold eq. rewrite <- not_true_iff_false, Qeq_bool_iff. tauto.
Qed.

End NumFacts.

(** Turns every boolean comparison of the context and the goal whose value
    is known into the order fact it stands for. *)
Ltac num_facts :=
  repeat match goal with
  | H : Num.lt _ _ = true |- _ => apply NumFacts.lt_true in H
  | H : Num.lt _ _ = false |- _ => apply NumFacts.lt_false in H
  | H : Num.gt _ _ = true |- _ => apply NumFacts.gt_true in H
  | H : Num.gt _ _ = false |- _ => apply NumFacts.gt_false in H
  | H : Num.le _ _ = true |- _ => apply NumFacts.le_true in H
  | H : Num.le _ _ = false |- _ => apply NumFacts.le_false in H
  | H : Num.ge _ _ = true |- _ => apply NumFacts.ge_true in H
  | H : Num.ge _ _ = false |- _ => apply NumFacts.ge_false in H
  | H : Num.eq _ _ = true |- _ => apply NumFacts.eq_true in H
  | H : Num.eq _ _ = false |- _ => apply NumFacts.eq_false in H
  end.

(** Splits the [match] and [if] nests of hypothesis [H], dropping the cases
    in which [H] equates [None] with [Some]. *)
Ltac break_matches H :=
  repeat match type of H with
  | context [match ?x with _ => _ end] =>
      destruct x eqn:?; try discriminate H
  end.

(** * The backtester's execution rule *)

Module BacktesterFacts.
Import Backtester BacktesterSpec.

Lemma buy_guard signal b :
  SignalType_eqb (Signal.type signal) BUY
  && Num.gt (currentBalance b) 100 && Num.eq (position b) 0 = true
  <-> buyAccepted signal b.
Proof.
  unfold buyAccepted.
  rewrite !andb_true_iff, SignalType_eqb_eq, NumFacts.gt_true, NumFacts.eq_true.
  tauto.
Qed.

Lemma sell_guard signal b :
  SignalType_eqb (Signal.type signal) SELL && Num.gt (position b) 0 = true
  <-> sellAccepted signal b.
Proof.
  unfold sellAccepted.
  rewrite andb_true_iff, SignalType_eqb_eq, NumFacts.gt_true. tauto.
Qed.

Lemma buy_sell_exclusive signal b :
  buyAccepted signal b -> ~ sellAccepted signal b.
Proof. intros [Hb _] [Hs _]. congruence. Qed.

Lemma executeSignal_buy signal candle b :
  buyAccepted signal b -> executeSignal signal candle b = afterBuy signal b.
Proof.
  intros Hb. apply buy_guard in Hb. unfold executeSignal. now rewrite Hb.
Qed.

Lemma executeSignal_sell signal candle b :
  sellAccepted signal b -> executeSignal signal candle b = afterSell signal b.
Proof.
  intros Hs. unfold executeSignal.
  destruct (SignalType_eqb (Signal.type signal) BUY
            && Num.gt (currentBalance b) 100 && Num.eq (position b) 0) eqn:Eb.
  - apply buy_guard in Eb. now apply buy_sell_exclusive in Eb.
  - apply sell_guard in Hs. now rewrite Hs.
Qed.

(** The three ways [executeSignal] can go. *)
Lemma executeSignal_cases signal candle b :
  (buyAccepted signal b /\ executeSignal signal candle b = afterBuy signal b)
  \/ (sellAccepted signal b
      /\ executeSignal signal candle b = afterSell signal b)
  \/ (~ buyAccepted signal b /\ ~ sellAccepted signal b
      /\ executeSignal signal candle b = b).
Proof.
  unfold executeSignal.
  destruct (SignalType_eqb (Signal.type signal) BUY
            && Num.gt (currentBalance b) 100 && Num.eq (position b) 0) eqn:Eb.
  - left. split; [now apply buy_guard | reflexivity].
  - destruct (SignalType_eqb (Signal.type signal) SELL
              && Num.gt (position b) 0) eqn:Es.
    + right; left. split; [now apply sell_guard | reflexivity].
    + right; right. repeat split.
      * intros Hb. apply buy_guard in Hb. congruence.
      * intros Hs. apply sell_guard in Hs. congruence.
Qed.

(** C4. [executeSignal] takes a BUY exactly when the cash balance exceeds
    100 and the position is 0: the position becomes 95% of the balance
    divided by the signal price, 5% of the balance stays as cash, and the
    trade is appended to the ledger.  It takes a SELL exactly when the
    position is positive: the whole position is sold at the signal price
    into the balance, the trade is appended, and the high-water mark becomes
    the larger of itself and the new balance.  Every other signal returns
    the backtester unchanged: balance, position, ledger and high-water
    mark. *)
Theorem executeSignal_accepts_or_ignores (signal : Signal.t)
  (candle : Candle.t) (b : t) :
  (buyAccepted signal b ->
     executeSignal signal candle b = afterBuy signal b
     /\ position (executeSignal signal candle b)
        == currentBalance b * 0.95 / Signal.price signal
     /\ currentBalance (executeSignal signal candle b)
        == currentBalance b * 0.05
     /\ trades (executeSignal signal candle b)
        = trades b
          ++ [Trade.mk TradeBUY (Signal.price signal)
                (Signal.timestamp signal)
                (currentBalance b * 0.95 / Signal.price signal)]
     /\ maxBalance (executeSignal signal candle b) = maxBalance b)
  /\ (sellAccepted signal b ->
        executeSignal signal candle b = afterSell signal b
        /\ position (executeSignal signal candle b) == 0
        /\ currentBalance (executeSignal signal candle b)
           == currentBalance b + position b * Signal.price signal
        /\ trades (executeSignal signal candle b)
           = trades b
             ++ [Trade.mk TradeSELL (Signal.price signal)
                   (Signal.timestamp signal) (position b)]
        /\ maxBalance (executeSignal signal candle b)
           = Num.max (maxBalance b)
                     (currentBalance b + position b * Signal.price signal))
  /\ (~ buyAccepted signal b -> ~ sellAccepted signal b ->
        executeSignal signal candle b = b)
  /\ (executeSignal signal candle b <> b ->
        buyAccepted signal b \/ sellAccepted signal b).
Proof.
  repeat split.
  - now apply executeSignal_buy.
  - rewrite (executeSignal_buy signal candle b H). reflexivity.
  - rewrite (executeSignal_buy signal candle b H). reflexivity.
  - rewrite (executeSignal_buy signal candle b H). reflexivity.
  - rewrite (executeSignal_buy signal candle b H). reflexivity.
  - now apply executeSignal_sell.
  - rewrite (executeSignal_sell signal candle b H). reflexivity.
  - rewrite (executeSignal_sell signal candle b H). reflexivity.
  - rewrite (executeSignal_sell signal candle b H). reflexivity.
  - rewrite (executeSignal_sell signal candle b H). reflexivity.
  - intros Hb Hs.
    destruct (executeSignal_cases signal candle b)
      as [[Hb' _]|[[Hs' _]|[_ [_ Heq]]]]; [contradiction|contradiction|].
    exact Heq.
  - intros Hchg.
    destruct (executeSignal_cases signal candle b)
      as [[Hb' _]|[[Hs' _]|[_ [_ Heq]]]]; [now left|now right|].
    contradiction.
Qed.

End BacktesterFacts.

(** * The simulation loop *)

Module LoopFacts.
Import Backtester BacktesterSpec.

Section Generic.

Context {St : Type} `{Strategy St}.

(** Whatever [executeSignal] preserves holds when the loop returns. *)
Lemma loopFrom_preserves (P : t -> Prop) :
  (forall signal candle b, P b -> P (executeSignal signal candle b)) ->
  forall fuel candles i strategy b strategy' b',
    P b ->
    loopFrom fuel candles i (strategy, b) = Some (strategy', b') ->
    P b'.
Proof.
  intros Hstep. induction fuel as [|fuel IH];
    intros candles i strategy b strategy' b' HP Hrun; simpl in Hrun.
  - destruct (i <? length candles)%nat; [discriminate|]. congruence.
  - destruct (i <? length candles)%nat; [|congruence].
    unfold loopBody in Hrun. simpl in Hrun.
    destruct (analyze strategy (slicePrefix (i + 1) candles))
      as [[signal s1]|]; [|discriminate].
    destruct (shouldExecute signal).
    + destruct (nth_error candles i) as [candle|]; [|discriminate].
      eapply IH; [|exact Hrun]. now apply Hstep.
    + eapply IH; [|exact Hrun]. exact HP.
Qed.

Lemma closeRemaining_preserves (P : t -> Prop) :
  (forall signal candle b, P b -> P (executeSignal signal candle b)) ->
  forall candles b b',
    P b -> closeRemaining candles b = Some b' -> P b'.
Proof.
  intros Hstep candles b b' HP Hclose. unfold closeRemaining in Hclose.
  destruct (Num.gt (position b) 0).
  - destruct (lastOf candles) as [c|]; [|discriminate].
    injection Hclose as <-. now apply Hstep.
  - congruence.
Qed.

(** The run of [backtest] up to the metrics: reset, loop, forced close. *)
Lemma backtest_inv b strategy candles result b' strategy' :
  backtest b strategy candles = Some (result, b', strategy') ->
  result = calculateResults b'
  /\ exists b1,
       loopFrom (length candles) candles (startIndex strategy)
                (strategy, reset b) = Some (strategy', b1)
       /\ closeRemaining candles b1 = Some b'.
Proof.
  unfold backtest. intros Hrun.
  destruct (loopFrom (length candles) candles (startIndex strategy)
                     (strategy, reset b)) as [[s1 b1]|]; [|discriminate].
  destruct (closeRemaining candles b1) as [b2|] eqn:Hc; [|discriminate].
  injection Hrun as <- <- <-. split; [reflexivity|].
  exists b1. now split.
Qed.

(** A property of the fresh backtester that [executeSignal] preserves holds
    of the backtester that [backtest] leaves. *)
Lemma backtest_preserves (P : t -> Prop) :
  (forall signal candle b, P b -> P (executeSignal signal candle b)) ->
  forall b strategy candles result b' strategy',
    P (reset b) ->
    backtest b strategy candles = Some (result, b', strategy') ->
    P b'.
Proof.
  intros Hstep b strategy candles result b' strategy' HP Hrun.
  apply backtest_inv in Hrun. destruct Hrun as [_ [b1 [Hloop Hclose]]].
  eapply closeRemaining_preserves; [exact Hstep| |exact Hclose].
  eapply loopFrom_preserves; [exact Hstep| |exact Hloop]. exact HP.
Qed.

(** The loop of [backtest] never runs out of fuel: when [analyze] answers
    on every non-empty window, for the instances that [ready] describes and
    that [analyze] keeps [ready], [backtest] returns. *)
Section Returns.

Variable ready : St -> Prop.
Hypothesis ready_kept :
  forall s w signal s', ready s -> analyze s w = Some (signal, s') -> ready s'.
Hypothesis ready_answers :
  forall s w, ready s -> w <> [] -> analyze s w <> None.

Lemma loopFrom_returns :
  forall fuel candles i strategy b,
    ready strategy ->
    (length candles - i <= fuel)%nat ->
    exists st', loopFrom fuel candles i (strategy, b) = Some st'.
Proof.
  induction fuel as [|fuel IH]; intros candles i strategy b Hready Hfuel;
    simpl; destruct (i <? length candles)%nat eqn:Ei;
    try (eexists; reflexivity).
  - apply Nat.ltb_lt in Ei. lia.
  - apply Nat.ltb_lt in Ei. unfold loopBody. simpl.
    destruct (analyze strategy (slicePrefix (i + 1) candles))
      as [[signal s1]|] eqn:Ea.
    + assert (Hready1 := ready_kept _ _ _ _ Hready Ea).
      destruct (nth_error candles i) as [candle|] eqn:En.
      2:{ apply nth_error_None in En. lia. }
      destruct (shouldExecute signal); apply IH; auto; lia.
    + exfalso.
      apply (ready_answers strategy (slicePrefix (i + 1) candles)); auto.
      unfold slicePrefix. destruct candles; simpl in *; [lia|].
      replace (i + 1)%nat with (S i) by lia. simpl. discriminate.
Qed.

Lemma loopFrom_on_empty fuel candles i (st st' : St * t) :
  loopFrom fuel candles i st = Some st' ->
  candles = [] -> snd st' = snd st.
Proof.
  intros Hrun ->. destruct fuel; simpl in Hrun;
    replace (i <? 0)%nat with false in Hrun
      by (symmetry; apply Nat.ltb_ge; lia);
    congruence.
Qed.

Lemma backtest_returns b strategy candles :
  ready strategy ->
  exists r, backtest b strategy candles = Some r.
Proof.
  intros Hready. unfold backtest.
  destruct (loopFrom_returns (length candles) candles
              (startIndex strategy) strategy (reset b) Hready)
    as [[s1 b1] Hloop]; [lia|].
  rewrite Hloop. unfold closeRemaining.
  destruct (Num.gt (position b1) 0) eqn:Ep; [|eexists; reflexivity].
  destruct candles as [|c candles].
  - apply loopFrom_on_empty in Hloop; [|reflexivity]. simpl in Hloop.
    subst b1. simpl in Ep. discriminate.
  - simpl. eexists; reflexivity.
Qed.

End Returns.

End Generic.

End LoopFacts.

(** * The ledger of the backtester *)

Module LedgerFacts.
Import Backtester BacktesterSpec BacktesterFacts LoopFacts Examples.

Lemma executeSignal_initialBalance signal candle b :
  initialBalance (executeSignal signal candle b) = initialBalance b.
Proof.
  destruct (executeSignal_cases signal candle b)
    as [[_ ->]|[[_ ->]|[_ [_ ->]]]]; reflexivity.
Qed.

Lemma reset_replayed b : replayed (reset b).
Proof. reflexivity. Qed.

Lemma executeSignal_replayed signal candle b :
  replayed b -> replayed (executeSignal signal candle b).
Proof.
  unfold replayed. intros Hb.
  destruct (executeSignal_cases signal candle b)
    as [[_ ->]|[[_ ->]|[_ [_ ->]]]]; [| |exact Hb];
    simpl; unfold replay in *; rewrite fold_left_app; rewrite <- Hb;
    reflexivity.
Qed.

(** The forced close: a position that the loop leaves open is sold whole
    at the last candle's close; otherwise nothing changes. *)
Lemma closeRemaining_cases candles b b' :
  closeRemaining candles b = Some b' ->
  (0 < position b
   /\ exists last,
        lastOf candles = Some last
        /\ b' = afterSell (Signal.mk SELL (Candle.close last)
                                     (Candle.timestamp last) 1) b)
  \/ (position b <= 0 /\ b' = b).
Proof.
  unfold closeRemaining. intros Hclose.
  destruct (Num.gt (position b) 0) eqn:Ep.
  - apply NumFacts.gt_true in Ep. left. split; [exact Ep|].
    destruct (lastOf candles) as [last|]; [|discriminate].
    exists last. split; [reflexivity|]. injection Hclose as <-.
    apply executeSignal_sell. split; [reflexivity|exact Ep].
  - apply NumFacts.gt_false in Ep. right. split; [exact Ep|]. congruence.
Qed.

End LedgerFacts.

(** * The metrics of a backtest *)

Module MetricsFacts.
Import Backtester BacktesterSpec BacktesterFacts LoopFacts LedgerFacts Examples.

Lemma countPairs_counts buys :
  forall sells winning losing,
    countPairs buys sells winning losing
    = ((winning + length (filter isWin (combine buys sells)))%nat,
       (losing
        + length (filter (fun p => negb (isWin p)) (combine buys sells)))%nat).
Proof.
  induction buys as [|buy buys IH]; intros sells winning losing.
  - simpl. f_equal; lia.
  - destruct sells as [|sell sells].
    + simpl. f_equal; lia.
    + cbn [countPairs combine filter].
      change (isWin (buy, sell))
        with (Num.gt (Trade.price sell) (Trade.price buy)).
      destruct (Num.gt (Trade.price sell) (Trade.price buy));
        rewrite IH; cbn [negb length]; f_equal; lia.
Qed.

Lemma calculateResults_fields b :
  totalTrades (calculateResults b) = length (filter isBuy (trades b))
  /\ winningTrades (calculateResults b) = pairedWins (trades b)
  /\ winRate (calculateResults b) = winPercentage (trades b)
  /\ totalReturn (calculateResults b)
     = (currentBalance b - initialBalance b) / initialBalance b * 100
  /\ maxDrawdown (calculateResults b)
     = (maxBalance b - currentBalance b) / maxBalance b * 100
  /\ sharpeRatio (calculateResults b) = 0
  /\ resultTrades (calculateResults b) = trades b.
Proof.
  unfold calculateResults, winPercentage, pairedWins, tradePairs.
  rewrite countPairs_counts. simpl. repeat split.
Qed.

(** On the run of [risingCloses] the one round trip is a win: the code
    reports a win rate of 100 where the fraction of winning pairs is 1. *)
Lemma win_rate_is_a_percentage :
  option_map
    (fun r => (Qeq_bool (winRate (fst (fst r))) 100,
               Qeq_bool (winFraction (resultTrades (fst (fst r)))) 1,
               Qeq_bool (winRate (fst (fst r)))
                        (winFraction (resultTrades (fst (fst r))))))
    (backtest (create 10000) (MovingAverageCrossover.create 1 2)
              risingCloses)
  = Some (true, true, false).
Proof. vm_compute. reflexivity. Qed.

(** C5 (amended). For every completed backtest the returned result
    satisfies: totalTrades is the number of BUY trades of the ledger;
    winningTrades is the number of index-paired (i-th BUY, i-th SELL) trades
    whose sell price is strictly greater than the buy price; winRate is that
    number divided by the number of BUY trades, times 100, and 0 when the
    ledger has no BUY; totalReturn is (finalBalance - initialBalance) /
    initialBalance * 100; maxDrawdown is (peakBalance - finalBalance) /
    peakBalance * 100, where the peak starts at the initial balance and moves
    only at SELL events; sharpeRatio is 0. *)
Theorem backtest_metrics {St : Type} `{Strategy St}
  (b : t) (strategy : St) (candles : list Candle.t)
  (result : BacktestResult) (b' : t) (strategy' : St) :
  backtest b strategy candles = Some (result, b', strategy') ->
  totalTrades result = length (filter isBuy (trades b'))
  /\ winningTrades result = pairedWins (trades b')
  /\ winRate result = winPercentage (trades b')
  /\ totalReturn result
     = (currentBalance b' - initialBalance b) / initialBalance b * 100
  /\ maxDrawdown result
     = (maxBalance b' - currentBalance b') / maxBalance b' * 100
  /\ maxBalance b' = peakAtSells (initialBalance b) (trades b')
  /\ sharpeRatio result = 0
  /\ resultTrades result = trades b'.
Proof.
  intros Hrun.
  assert (Hinit : initialBalance b' = initialBalance b).
  { apply (backtest_preserves
             (fun x => initialBalance x = initialBalance b)
             (fun signal candle x Hx =>
                eq_trans (executeSignal_initialBalance signal candle x) Hx)
             b strategy candles result b' strategy' eq_refl Hrun). }
  assert (Hreplay : replayed b').
  { apply (backtest_preserves replayed executeSignal_replayed
             b strategy candles result b' strategy' (reset_replayed b) Hrun). }
  destruct (backtest_inv b strategy candles result b' strategy' Hrun)
    as [-> _].
  destruct (calculateResults_fields b')
    as [Ht [Hw [Hr [Hret [Hdd [Hsh Htr]]]]]].
  rewrite Hinit in Hret.
  repeat split; try assumption.
  unfold peakAtSells. rewrite <- Hinit. unfold replayed in Hreplay.
  now rewrite <- Hreplay.
Qed.

(** The theorem on the run of [risingCloses], with the values of its
    metrics. *)
Lemma backtest_metrics_witness :
  exists result b' strategy',
    backtest (create 10000) (MovingAverageCrossover.create 1 2) risingCloses
    = Some (result, b', strategy')
    /\ totalTrades result = 1%nat
    /\ winningTrades result = 1%nat
    /\ winRate result == 100
    /\ totalReturn result == 23.75
    /\ maxDrawdown result == 0
    /\ maxBalance b' == 12375
    /\ totalTrades result = length (filter isBuy (trades b'))
    /\ winningTrades result = pairedWins (trades b')
    /\ winRate result = winPercentage (trades b')
    /\ totalReturn result
       = (currentBalance b' - 10000) / 10000 * 100
    /\ maxDrawdown result
       = (maxBalance b' - currentBalance b') / maxBalance b' * 100
    /\ maxBalance b' = peakAtSells 10000 (trades b')
    /\ sharpeRatio result = 0
    /\ resultTrades result = trades b'.
Proof.
  eexists; eexists; eexists.
  split; [vm_compute; reflexivity|].
  do 6 (split; [vm_compute; reflexivity|]).
  eapply (backtest_metrics (create 10000)
            (MovingAverageCrossover.create 1 2) risingCloses).
  vm_compute; reflexivity.
Defined.

End MetricsFacts.

(** * Arrays *)

Module ArrayFacts.

Lemma lastOf_nonempty {A} (l : list A) :
  l <> [] -> exists x, lastOf l = Some x.
Proof. destruct l as [|a l]; [congruence|]. intros _. now eexists. Qed.

Lemma lastOf_some {A} (l : list A) x : lastOf l = Some x -> l <> [].
Proof. destruct l; simpl; congruence. Qed.

Lemma lastOf_app {A} (l : list A) x : lastOf (l ++ [x]) = Some x.
Proof.
  destruct l as [|a l]; [reflexivity|].
  simpl. f_equal. apply last_last.
Qed.

Lemma last_In {A} (l : list A) : forall d, In (last l d) (d :: l).
Proof.
  induction l as [|a l IH]; intros d; [now left|].
  destruct l as [|b l]; [right; now left|].
  change (last (a :: b :: l) d) with (last (b :: l) d).
  destruct (IH d) as [Hd|Hin]; [now left|right; now right].
Qed.

Lemma lastOf_In {A} (l : list A) x : lastOf l = Some x -> In x l.
Proof.
  destruct l as [|a l]; simpl; [discriminate|].
  intros Hx. injection Hx as <-. apply last_In.
Qed.

Lemma dropLast_length {A} (l : list A) :
  length (dropLast l) = (length l - 1)%nat.
Proof.
  unfold dropLast. induction l as [|a l IH]; [reflexivity|].
  destruct l as [|b l]; [reflexivity|].
  change (removelast (a :: b :: l)) with (a :: removelast (b :: l)).
  simpl length in *. rewrite IH. lia.
Qed.






Lemma ofNat_pos n : (0 < n)%nat -> 0 < Num.ofNat n.
Proof.
  intros Hn. unfold Num.ofNat, Qlt. simpl. lia.
Qed.

Lemma ofNat_nonneg n : 0 <= Num.ofNat n.
Proof. unfold Num.ofNat, Qle. simpl. lia. Qed.

(** In [Q] a quotient of non-negative numbers is non-negative, also over
    0. *)
Lemma div_nonneg x y : 0 <= x -> 0 <= y -> 0 <= x / y.
Proof.
  intros Hx Hy. unfold Qdiv. apply Qmult_le_0_compat; [exact Hx|].
  apply Qinv_le_0_compat. exact Hy.
Qed.

Lemma div_pos x y : 0 < x -> 0 < y -> 0 < x / y.
Proof.
  intros Hx Hy. apply Qlt_shift_div_l; [exact Hy|]. lra.
Qed.

End ArrayFacts.

(** * The warm-up guard *)

Module WarmupFacts.
Import StrategySpec ArrayFacts Examples.

(** C3. On a non-empty window shorter than the strategy's minimum lookback,
    [analyze] of each of the six strategies returns type HOLD with
    confidence 0 and the price and timestamp of the last candle of the
    window; the instance is left as it was. *)
Theorem analyze_holds_during_warmup (sqrt : Q -> Q) (s : AnyStrategy)
  (window : list Candle.t) :
  window <> [] ->
  (length window < minimumLookback s)%nat ->
  exists last,
    lastOf window = Some last
    /\ anyAnalyze sqrt s window
       = Some (Signal.mk HOLD (Candle.close last) (Candle.timestamp last) 0,
               s).
Proof.
  intros Hne Hshort.
  destruct (lastOf_nonempty window Hne) as [last Hlast].
  exists last. split; [exact Hlast|].
  apply Nat.ltb_lt in Hshort.
  destruct s as [s|s|s|s|s|s]; simpl in Hshort; simpl;
    [ unfold MovingAverageCrossover.analyze
    | unfold RSIStrategy.analyze
    | unfold BollingerBandsStrategy.analyze
    | unfold MACDStrategy.analyze
    | unfold RSI_MA_ComboStrategy.analyze
    | unfold ScalpingStrategy.analyze ];
    rewrite Hlast, Hshort; reflexivity.
Qed.

(** The theorem for RSI(14) on ten candles. *)
Lemma analyze_holds_during_warmup_witness :
  tenCandles <> []
  /\ (length tenCandles
      < minimumLookback (construct (NewRsi 14 30 70)))%nat
  /\ exists last,
       lastOf tenCandles = Some last
       /\ anyAnalyze sqrtQ (construct (NewRsi 14 30 70)) tenCandles
          = Some (Signal.mk HOLD (Candle.close last) (Candle.timestamp last)
                            0,
                  construct (NewRsi 14 30 70)).
Proof.
  assert (Hne : tenCandles <> []) by discriminate.
  assert (Hshort : (length tenCandles
                    < minimumLookback (construct (NewRsi 14 30 70)))%nat)
    by (simpl; lia).
  split; [exact Hne|]. split; [exact Hshort|].
  exact (analyze_holds_during_warmup sqrtQ (construct (NewRsi 14 30 70))
           tenCandles Hne Hshort).
Defined.

End WarmupFacts.

(** * [analyze] returns *)

Module AnswerFacts.
Import StrategySpec ArrayFacts.

Lemma fromEnd_some {A} k (l : list A) :
  (1 <= k <= length l)%nat -> exists x, fromEnd k l = Some x.
Proof.
  intros Hk. unfold fromEnd.
  replace (k <=? length l)%nat with true
    by (symmetry; apply Nat.leb_le; lia).
  destruct (nth_error l (length l - k)) as [x|] eqn:E; [now exists x|].
  apply nth_error_None in E. lia.
Qed.

Lemma slicePrefix_nonempty {A} i (l : list A) :
  l <> [] -> slicePrefix (i + 1) l <> [].
Proof.
  destruct l as [|a l]; [congruence|]. intros _. unfold slicePrefix.
  replace (i + 1)%nat with (S i) by lia. simpl. discriminate.
Qed.

Lemma dropLast_nonempty {A} (l : list A) :
  (2 <= length l)%nat -> dropLast l <> [].
Proof.
  intros Hl Hnil. apply (f_equal (@length _)) in Hnil.
  rewrite dropLast_length in Hnil. simpl in Hnil. lia.
Qed.

Lemma crossover_answers s window :
  window <> [] -> MovingAverageCrossover.analyze s window <> None.
Proof.
  intros Hne. destruct (lastOf_nonempty window Hne) as [c Hc].
  unfold MovingAverageCrossover.analyze. rewrite Hc.
  repeat match goal with
  | |- context [if ?x then _ else _] => destruct x
  end; discriminate.
Qed.

Lemma rsi_answers s window :
  window <> [] -> RSIStrategy.analyze s window <> None.
Proof.
  intros Hne. destruct (lastOf_nonempty window Hne) as [c Hc].
  unfold RSIStrategy.analyze. rewrite Hc.
  repeat match goal with
  | |- context [if ?x then _ else _] => destruct x
  end; discriminate.
Qed.

Lemma bollinger_answers sqrt s window :
  window <> [] -> BollingerBandsStrategy.analyze sqrt s window <> None.
Proof.
  intros Hne. destruct (lastOf_nonempty window Hne) as [c Hc].
  unfold BollingerBandsStrategy.analyze. rewrite Hc.
  repeat match goal with
  | |- context [if ?x then _ else _] => destruct x
  end; discriminate.
Qed.

Lemma calculateEMA_some candles period :
  (0 < period)%nat -> candles <> [] ->
  exists ema, MACDStrategy.calculateEMA candles period = Some ema.
Proof.
  intros Hp Hne. unfold MACDStrategy.calculateEMA.
  destruct (length candles <? period)%nat eqn:El.
  - destruct (lastOf_nonempty candles Hne) as [c ->]. now eexists.
  - apply Nat.ltb_ge in El.
    destruct (nth_error candles (length candles - period)) as [c|] eqn:E;
      [now eexists|].
    apply nth_error_None in E.
    assert (Hlen : (0 < length candles)%nat)
      by (destruct candles; [congruence|simpl; lia]).
    lia.
Qed.

Lemma macdValuesFrom_some s candles :
  (0 < MACDStrategy.fastPeriod s)%nat ->
  (0 < MACDStrategy.slowPeriod s)%nat ->
  candles <> [] ->
  forall n i, exists values, MACDStrategy.macdValuesFrom s candles i n
                             = Some values.
Proof.
  intros Hf Hs Hne. induction n as [|n IH]; intros i; simpl;
    [now eexists|].
  destruct (IH (i + 1)%nat) as [rest ->].
  destruct (MACDStrategy.slowPeriod s <=? i)%nat; [|now eexists].
  destruct (calculateEMA_some (slicePrefix (i + 1) candles)
              (MACDStrategy.fastPeriod s) Hf
              (slicePrefix_nonempty i candles Hne)) as [f ->].
  destruct (calculateEMA_some (slicePrefix (i + 1) candles)
              (MACDStrategy.slowPeriod s) Hs
              (slicePrefix_nonempty i candles Hne)) as [sl ->].
  now eexists.
Qed.

Lemma calculateMACD_some s candles :
  (0 < MACDStrategy.fastPeriod s)%nat ->
  (0 < MACDStrategy.slowPeriod s)%nat ->
  candles <> [] ->
  exists r, MACDStrategy.calculateMACD s candles = Some r.
Proof.
  intros Hf Hs Hne. unfold MACDStrategy.calculateMACD.
  destruct (length candles
            <? MACDStrategy.slowPeriod s + MACDStrategy.signalPeriod s)%nat;
    [now eexists|].
  destruct (calculateEMA_some candles _ Hf Hne) as [f ->].
  destruct (calculateEMA_some candles _ Hs Hne) as [sl ->].
  destruct (macdValuesFrom_some s candles Hf Hs Hne
              (MACDStrategy.signalPeriod s)
              (length candles - MACDStrategy.signalPeriod s)) as [vs ->].
  now eexists.
Qed.

Lemma macd_answers s window :
  (0 < MACDStrategy.fastPeriod s)%nat ->
  (0 < MACDStrategy.slowPeriod s)%nat ->
  window <> [] -> MACDStrategy.analyze s window <> None.
Proof.
  intros Hf Hs Hne. destruct (lastOf_nonempty window Hne) as [c Hc].
  unfold MACDStrategy.analyze. rewrite Hc.
  destruct (length window
            <? MACDStrategy.slowPeriod s + MACDStrategy.signalPeriod s + 5)%nat
    eqn:El; [discriminate|].
  apply Nat.ltb_ge in El.
  destruct (calculateMACD_some s window Hf Hs Hne) as [r ->].
  destruct (calculateMACD_some s (dropLast window) Hf Hs) as [r' ->];
    [apply dropLast_nonempty; lia|].
  destruct r as [m|], r' as [m'|]; try discriminate.
  repeat match goal with
  | |- context [if ?x then _ else _] => destruct x
  end; discriminate.
Qed.

Lemma comboMA_some candles period :
  candles <> [] ->
  exists ma, RSI_MA_ComboStrategy.calculateMA candles period = Some ma.
Proof.
  intros Hne. unfold RSI_MA_ComboStrategy.calculateMA.
  destruct (length candles <? period)%nat; [|now eexists].
  destruct (lastOf_nonempty candles Hne) as [c ->]. now eexists.
Qed.

Lemma combo_answers s window :
  window <> [] -> RSI_MA_ComboStrategy.analyze s window <> None.
Proof.
  intros Hne. destruct (lastOf_nonempty window Hne) as [c Hc].
  unfold RSI_MA_ComboStrategy.analyze. rewrite Hc.
  destruct (length window
            <? Nat.max (RSI_MA_ComboStrategy.rsiPeriod s)
                       (RSI_MA_ComboStrategy.maLongPeriod s) + 5)%nat
    eqn:El; [discriminate|].
  apply Nat.ltb_ge in El.
  assert (Hprev : dropLast window <> []) by (apply dropLast_nonempty; lia).
  destruct (comboMA_some window (RSI_MA_ComboStrategy.maShortPeriod s) Hne)
    as [a ->].
  destruct (comboMA_some window (RSI_MA_ComboStrategy.maLongPeriod s) Hne)
    as [b ->].
  destruct (comboMA_some (dropLast window)
              (RSI_MA_ComboStrategy.maShortPeriod s) Hprev) as [a' ->].
  destruct (comboMA_some (dropLast window)
              (RSI_MA_ComboStrategy.maLongPeriod s) Hprev) as [b' ->].
  cbv zeta.
  repeat match goal with
  | |- context [if ?x then _ else _] => destruct x
  end; discriminate.
Qed.

Lemma scalping_answers s window :
  window <> [] -> ScalpingStrategy.analyze s window <> None.
Proof.
  intros Hne. destruct (lastOf_nonempty window Hne) as [c Hc].
  unfold ScalpingStrategy.analyze. rewrite Hc.
  destruct (length window <? ScalpingStrategy.volatilityPeriod s + 5)%nat
    eqn:El; [discriminate|].
  apply Nat.ltb_ge in El.
  destruct (fromEnd_some 1 window) as [c1 H1]; [lia|].
  destruct (fromEnd_some 2 window) as [c2 H2]; [lia|].
  destruct (fromEnd_some 3 window) as [c3 H3]; [lia|].
  unfold ScalpingStrategy.checkExitConditions. rewrite H1.
  match goal with
  | |- context [ScalpingStrategy.exitLoop ?a ?b ?c ?d] =>
      destruct (ScalpingStrategy.exitLoop a b c d) as [exitSignal s3]
  end.
  destruct (negb (SignalType_eqb (Signal.type exitSignal) HOLD));
    [discriminate|].
  unfold ScalpingStrategy.checkEntryConditions,
    ScalpingStrategy.getInstantScalpSignal,
    ScalpingStrategy.analyzePriceAction,
    ScalpingStrategy.checkVolumeSpike.
  rewrite H1, H2, H3.
  repeat match goal with
  | |- context [if ?x then _ else _] => destruct x
  end; discriminate.
Qed.

(** [analyze] changes no parameter of a MACD strategy. *)
Lemma macd_parameters s window signal s' :
  MACDStrategy.analyze s window = Some (signal, s') ->
  MACDStrategy.fastPeriod s' = MACDStrategy.fastPeriod s
  /\ MACDStrategy.slowPeriod s' = MACDStrategy.slowPeriod s.
Proof.
  unfold MACDStrategy.analyze. intros Hrun.
  break_matches Hrun; injection Hrun as <- <-; split; reflexivity.
Qed.

Lemma answers_kept sqrt s window signal s' :
  answers s -> anyAnalyze sqrt s window = Some (signal, s') -> answers s'.
Proof.
  intros Hs Hrun. destruct s as [s|s|s|s|s|s]; simpl in Hrun;
    unfold lift in Hrun;
    match type of Hrun with
    | context [match ?x with _ => _ end] =>
        destruct x as [[sig s1]|] eqn:E; [|discriminate]
    end; injection Hrun as <- <-; simpl; auto.
  apply macd_parameters in E. destruct E as [-> ->]. exact Hs.
Qed.

(** Each of the six strategies answers every non-empty window; for MACD,
    with fast and slow periods of at least 1. *)
Lemma any_answers sqrt s window :
  answers s -> window <> [] -> anyAnalyze sqrt s window <> None.
Proof.
  intros Hs Hne. destruct s as [s|s|s|s|s|s]; simpl; unfold lift.
  - assert (H := crossover_answers s window Hne).
    destruct (MovingAverageCrossover.analyze s window) as [[? ?]|];
      congruence.
  - assert (H := rsi_answers s window Hne).
    destruct (RSIStrategy.analyze s window) as [[? ?]|]; congruence.
  - assert (H := bollinger_answers sqrt s window Hne).
    destruct (BollingerBandsStrategy.analyze sqrt s window) as [[? ?]|];
      congruence.
  - destruct Hs as [Hf Hsl].
    assert (H := macd_answers s window Hf Hsl Hne).
    destruct (MACDStrategy.analyze s window) as [[? ?]|]; congruence.
  - assert (H := combo_answers s window Hne).
    destruct (RSI_MA_ComboStrategy.analyze s window) as [[? ?]|];
      congruence.
  - assert (H := scalping_answers s window Hne).
    destruct (ScalpingStrategy.analyze s window) as [[? ?]|]; congruence.
Qed.

(** [backtest] returns for each of the six strategies, on every candle
    series. *)
Lemma backtest_of_any_returns sqrt b s candles :
  answers s ->
  exists r,
    @Backtester.backtest AnyStrategy (AnyStrategy_Strategy sqrt) b s candles
    = Some r.
Proof.
  intros Hs.
  apply (@LoopFacts.backtest_returns AnyStrategy (AnyStrategy_Strategy sqrt)
           answers (answers_kept sqrt) (any_answers sqrt) b s candles Hs).
Qed.

End AnswerFacts.

(** * The crossover on its first window past the warm-up *)

Module CrossoverFacts.
Import ArrayFacts MovingAverageCrossover Examples.




End CrossoverFacts.

(** * The confidence of a signal *)

Module ConfidenceFacts.
Import StrategySpec ArrayFacts Examples.

Lemma zero_in_unit : inUnitInterval 0.
Proof. unfold inUnitInterval. lra. Qed.

Lemma macd_confidence s window signal s' :
  MACDStrategy.analyze s window = Some (signal, s') ->
  inUnitInterval (Signal.confidence signal).
Proof.
  unfold MACDStrategy.analyze. intros Hrun. break_matches Hrun;
    injection Hrun as <- <-; simpl; unfold inUnitInterval; lra.
Qed.

Lemma combo_confidence s window signal s' :
  RSI_MA_ComboStrategy.analyze s window = Some (signal, s') ->
  inUnitInterval (Signal.confidence signal).
Proof.
  unfold RSI_MA_ComboStrategy.analyze. intros Hrun. break_matches Hrun;
    injection Hrun as <- <-; simpl; unfold inUnitInterval; lra.
Qed.

Lemma exitFor_confidence s cs current positionType position signal profit :
  ScalpingStrategy.exitFor s cs current positionType position
  = Some (signal, profit) ->
  inUnitInterval (Signal.confidence signal).
Proof.
  unfold ScalpingStrategy.exitFor. intros Hrun. break_matches Hrun;
    injection Hrun as <- <-; simpl; unfold inUnitInterval; lra.
Qed.

Lemma exitLoop_confidence s cs current entries :
  inUnitInterval
    (Signal.confidence (fst (ScalpingStrategy.exitLoop s cs current entries))).
Proof.
  induction entries as [|[positionType position] entries IH]; simpl.
  - apply zero_in_unit.
  - destruct (ScalpingStrategy.exitFor s cs current positionType position)
      as [[signal profit]|] eqn:E; [|exact IH].
    simpl. eapply exitFor_confidence. exact E.
Qed.

Lemma instant_confidence s cs signal s' :
  ScalpingStrategy.getInstantScalpSignal s cs = Some (signal, s') ->
  inUnitInterval (Signal.confidence signal).
Proof.
  unfold ScalpingStrategy.getInstantScalpSignal. intros Hrun.
  break_matches Hrun; injection Hrun as <- <-; simpl;
    unfold inUnitInterval; lra.
Qed.

Lemma entry_confidence s cs signal s' :
  ScalpingStrategy.checkEntryConditions s cs = Some (signal, s') ->
  inUnitInterval (Signal.confidence signal).
Proof.
  unfold ScalpingStrategy.checkEntryConditions. intros Hrun.
  destruct (fromEnd 1 cs) as [current|]; [|discriminate].
  destruct (0 <? length (ScalpingStrategy.positions s))%nat.
  { injection Hrun as <- <-. apply zero_in_unit. }
  destruct (ScalpingStrategy.getInstantScalpSignal s cs)
    as [[instant s1]|] eqn:Ei; [|discriminate].
  apply instant_confidence in Ei.
  break_matches Hrun; injection Hrun as <- <-; simpl; try exact Ei;
    unfold inUnitInterval; lra.
Qed.

Lemma scalping_confidence s window signal s' :
  ScalpingStrategy.analyze s window = Some (signal, s') ->
  inUnitInterval (Signal.confidence signal).
Proof.
  unfold ScalpingStrategy.analyze, ScalpingStrategy.checkExitConditions.
  intros Hrun.
  destruct (lastOf window) as [current|]; [|discriminate].
  destruct (length window <? ScalpingStrategy.volatilityPeriod s + 5)%nat.
  { injection Hrun as <- <-. apply zero_in_unit. }
  destruct (fromEnd 1 window) as [c|]; [|discriminate].
  match type of Hrun with
  | context [ScalpingStrategy.exitLoop ?a ?b ?c ?d] =>
      assert (Hexit := exitLoop_confidence a b c d);
      destruct (ScalpingStrategy.exitLoop a b c d) as [exitSignal s3]
  end.
  simpl in Hexit.
  destruct (negb (SignalType_eqb (Signal.type exitSignal) HOLD)).
  - injection Hrun as <- <-. exact Hexit.
  - eapply entry_confidence. exact Hrun.
Qed.

End ConfidenceFacts.

(** * The latch *)

Module LatchFacts.
Import StrategySpec Examples.

Lemma differs_true lastSignal x :
  differs lastSignal x = true -> x <> lastSignal.
Proof.
  unfold differs. rewrite negb_true_iff, <- not_true_iff_false,
    SignalType_eqb_eq. congruence.
Qed.

(** Closes a goal [latchStep] after the branches of [analyze] are split. *)
Ltac latch_cases :=
  simpl;
  repeat match goal with
  | H : _ && _ = true |- _ => apply andb_true_iff in H; destruct H
  end;
  first
    [ left; split; reflexivity
    | right; split; [discriminate|]; split; [|reflexivity];
      apply differs_true; assumption ].

Lemma crossover_latch s window signal s' :
  MovingAverageCrossover.analyze s window = Some (signal, s') ->
  latchStep (MovingAverageCrossover.lastSignal s) signal
            (MovingAverageCrossover.lastSignal s').
Proof.
  unfold MovingAverageCrossover.analyze. intros Hrun.
  break_matches Hrun; injection Hrun as <- <-; latch_cases.
Qed.

Lemma rsi_latch s window signal s' :
  RSIStrategy.analyze s window = Some (signal, s') ->
  latchStep (RSIStrategy.lastSignal s) signal (RSIStrategy.lastSignal s').
Proof.
  unfold RSIStrategy.analyze. intros Hrun.
  break_matches Hrun; injection Hrun as <- <-; latch_cases.
Qed.

Lemma bollinger_latch sqrt s window signal s' :
  BollingerBandsStrategy.analyze sqrt s window = Some (signal, s') ->
  latchStep (BollingerBandsStrategy.lastSignal s) signal
            (BollingerBandsStrategy.lastSignal s').
Proof.
  unfold BollingerBandsStrategy.analyze. intros Hrun.
  break_matches Hrun; injection Hrun as <- <-; latch_cases.
Qed.

Lemma macd_latch s window signal s' :
  MACDStrategy.analyze s window = Some (signal, s') ->
  latchStep (MACDStrategy.lastSignal s) signal (MACDStrategy.lastSignal s').
Proof.
  unfold MACDStrategy.analyze. intros Hrun.
  break_matches Hrun; injection Hrun as <- <-; latch_cases.
Qed.

Lemma combo_latch s window signal s' :
  RSI_MA_ComboStrategy.analyze s window = Some (signal, s') ->
  latchStep (RSI_MA_ComboStrategy.lastSignal s) signal
            (RSI_MA_ComboStrategy.lastSignal s').
Proof.
  unfold RSI_MA_ComboStrategy.analyze. intros Hrun.
  break_matches Hrun; injection Hrun as <- <-; latch_cases.
Qed.

(** A strategy with a latch keeps one, and each call is a [latchStep]. *)
Lemma any_latch sqrt s window signal s' latch :
  latchOf s = Some latch ->
  anyAnalyze sqrt s window = Some (signal, s') ->
  exists latch', latchOf s' = Some latch' /\ latchStep latch signal latch'.
Proof.
  intros Hlatch Hrun.
  destruct s as [s|s|s|s|s|s]; simpl in Hlatch; try discriminate;
    injection Hlatch as <-; simpl in Hrun; unfold lift in Hrun.
  - destruct (MovingAverageCrossover.analyze s window) as [[sig s1]|] eqn:E;
      [|discriminate].
    injection Hrun as <- <-. eexists. split; [reflexivity|].
    eapply crossover_latch; exact E.
  - destruct (RSIStrategy.analyze s window) as [[sig s1]|] eqn:E;
      [|discriminate].
    injection Hrun as <- <-. eexists. split; [reflexivity|].
    eapply rsi_latch; exact E.
  - destruct (BollingerBandsStrategy.analyze sqrt s window)
      as [[sig s1]|] eqn:E; [|discriminate].
    injection Hrun as <- <-. eexists. split; [reflexivity|].
    eapply bollinger_latch; exact E.
  - destruct (MACDStrategy.analyze s window) as [[sig s1]|] eqn:E;
      [|discriminate].
    injection Hrun as <- <-. eexists. split; [reflexivity|].
    eapply macd_latch; exact E.
  - destruct (RSI_MA_ComboStrategy.analyze s window) as [[sig s1]|] eqn:E;
      [|discriminate].
    injection Hrun as <- <-. eexists. split; [reflexivity|].
    eapply combo_latch; exact E.
Qed.

(** The fired signals alternate, the first one differing from the latch
    the instance starts with. *)
Lemma fired_alternate_after_latch sqrt windows :
  forall s latch,
    latchOf s = Some latch ->
    alternatesAfter latch (firedTypes (anySignalsOf sqrt s windows)).
Proof.
  induction windows as [|w windows IH]; intros s latch Hlatch; simpl;
    [exact I|].
  destruct (anyAnalyze sqrt s w) as [[signal s']|] eqn:E.
  - destruct (any_latch sqrt s w signal s' latch Hlatch E)
      as [latch' [Hlatch' [[Hhold ->]|[Hfire [Hnew ->]]]]].
    + simpl. rewrite Hhold. now apply IH.
    + simpl. specialize (IH s' _ Hlatch').
      destruct (Signal.type signal); try congruence; simpl; now split.
  - simpl. now apply IH.
Qed.

Lemma alternatesAfter_alternates previous types :
  alternatesAfter previous types -> alternates types.
Proof. destruct types as [|type rest]; simpl; tauto. Qed.

(** On the windows of 15, 16 and 17 candles the scalping strategy opens a
    long (BUY), takes the quick profit (SELL) and opens a short (SELL): two
    SELL signals in a row. *)
Lemma scalping_sells_twice :
  firedTypes
    (anySignalsOf sqrtQ
       (construct (NewScalping 0.02 1.5 0.15 5 10 0.1))
       (growingWindows scalpCandles 14))
  = [BUY; SELL; SELL]
  /\ ~ alternates [BUY; SELL; SELL].
Proof.
  split; [vm_compute; reflexivity|].
  simpl. intros [_ [Hsame _]]. now apply Hsame.
Qed.

(** C2 (amended). For each of the five strategies that carry a latch (the
    crossover, RSI, Bollinger, MACD and the combo) and every sequence of
    [analyze] calls on one instance, two consecutive non-HOLD signals of the
    same type never occur: once a BUY fires no further BUY fires until a
    SELL fires, and vice versa.  The scalping strategy is not covered. *)
Theorem latched_signals_alternate (sqrt : Q -> Q) (s : AnyStrategy)
  (latch : SignalType) (windows : list (list Candle.t)) :
  latchOf s = Some latch ->
  alternates (firedTypes (anySignalsOf sqrt s windows))
  /\ alternatesAfter latch (firedTypes (anySignalsOf sqrt s windows)).
Proof.
  intros Hlatch.
  assert (Halt := fired_alternate_after_latch sqrt windows s latch Hlatch).
  split; [|exact Halt].
  eapply alternatesAfter_alternates. exact Halt.
Qed.

(** The theorem for the crossover on [upThenDown]. *)
Lemma latched_signals_alternate_witness :
  latchOf (construct (NewCrossover 1 2)) = Some HOLD
  /\ firedTypes
       (anySignalsOf sqrtQ (construct (NewCrossover 1 2))
          (growingWindows upThenDown 2))
     = [BUY; SELL]
  /\ alternates
       (firedTypes
          (anySignalsOf sqrtQ (construct (NewCrossover 1 2))
             (growingWindows upThenDown 2))).
Proof.
  split; [reflexivity|]. split; [vm_compute; reflexivity|].
  apply (latched_signals_alternate sqrtQ (construct (NewCrossover 1 2)) HOLD
           (growingWindows upThenDown 2) eq_refl).
Defined.

End LatchFacts.

(** * Further facts *)

Module MoreFacts.
Import StrategySpec ArrayFacts Examples.

(** X1. [backtest] returns a result for each of the six strategies made
    with periods that are whole numbers (0, 1, 2, ...; for MACD, fast and
    slow periods of at least 1), on every candle series: [analyze] answers
    each prefix it is fed and the loop ends within [candles.length]
    iterations. *)
Lemma backtest_of_six_returns (sqrt : Q -> Q) (b : Backtester.t)
  (s : AnyStrategy) (candles : list Candle.t) :
  answers s ->
  exists result b' s',
    @Backtester.backtest AnyStrategy (AnyStrategy_Strategy sqrt) b s candles
    = Some (result, b', s').
Proof.
  intros Hs.
  destruct (AnswerFacts.backtest_of_any_returns sqrt b s candles Hs)
    as [[[result b'] s'] Hrun].
  now exists result, b', s'.
Qed.

(** MACD(12, 26, 9) on seventeen candles. *)
Lemma backtest_of_six_returns_witness :
  answers (construct (NewMacd 12 26 9))
  /\ exists result b' s',
       @Backtester.backtest AnyStrategy (AnyStrategy_Strategy sqrtQ)
         (Backtester.create 10000) (construct (NewMacd 12 26 9)) scalpCandles
       = Some (result, b', s').
Proof.
  assert (Hs : answers (construct (NewMacd 12 26 9))) by (simpl; lia).
  split; [exact Hs|].
  exact (backtest_of_six_returns sqrtQ (Backtester.create 10000)
           (construct (NewMacd 12 26 9)) scalpCandles Hs).
Defined.

End MoreFacts.

(** * The ledger of the backtester is a sequence of round trips *)

Module AccountFacts.
Import Backtester BacktesterSpec BacktesterFacts LoopFacts LedgerFacts.
Import MetricsFacts LedgerShape Examples.

Lemma tripsOf_snoc ledger tr :
  tripsOf (ledger ++ [tr]) = tripStep (tripsOf ledger) tr.
Proof. unfold tripsOf. now rewrite fold_left_app. Qed.

Lemma tripStep_failed ledger : fold_left tripStep ledger None = None.
Proof. induction ledger as [|tr ledger IH]; [reflexivity|exact IH]. Qed.

Lemma isBuy_type tr :
  (Trade.type tr = TradeBUY /\ isBuy tr = true /\ isSell tr = false)
  \/ (Trade.type tr = TradeSELL /\ isBuy tr = false /\ isSell tr = true).
Proof. unfold isBuy, isSell. destruct (Trade.type tr); auto. Qed.

Lemma buys_and_sells ledger :
  length ledger
  = (length (filter isBuy ledger) + length (filter isSell ledger))%nat.
Proof.
  induction ledger as [|tr ledger IH]; [reflexivity|].
  cbn [filter]. destruct (isBuy_type tr) as [[_ [-> ->]]|[_ [-> ->]]];
    simpl; lia.
Qed.

Lemma trips_balance ledger :
  forall state state',
    fold_left tripStep ledger state = Some state' ->
    (length (filter isBuy ledger) + openCount state
     = length (filter isSell ledger) + openCount (Some state'))%nat.
Proof.
  induction ledger as [|tr ledger IH]; intros state state' Hrun.
  - simpl in *. subst state. simpl. lia.
  - cbn [fold_left filter] in *.
    destruct state as [[buy|]|]; cbn [tripStep] in Hrun;
      [| |now rewrite tripStep_failed in Hrun].
    + destruct (isBuy_type tr) as [[Et [-> ->]]|[Et [-> ->]]];
        rewrite Et in Hrun; [now rewrite tripStep_failed in Hrun|].
      destruct (Qeq_bool (Trade.quantity tr) (Trade.quantity buy));
        [|now rewrite tripStep_failed in Hrun].
      specialize (IH _ _ Hrun). simpl in *. lia.
    + destruct (isBuy_type tr) as [[Et [-> ->]]|[Et [-> ->]]];
        rewrite Et in Hrun; [|now rewrite tripStep_failed in Hrun].
      specialize (IH _ _ Hrun). simpl in *. lia.
Qed.

Lemma roundTrips_counts ledger :
  roundTrips ledger ->
  length (filter isBuy ledger) = length (filter isSell ledger)
  /\ length ledger = (2 * length (filter isBuy ledger))%nat.
Proof.
  intros Htrips. apply trips_balance in Htrips. simpl in Htrips.
  rewrite (buys_and_sells ledger). lia.
Qed.

(** A ledger of round trips is its index-paired trades laid end to end:
    the i-th BUY is followed at once by the i-th SELL. *)
Lemma roundTrips_laidOut n :
  forall ledger,
    (length ledger <= n)%nat -> roundTrips ledger ->
    ledger = laidOut (tradePairs ledger).
Proof.
  induction n as [|n IH]; intros ledger Hlen Htrips.
  - destruct ledger; [reflexivity|simpl in Hlen; lia].
  - destruct ledger as [|buy [|sell rest]]; [reflexivity| |].
    + unfold roundTrips, tripsOf in Htrips. simpl in Htrips.
      unfold tripStep in Htrips. destruct (Trade.type buy); discriminate.
    + unfold roundTrips, tripsOf in Htrips. cbn [fold_left] in Htrips.
      unfold tripStep at 3 in Htrips.
      destruct (Trade.type buy) eqn:Eb;
        [|now rewrite tripStep_failed in Htrips].
      unfold tripStep at 2 in Htrips.
      destruct (Trade.type sell) eqn:Es;
        [now rewrite tripStep_failed in Htrips|].
      destruct (Qeq_bool (Trade.quantity sell) (Trade.quantity buy));
        [|now rewrite tripStep_failed in Htrips].
      destruct (isBuy_type buy) as [[_ [Hbb Hbs]]|[Hn _]]; [|congruence].
      destruct (isBuy_type sell) as [[Hn _]|[_ [Hsb Hss]]]; [congruence|].
      unfold tradePairs, laidOut. cbn [filter].
      rewrite Hbb, Hbs, Hsb, Hss. cbn [combine flat_map fst snd app].
      do 2 f_equal. apply IH; [simpl in Hlen; lia|exact Htrips].
Qed.

Lemma filter_split {A} (f : A -> bool) (l : list A) :
  (length (filter f l) + length (filter (fun x => negb (f x)) l))%nat
  = length l.
Proof.
  induction l as [|x l IH]; [reflexivity|].
  simpl. destruct (f x); simpl; lia.
Qed.

(** Every index pair is counted once, as a win or as a loss. *)
Lemma wins_and_losses b :
  (winningTrades (calculateResults b) + losingTrades (calculateResults b))%nat
  = Nat.min (length (filter isBuy (trades b)))
            (length (filter isSell (trades b))).
Proof.
  unfold calculateResults. rewrite countPairs_counts. simpl.
  rewrite filter_split. apply length_combine.
Qed.

Lemma reset_closedOrOpen b : closedOrOpen (reset b).
Proof. left. split; reflexivity. Qed.

Lemma executeSignal_closedOrOpen signal candle b :
  (buysAtPositivePrice (trades b) -> closedOrOpen b) ->
  buysAtPositivePrice (trades (executeSignal signal candle b)) ->
  closedOrOpen (executeSignal signal candle b).
Proof.
  intros Hb.
  destruct (executeSignal_cases signal candle b)
    as [[[_ [Hbal Hflat]] ->]|[[[_ Hlong] ->]|[_ [_ ->]]]]; [| |exact Hb].
  - unfold afterBuy. cbn [trades position]. intros Hpos.
    apply Forall_app in Hpos. destruct Hpos as [Hpos Hlast].
    apply Forall_inv in Hlast. simpl in Hlast. specialize (Hlast eq_refl).
    right. eexists. cbn [trades position]. rewrite tripsOf_snoc.
    destruct (Hb Hpos) as [[_ Hclosed]|[buy [_ [Hq Hgt]]]].
    + rewrite Hclosed. simpl. split; [reflexivity|].
      split; [reflexivity|]. apply ArrayFacts.div_pos; lra.
    + exfalso. rewrite Hq in Hflat. lra.
  - unfold afterSell. cbn [trades position]. intros Hpos.
    apply Forall_app in Hpos. destruct Hpos as [Hpos _].
    left. cbn [trades position]. split; [reflexivity|]. rewrite tripsOf_snoc.
    destruct (Hb Hpos) as [[Hzero _]|[buy [Hopen [Hq _]]]].
    + exfalso. rewrite Hzero in Hlong. lra.
    + rewrite Hopen. unfold tripStep. simpl. rewrite Hq.
      now rewrite (proj2 (Qeq_bool_iff _ _) (Qeq_refl _)).
Qed.

(** What [backtest] leaves when every BUY of its ledger was made at a
    positive price. *)
Lemma backtest_closed {St : Type} `{Strategy St}
  (b : t) (strategy : St) (candles : list Candle.t)
  (result : BacktestResult) (b' : t) (strategy' : St) :
  backtest b strategy candles = Some (result, b', strategy') ->
  buysAtPositivePrice (trades b') ->
  position b' = 0 /\ roundTrips (trades b').
Proof.
  intros Hrun Hpos.
  assert (Hfinal : closedOrOpen b').
  { apply (backtest_preserves
             (fun x => buysAtPositivePrice (trades x) -> closedOrOpen x)
             executeSignal_closedOrOpen
             b strategy candles result b' strategy'
             (fun _ => reset_closedOrOpen b) Hrun Hpos). }
  destruct Hfinal as [Hclosed|[buy [Hopen [Hq Hgt]]]]; [exact Hclosed|].
  exfalso.
  apply backtest_inv in Hrun. destruct Hrun as [_ [b1 [_ Hclose]]].
  destruct (closeRemaining_cases candles b1 b' Hclose)
    as [[_ [last [_ Hb']]]|[Hle Hb']].
  - rewrite Hb' in Hq. simpl in Hq. rewrite <- Hq in Hgt. lra.
  - subst b1. rewrite Hq in Hle. lra.
Qed.

(** X4. When every BUY of the ledger was made at a strictly positive price,
    the ledger that [backtest] returns is a sequence of round trips: BUY,
    the SELL of the quantity bought, BUY, SELL, ...  So the index pairing
    of [calculateResults] pairs each BUY with the SELL that closed it, the
    ledger has twice [totalTrades] entries, and every trade is counted as a
    win or as a loss. *)
Theorem ledger_is_round_trips {St : Type} `{Strategy St}
  (b : t) (strategy : St) (candles : list Candle.t)
  (result : BacktestResult) (b' : t) (strategy' : St) :
  backtest b strategy candles = Some (result, b', strategy') ->
  buysAtPositivePrice (resultTrades result) ->
  roundTrips (resultTrades result)
  /\ resultTrades result = laidOut (tradePairs (resultTrades result))
  /\ length (resultTrades result) = (2 * totalTrades result)%nat
  /\ (winningTrades result + losingTrades result)%nat = totalTrades result.
Proof.
  intros Hrun Hpos.
  destruct (backtest_inv _ _ _ _ _ _ Hrun) as [-> _].
  destruct (calculateResults_fields b') as [Htotal [_ [_ [_ [_ [_ Hled]]]]]].
  rewrite Hled in *. rewrite Htotal.
  destruct (backtest_closed b strategy candles _ b' strategy' Hrun Hpos)
    as [_ Htrips].
  destruct (roundTrips_counts _ Htrips) as [Hsame Hlen].
  split; [exact Htrips|].
  split; [now apply (roundTrips_laidOut (length (trades b')))|].
  split; [exact Hlen|].
  rewrite wins_and_losses, <- Hsame. apply Nat.min_id.
Qed.

(** The crossover with periods 1 and 2 on the closes 3, 2, 4, 5, 1: one
    round trip, bought at 4 and sold at 1, a loss. *)
Lemma ledger_is_round_trips_witness :
  exists result b' strategy',
    backtest (create 10000) (MovingAverageCrossover.create 1 2) upThenDown
    = Some (result, b', strategy')
    /\ buysAtPositivePrice (resultTrades result)
    /\ map Trade.price (resultTrades result) = [4; 1]
    /\ length (resultTrades result) = (2 * totalTrades result)%nat
    /\ (winningTrades result + losingTrades result)%nat = totalTrades result.
Proof.
  eexists; eexists; eexists.
  match goal with
  | |- ?R /\ _ => assert (Hrun : R) by (vm_compute; reflexivity)
  end.
  split; [exact Hrun|].
  match goal with |- ?P /\ _ => assert (Hpos : P) end.
  { repeat constructor; simpl; intros; try discriminate; reflexivity. }
  split; [exact Hpos|]. split; [reflexivity|].
  destruct (ledger_is_round_trips _ _ _ _ _ _ Hrun Hpos)
    as [_ [_ [Hlen Hsum]]].
  split; [exact Hlen|exact Hsum].
Defined.

End AccountFacts.

(** * Every signal quotes the last candle of its window *)

Module StampFacts.
Import StrategySpec SignalShape ArrayFacts.

Lemma last_cons {A} (l : list A) : forall x y, last (y :: l) x = last l y.
Proof.
  induction l as [|z l IH]; intros x y; [reflexivity|].
  change (last (y :: z :: l) x) with (last (z :: l) x).
  now rewrite (IH x z), (IH y z).
Qed.

Lemma fromEnd_one_is_last {A} (l : list A) : fromEnd 1 l = lastOf l.
Proof.
  unfold fromEnd. destruct l as [|x l]; [reflexivity|].
  replace (1 <=? length (x :: l))%nat with true by reflexivity.
  replace (length (x :: l) - 1)%nat with (length l) by (simpl; lia).
  simpl lastOf. revert x. induction l as [|y l IH]; intros x; [reflexivity|].
  simpl nth_error. rewrite IH. now rewrite last_cons.
Qed.

Lemma holdSignal_quotes c : quotes (holdSignal c) c.
Proof. split; reflexivity. Qed.

Lemma crossover_quotes s window signal s' c :
  lastOf window = Some c ->
  MovingAverageCrossover.analyze s window = Some (signal, s') ->
  quotes signal c.
Proof.
  unfold MovingAverageCrossover.analyze. intros -> Hrun.
  break_matches Hrun; injection Hrun as <- <-; split; reflexivity.
Qed.

Lemma rsi_quotes s window signal s' c :
  lastOf window = Some c ->
  RSIStrategy.analyze s window = Some (signal, s') ->
  quotes signal c.
Proof.
  unfold RSIStrategy.analyze. intros -> Hrun.
  break_matches Hrun; injection Hrun as <- <-; split; reflexivity.
Qed.

Lemma bollinger_quotes sqrt s window signal s' c :
  lastOf window = Some c ->
  BollingerBandsStrategy.analyze sqrt s window = Some (signal, s') ->
  quotes signal c.
Proof.
  unfold BollingerBandsStrategy.analyze. intros -> Hrun.
  break_matches Hrun; injection Hrun as <- <-; split; reflexivity.
Qed.

Lemma macd_quotes s window signal s' c :
  lastOf window = Some c ->
  MACDStrategy.analyze s window = Some (signal, s') ->
  quotes signal c.
Proof.
  unfold MACDStrategy.analyze. intros -> Hrun.
  break_matches Hrun; injection Hrun as <- <-; split; reflexivity.
Qed.

Lemma combo_quotes s window signal s' c :
  lastOf window = Some c ->
  RSI_MA_ComboStrategy.analyze s window = Some (signal, s') ->
  quotes signal c.
Proof.
  unfold RSI_MA_ComboStrategy.analyze. intros -> Hrun.
  break_matches Hrun; injection Hrun as <- <-; split; reflexivity.
Qed.

Lemma exitFor_quotes s cs current positionType position signal profit :
  ScalpingStrategy.exitFor s cs current positionType position
  = Some (signal, profit) ->
  quotes signal current.
Proof.
  unfold ScalpingStrategy.exitFor. intros Hrun.
  break_matches Hrun; injection Hrun as <- <-; split; reflexivity.
Qed.

Lemma exitLoop_quotes s cs current entries :
  quotes (fst (ScalpingStrategy.exitLoop s cs current entries)) current.
Proof.
  induction entries as [|[positionType position] entries IH]; simpl.
  - split; reflexivity.
  - destruct (ScalpingStrategy.exitFor s cs current positionType position)
      as [[signal profit]|] eqn:E; [|exact IH].
    simpl. eapply exitFor_quotes. exact E.
Qed.

Lemma instant_quotes s cs signal s' c :
  lastOf cs = Some c ->
  ScalpingStrategy.getInstantScalpSignal s cs = Some (signal, s') ->
  quotes signal c.
Proof.
  unfold ScalpingStrategy.getInstantScalpSignal.
  rewrite fromEnd_one_is_last. intros -> Hrun.
  break_matches Hrun; injection Hrun as <- <-; split; reflexivity.
Qed.

Lemma entry_quotes s cs signal s' c :
  lastOf cs = Some c ->
  ScalpingStrategy.checkEntryConditions s cs = Some (signal, s') ->
  quotes signal c.
Proof.
  unfold ScalpingStrategy.checkEntryConditions.
  rewrite fromEnd_one_is_last. intros Hlast Hrun. rewrite Hlast in Hrun.
  destruct (0 <? length (ScalpingStrategy.positions s))%nat.
  { injection Hrun as <- <-. split; reflexivity. }
  destruct (ScalpingStrategy.getInstantScalpSignal s cs)
    as [[instant s1]|] eqn:Ei; [|discriminate].
  apply (instant_quotes _ _ _ _ _ Hlast) in Ei.
  break_matches Hrun; injection Hrun as <- <-; try exact Ei;
    split; reflexivity.
Qed.

Lemma scalping_quotes s window signal s' c :
  lastOf window = Some c ->
  ScalpingStrategy.analyze s window = Some (signal, s') ->
  quotes signal c.
Proof.
  unfold ScalpingStrategy.analyze, ScalpingStrategy.checkExitConditions.
  rewrite fromEnd_one_is_last. intros Hlast Hrun. rewrite Hlast in Hrun.
  destruct (length window <? ScalpingStrategy.volatilityPeriod s + 5)%nat.
  { injection Hrun as <- <-. split; reflexivity. }
  match type of Hrun with
  | context [ScalpingStrategy.exitLoop ?a ?b ?c ?d] =>
      assert (Hexit := exitLoop_quotes a b c d);
      destruct (ScalpingStrategy.exitLoop a b c d) as [exitSignal s3]
  end.
  simpl in Hexit.
  destruct (negb (SignalType_eqb (Signal.type exitSignal) HOLD)).
  - injection Hrun as <- <-. exact Hexit.
  - eapply entry_quotes; [exact Hlast|exact Hrun].
Qed.

Lemma any_quotes sqrt s window signal s' c :
  lastOf window = Some c ->
  anyAnalyze sqrt s window = Some (signal, s') ->
  quotes signal c.
Proof.
  intros Hlast Hrun. destruct s as [s|s|s|s|s|s]; simpl in Hrun;
    match type of Hrun with
    | lift _ ?r = _ =>
        destruct r as [[signal0 s0]|] eqn:E; [|discriminate];
        injection Hrun as <- <-
    end.
  - eapply crossover_quotes; eassumption.
  - eapply rsi_quotes; eassumption.
  - eapply bollinger_quotes; eassumption.
  - eapply macd_quotes; eassumption.
  - eapply combo_quotes; eassumption.
  - eapply scalping_quotes; eassumption.
Qed.

Lemma any_quotes_last sqrt s window signal s' :
  anyAnalyze sqrt s window = Some (signal, s') ->
  exists c, lastOf window = Some c /\ quotes signal c.
Proof.
  intros Hrun. destruct (lastOf window) as [c|] eqn:Hlast.
  - exists c. split; [reflexivity|]. exact (any_quotes _ _ _ _ _ _ Hlast Hrun).
  - exfalso. destruct window; [|discriminate].
    destruct s as [s|s|s|s|s|s]; simpl in Hrun; discriminate.
Qed.

(** X5. Whatever signal one of the six strategies returns, HOLD or not, its
    price is the close of the last candle of the window and its timestamp
    is that candle's: the backtester trades at the close of the candle it
    has just shown. *)
Theorem signal_quotes_last_candle (sqrt : Q -> Q) (s : AnyStrategy)
  (window : list Candle.t) (signal : Signal.t) (s' : AnyStrategy) :
  anyAnalyze sqrt s window = Some (signal, s') ->
  exists c,
    lastOf window = Some c
    /\ Signal.price signal = Candle.close c
    /\ Signal.timestamp signal = Candle.timestamp c.
Proof.
  intros Hrun. exact (any_quotes_last sqrt s window signal s' Hrun).
Qed.

(** The SELL of the crossover on three falling closes is made at the last
    close, 1. *)
Lemma signal_quotes_last_candle_witness :
  exists signal s' c,
    anyAnalyze sqrtQ (Crossover (MovingAverageCrossover.create 1 3))
               Examples.fallingThree
    = Some (signal, s')
    /\ Signal.type signal = SELL
    /\ lastOf Examples.fallingThree = Some c
    /\ Signal.price signal = Candle.close c
    /\ Signal.timestamp signal = Candle.timestamp c.
Proof.
  eexists; eexists.
  match goal with
  | |- exists c, ?R /\ _ => assert (Hrun : R) by (vm_compute; reflexivity)
  end.
  destruct (signal_quotes_last_candle _ _ _ _ _ Hrun) as [c [Hlast Hq]].
  exists c. split; [exact Hrun|]. split; [reflexivity|].
  split; [exact Hlast|exact Hq].
Defined.

End StampFacts.

(** * A series that ends before the loop starts *)

Module RangeFacts.
Import Backtester BacktesterSpec BacktesterFacts LoopFacts LedgerFacts.
Import MetricsFacts LedgerShape AccountFacts StrategySpec Examples.

(** X7. A series that is not longer than the start index is not an error:
    the loop body never runs, the strategy is not consulted, and the result
    is empty, with no trade and all figures 0. *)
Theorem backtest_of_short_series {St : Type} `{Strategy St}
  (b : t) (strategy : St) (candles : list Candle.t) :
  (length candles <= startIndex strategy)%nat ->
  ~ initialBalance b == 0 ->
  exists result,
    backtest b strategy candles = Some (result, reset b, strategy)
    /\ totalTrades result = 0%nat
    /\ resultTrades result = []
    /\ winRate result == 0
    /\ totalReturn result == 0
    /\ maxDrawdown result == 0.
Proof.
  intros Hshort Hinit. unfold backtest.
  assert (Hloop : forall fuel st,
             loopFrom fuel candles (startIndex strategy) st = Some st).
  { intros fuel st.
    destruct fuel; simpl;
      replace (startIndex strategy <? length candles)%nat with false
        by (symmetry; apply Nat.ltb_ge; exact Hshort);
      reflexivity. }
  rewrite Hloop. unfold closeRemaining. simpl.
  eexists. split; [reflexivity|].
  unfold calculateResults. simpl.
  split; [reflexivity|]. split; [reflexivity|]. split; [reflexivity|].
  split; field; exact Hinit.
Qed.

(** Twenty candles under the RSI strategy, whose loop starts at the default
    index 20. *)
Lemma backtest_of_short_series_witness :
  (length (tenCandles ++ tenCandles)
   <= startIndex (RSIStrategy.create 14 30 70))%nat
  /\ ~ initialBalance (create 10000) == 0
  /\ exists result,
       backtest (create 10000) (RSIStrategy.create 14 30 70)
                (tenCandles ++ tenCandles)
       = Some (result, reset (create 10000), RSIStrategy.create 14 30 70)
       /\ totalTrades result = 0%nat
       /\ resultTrades result = []
       /\ winRate result == 0
       /\ totalReturn result == 0
       /\ maxDrawdown result == 0.
Proof.
  assert (Hshort : (length (tenCandles ++ tenCandles)
                    <= startIndex (RSIStrategy.create 14 30 70))%nat)
    by (vm_compute; lia).
  assert (Hinit : ~ initialBalance (create 10000) == 0) by (simpl; lra).
  split; [exact Hshort|]. split; [exact Hinit|].
  exact (backtest_of_short_series (create 10000)
           (RSIStrategy.create 14 30 70) (tenCandles ++ tenCandles)
           Hshort Hinit).
Defined.

End RangeFacts.

(** * The positions and the recent trades of the scalping strategy *)

Module ScalpingFacts.
Import ScalpingStrategy StrategySpec SignalShape ArrayFacts.

Lemma exitFor_type s cs current positionType position signal profit :
  exitFor s cs current positionType position = Some (signal, profit) ->
  Signal.type signal = exitType (PositionType_eqb positionType LONG).
Proof.
  unfold exitFor. intros Hrun.
  break_matches Hrun; injection Hrun as <- <-; reflexivity.
Qed.

(** With one entry in the map, the exit check closes it or leaves
    everything as it is. *)
Lemma exitLoop_one s cs current positionType position :
  positions s = [(positionType, position)] ->
  (Signal.type (fst (exitLoop s cs current (positions s))) = HOLD
   /\ snd (exitLoop s cs current (positions s)) = s)
  \/ (Signal.type (fst (exitLoop s cs current (positions s)))
      = exitType (PositionType_eqb positionType LONG)
      /\ positions (snd (exitLoop s cs current (positions s))) = []).
Proof.
  intros Hp. rewrite Hp. simpl.
  destruct (exitFor s cs current positionType position)
    as [[signal profit]|] eqn:E.
  - right. simpl. split; [eapply exitFor_type; exact E|].
    rewrite Hp. simpl. destruct positionType; reflexivity.
  - left. split; reflexivity.
Qed.

Lemma instant_toggles s cs signal s' :
  positions s = [] ->
  getInstantScalpSignal s cs = Some (signal, s') ->
  (length (positions s') <= 1)%nat
  /\ toggles None signal (openEntry s')
  /\ (Signal.type signal = HOLD -> s' = s).
Proof.
  unfold getInstantScalpSignal, toggles, openEntry. intros Hp Hrun.
  break_matches Hrun; injection Hrun as <- <-; simpl in *; try discriminate;
    rewrite ?Hp; simpl.
  all: try (split; [lia|]; split; [right; split; [discriminate|reflexivity]
                                  |discriminate]).
  all: split; [lia|]; split; [left; now split|reflexivity].
Qed.

Lemma entry_toggles s cs signal s' :
  positions s = [] ->
  checkEntryConditions s cs = Some (signal, s') ->
  (length (positions s') <= 1)%nat /\ toggles None signal (openEntry s').
Proof.
  unfold checkEntryConditions. intros Hp Hrun.
  destruct (fromEnd 1 cs) as [current|]; [|discriminate].
  rewrite Hp in Hrun. simpl in Hrun.
  destruct (getInstantScalpSignal s cs) as [[instant s1]|] eqn:Ei;
    [|discriminate].
  destruct (instant_toggles _ _ _ _ Hp Ei) as [Hlen [Htog Hsame]].
  destruct (negb (SignalType_eqb (Signal.type instant) HOLD)) eqn:Eh.
  - injection Hrun as <- <-. now split.
  - apply negb_false_iff, SignalType_eqb_eq in Eh. specialize (Hsame Eh).
    subst s1.
    unfold toggles, openEntry.
    break_matches Hrun; injection Hrun as <- <-; simpl in *;
      try discriminate; rewrite ?Hp; simpl.
    all: try (split; [lia|]; right; split; [discriminate|reflexivity]).
    all: split; [lia|]; left; now split.
Qed.

Lemma updatePositions_keys s :
  map fst (positions (updatePositions s)) = map fst (positions s).
Proof.
  unfold updatePositions. simpl. rewrite map_map. reflexivity.
Qed.

Lemma openEntry_keys s1 s2 :
  map fst (positions s1) = map fst (positions s2) ->
  openEntry s1 = openEntry s2
  /\ length (positions s1) = length (positions s2).
Proof.
  intros Hk. split.
  - unfold openEntry.
    destruct (positions s1) as [|[k1 p1] r1], (positions s2) as [|[k2 p2] r2];
      try discriminate; [reflexivity|].
    simpl in Hk. injection Hk as -> _. reflexivity.
  - now rewrite <- (length_map fst (positions s1)), Hk, length_map.
Qed.

(** One call: at most one position stays open, and the signal toggles the
    open entry. *)
Lemma analyze_toggles s window signal s' :
  (length (positions s) <= 1)%nat ->
  analyze s window = Some (signal, s') ->
  (length (positions s') <= 1)%nat
  /\ toggles (openEntry s) signal (openEntry s').
Proof.
  unfold analyze, checkExitConditions. intros Hlen Hrun.
  destruct (lastOf window) as [current|]; [|discriminate].
  destruct (length window <? volatilityPeriod s + 5)%nat.
  { injection Hrun as <- <-. split; [exact Hlen|]. left. now split. }
  destruct (fromEnd 1 window) as [c|]; [|discriminate].
  set (s2 := cleanOldTrades (updatePositions s) (Candle.timestamp current))
    in *.
  assert (Hkeys : map fst (positions s2) = map fst (positions s))
    by (unfold s2; simpl; rewrite map_map; reflexivity).
  destruct (openEntry_keys _ _ Hkeys) as [Hopen Hsame].
  rewrite <- Hopen. rewrite <- Hsame in Hlen. clearbody s2. clear Hkeys Hopen.
  destruct (positions s2) as [|[positionType position] rest] eqn:Hp.
  - simpl in Hrun. eapply entry_toggles in Hrun; [|exact Hp].
    unfold openEntry at 1. rewrite Hp. exact Hrun.
  - destruct rest; [|simpl in Hlen; lia].
    destruct (exitLoop_one s2 window c positionType position Hp)
      as [[Hhold Hs]|[Hexit Hs]]; rewrite Hp in *;
      destruct (exitLoop s2 window c [(positionType, position)])
        as [exitSignal s3]; simpl in Hhold || simpl in Hexit; simpl in Hs.
    + subst s3. rewrite Hhold in Hrun. simpl in Hrun.
      unfold checkEntryConditions in Hrun.
      destruct (fromEnd 1 window) as [c'|]; [|discriminate].
      rewrite Hp in Hrun. simpl in Hrun. injection Hrun as <- <-.
      rewrite Hp. split; [simpl; lia|]. left. now split.
    + assert (Hfired : Signal.type exitSignal <> HOLD)
        by (rewrite Hexit; destruct positionType; discriminate).
      destruct (negb (SignalType_eqb (Signal.type exitSignal) HOLD)) eqn:Eh.
      2:{ apply negb_false_iff, SignalType_eqb_eq in Eh. contradiction. }
      injection Hrun as <- <-. rewrite Hs. split; [simpl; lia|].
      right. unfold openEntry. rewrite Hp, Hs.
      destruct positionType; now split.
Qed.

Lemma scalpingAfter_one s windows :
  (length (positions s) <= 1)%nat ->
  (length (positions (scalpingAfter s windows)) <= 1)%nat.
Proof.
  revert s. induction windows as [|w windows IH]; intros s Hlen;
    [exact Hlen|].
  simpl. destruct (analyze s w) as [[signal s1]|] eqn:E.
  - apply IH. now apply (analyze_toggles s w signal s1).
  - now apply IH.
Qed.

Lemma openEntry_fired s : openEntry s <> Some HOLD.
Proof.
  unfold openEntry. destruct (positions s) as [|[[|] p] r]; discriminate.
Qed.

Lemma pairs_after s windows sqrt :
  (length (positions s) <= 1)%nat ->
  pairsFrom (openEntry s)
            (firedTypes (anySignalsOf sqrt (Scalping s) windows)).
Proof.
  revert s. induction windows as [|w windows IH]; intros s Hlen;
    [exact I|].
  simpl. destruct (analyze s w) as [[signal s1]|] eqn:E; simpl.
  - destruct (analyze_toggles s w signal s1 Hlen E) as [Hlen1 Htog].
    specialize (IH s1 Hlen1).
    destruct Htog as [[Hhold Hsame]|Htog].
    + rewrite Hhold. now rewrite <- Hsame.
    + assert (Hentry := openEntry_fired s).
      destruct (openEntry s) as [entry|].
      * destruct Htog as [Hexit Hnone]. rewrite Hnone in IH.
        destruct (Signal.type signal) eqn:Et; simpl.
        -- now split.
        -- now split.
        -- destruct entry; try discriminate. congruence.
      * destruct Htog as [Hfired Hsome]. rewrite Hsome in IH.
        destruct (Signal.type signal) eqn:Et; simpl.
        -- split; [discriminate|exact IH].
        -- split; [discriminate|exact IH].
        -- contradiction.
  - now apply IH.
Qed.

(** X8. Over any sequence of calls, an instance of the scalping strategy
    that holds at most one position (a new instance holds none) never holds
    more than one, and its signals that are not HOLD come in pairs: an
    entry, then the exit of the opposite type.  A BUY that opens a long is
    answered by the SELL that closes it before any new entry, and a SELL
    that opens a short by a BUY. *)
Theorem scalping_signals_pair_up (sqrt : Q -> Q) (s : ScalpingStrategy.t)
  (windows : list (list Candle.t)) :
  (length (positions s) <= 1)%nat ->
  (length (positions (scalpingAfter s windows)) <= 1)%nat
  /\ pairsFrom (openEntry s)
       (firedTypes (anySignalsOf sqrt (Scalping s) windows)).
Proof.
  intros Hlen. split; [now apply scalpingAfter_one|now apply pairs_after].
Qed.

(** The run of [scalpCandles]: the BUY that opens a long, the SELL that
    closes it, and the SELL that opens a short, which is still open. *)
Lemma scalping_signals_pair_up_witness :
  (length (positions (create 0.02 1.5 0.15 5 10 0.1)) <= 1)%nat
  /\ firedTypes
       (anySignalsOf sqrtQ (Scalping (create 0.02 1.5 0.15 5 10 0.1))
          (growingWindows Examples.scalpCandles 14))
     = [BUY; SELL; SELL]
  /\ map fst
       (positions
          (scalpingAfter (create 0.02 1.5 0.15 5 10 0.1)
             (growingWindows Examples.scalpCandles 14)))
     = [SHORT]
  /\ entryExitPairs
       (firedTypes
          (anySignalsOf sqrtQ (Scalping (create 0.02 1.5 0.15 5 10 0.1))
             (growingWindows Examples.scalpCandles 14))).
Proof.
  assert (Hlen : (length (positions (create 0.02 1.5 0.15 5 10 0.1))
                  <= 1)%nat) by (simpl; lia).
  split; [exact Hlen|]. split; [vm_compute; reflexivity|].
  split; [vm_compute; reflexivity|].
  exact (proj2 (scalping_signals_pair_up sqrtQ
                  (create 0.02 1.5 0.15 5 10 0.1)
                  (growingWindows Examples.scalpCandles 14) Hlen)).
Defined.

(** ** Recent trades *)

Lemma exitLoop_recent s cs current entries :
  recentTrades (snd (exitLoop s cs current entries)) = recentTrades s
  \/ exists profit,
       recentTrades (snd (exitLoop s cs current entries))
       = recentTrades s ++ [mkRecentTrade (Candle.timestamp current) profit].
Proof.
  induction entries as [|[positionType position] entries IH]; simpl.
  - now left.
  - destruct (exitFor s cs current positionType position)
      as [[signal profit]|]; [|exact IH].
    right. exists profit. reflexivity.
Qed.

Lemma instant_recent s cs signal s' :
  getInstantScalpSignal s cs = Some (signal, s') ->
  recentTrades s' = recentTrades s.
Proof.
  unfold getInstantScalpSignal. intros Hrun.
  break_matches Hrun; injection Hrun as <- <-; reflexivity.
Qed.

Lemma entry_recent s cs signal s' :
  checkEntryConditions s cs = Some (signal, s') ->
  recentTrades s' = recentTrades s.
Proof.
  unfold checkEntryConditions. intros Hrun.
  destruct (fromEnd 1 cs) as [current|]; [|discriminate].
  destruct (0 <? length (positions s))%nat.
  { now injection Hrun as <- <-. }
  destruct (getInstantScalpSignal s cs) as [[instant s1]|] eqn:Ei;
    [|discriminate].
  apply instant_recent in Ei. rewrite <- Ei.
  break_matches Hrun; injection Hrun as <- <-; reflexivity.
Qed.

(** The figures of [getRecentPerformance]: the number of recent trades, and
    a win rate that is a fraction. *)
Lemma performance_in_range s :
  performanceTrades (getRecentPerformance s) = length (recentTrades s)
  /\ 0 <= performanceWinRate (getRecentPerformance s) <= 1.
Proof.
  unfold getRecentPerformance.
  destruct (length (recentTrades s) =? 0)%nat eqn:En.
  - apply Nat.eqb_eq in En. rewrite En. simpl. split; [reflexivity|lra].
  - apply Nat.eqb_neq in En. simpl. split; [reflexivity|].
    set (wins := filter (fun trade => Num.gt (profit trade) 0)
                        (recentTrades s)).
    assert (Hn : 0 < Num.ofNat (length (recentTrades s)))
      by (apply ofNat_pos; lia).
    assert (Hw0 := ofNat_nonneg (length wins)).
    assert (Hwn : Num.ofNat (length wins)
                  <= Num.ofNat (length (recentTrades s))).
    { unfold Num.ofNat. rewrite <- Zle_Qle.
      apply inj_le. apply filter_length_le. }
    split; [apply div_nonneg; lra|]. apply Qle_shift_div_r; lra.
Qed.

(** X9. After a call past the warm-up, the recent trades of the scalping
    strategy are all less than one hour older than the candle just
    analysed: each call drops the older ones before it records an exit.
    [getRecentPerformance] then counts those trades, and its win rate is
    a fraction between 0 and 1. *)
Theorem recent_trades_within_the_hour (s : ScalpingStrategy.t)
  (window : list Candle.t) (signal : Signal.t) (s' : ScalpingStrategy.t)
  (c : Candle.t) :
  lastOf window = Some c ->
  (volatilityPeriod s + 5 <= length window)%nat ->
  analyze s window = Some (signal, s') ->
  Forall (fun trade =>
            (Candle.timestamp c - 3600000 < tradeTimestamp trade)%Z)
         (recentTrades s')
  /\ performanceTrades (getRecentPerformance s') = length (recentTrades s')
  /\ 0 <= performanceWinRate (getRecentPerformance s') <= 1.
Proof.
  intros Hlast Hlong Hrun. split; [|apply performance_in_range].
  unfold analyze, checkExitConditions in Hrun.
  rewrite StampFacts.fromEnd_one_is_last, Hlast in Hrun.
  replace (length window <? volatilityPeriod s + 5)%nat with false in Hrun
    by (symmetry; apply Nat.ltb_ge; exact Hlong).
  set (s2 := cleanOldTrades (updatePositions s) (Candle.timestamp c)) in *.
  assert (Hclean :
            Forall (fun trade =>
                      (Candle.timestamp c - 3600000 < tradeTimestamp trade)%Z)
                   (recentTrades s2)).
  { unfold s2. simpl. apply Forall_forall. intros trade Hin.
    apply filter_In in Hin. destruct Hin as [_ Hin].
    now apply Z.ltb_lt in Hin. }
  clearbody s2.
  assert (Hexit := exitLoop_recent s2 window c (positions s2)).
  destruct (exitLoop s2 window c (positions s2)) as [exitSignal s3].
  simpl in Hexit.
  assert (Hs3 :
            Forall (fun trade =>
                      (Candle.timestamp c - 3600000 < tradeTimestamp trade)%Z)
                   (recentTrades s3)).
  { destruct Hexit as [->|[profit ->]]; [exact Hclean|].
    apply Forall_app. split; [exact Hclean|].
    constructor; [simpl; lia|constructor]. }
  destruct (negb (SignalType_eqb (Signal.type exitSignal) HOLD)).
  - now injection Hrun as <- <-.
  - apply entry_recent in Hrun. now rewrite Hrun.
Qed.

(** The third call of the run of [scalpCandles] closes the long that the
    second opened: one recent trade, a win. *)
Lemma recent_trades_within_the_hour_witness :
  exists signal s' c,
    lastOf (slicePrefix 16 Examples.scalpCandles) = Some c
    /\ (volatilityPeriod
          (scalpingAfter (create 0.02 1.5 0.15 5 10 0.1)
             [slicePrefix 15 Examples.scalpCandles])
        + 5 <= length (slicePrefix 16 Examples.scalpCandles))%nat
    /\ analyze (scalpingAfter (create 0.02 1.5 0.15 5 10 0.1)
                  [slicePrefix 15 Examples.scalpCandles])
               (slicePrefix 16 Examples.scalpCandles)
       = Some (signal, s')
    /\ Signal.type signal = SELL
    /\ performanceTrades (getRecentPerformance s') = 1%nat
    /\ performanceWinRate (getRecentPerformance s') == 1
    /\ Forall (fun trade =>
                 (Candle.timestamp c - 3600000 < tradeTimestamp trade)%Z)
              (recentTrades s').
Proof.
  eexists; eexists; eexists.
  match goal with
  | |- ?L /\ _ => assert (Hlast : L) by (vm_compute; reflexivity)
  end.
  split; [exact Hlast|].
  match goal with
  | |- ?L /\ _ => assert (Hlong : L) by (vm_compute; lia)
  end.
  split; [exact Hlong|].
  match goal with
  | |- ?R /\ _ => assert (Hrun : R) by (vm_compute; reflexivity)
  end.
  split; [exact Hrun|]. split; [reflexivity|].
  split; [vm_compute; reflexivity|]. split; [vm_compute; reflexivity|].
  exact (proj1 (recent_trades_within_the_hour _ _ _ _ _ Hlast Hlong Hrun)).
Defined.

End ScalpingFacts.

(** * The comparison of strategies *)

Module ComparatorFacts.
Import StrategyComparator ComparatorShape StrategySpec.

(** ** A call of [analyze] leaves the name and the parameters *)

Lemma exitLoop_parameters s cs current entries :
  getParameters
    (Scalping (snd (ScalpingStrategy.exitLoop s cs current entries)))
  = getParameters (Scalping s).
Proof.
  induction entries as [|[positionType position] entries IH]; simpl;
    [reflexivity|].
  destruct (ScalpingStrategy.exitFor s cs current positionType position)
    as [[signal profit]|]; [reflexivity|exact IH].
Qed.

Lemma instant_parameters s cs signal s' :
  ScalpingStrategy.getInstantScalpSignal s cs = Some (signal, s') ->
  getParameters (Scalping s') = getParameters (Scalping s).
Proof.
  unfold ScalpingStrategy.getInstantScalpSignal. intros Hrun.
  break_matches Hrun; injection Hrun as <- <-; reflexivity.
Qed.

Lemma entry_parameters s cs signal s' :
  ScalpingStrategy.checkEntryConditions s cs = Some (signal, s') ->
  getParameters (Scalping s') = getParameters (Scalping s).
Proof.
  unfold ScalpingStrategy.checkEntryConditions. intros Hrun.
  destruct (fromEnd 1 cs) as [current|]; [|discriminate].
  destruct (0 <? length (ScalpingStrategy.positions s))%nat.
  { now injection Hrun as <- <-. }
  destruct (ScalpingStrategy.getInstantScalpSignal s cs)
    as [[instant s1]|] eqn:Ei; [|discriminate].
  apply instant_parameters in Ei. rewrite <- Ei.
  break_matches Hrun; injection Hrun as <- <-; reflexivity.
Qed.

Lemma scalping_parameters s window signal s' :
  ScalpingStrategy.analyze s window = Some (signal, s') ->
  getParameters (Scalping s') = getParameters (Scalping s).
Proof.
  unfold ScalpingStrategy.analyze, ScalpingStrategy.checkExitConditions.
  intros Hrun.
  destruct (lastOf window) as [current|]; [|discriminate].
  destruct (length window <? ScalpingStrategy.volatilityPeriod s + 5)%nat.
  { now injection Hrun as <- <-. }
  destruct (fromEnd 1 window) as [c|]; [|discriminate].
  match type of Hrun with
  | context [ScalpingStrategy.exitLoop ?a ?b ?c ?d] =>
      assert (Hexit := exitLoop_parameters a b c d);
      destruct (ScalpingStrategy.exitLoop a b c d) as [exitSignal s3]
  end.
  simpl snd in Hexit.
  destruct (negb (SignalType_eqb (Signal.type exitSignal) HOLD)).
  - injection Hrun as <- <-. exact Hexit.
  - apply entry_parameters in Hrun. rewrite Hrun. exact Hexit.
Qed.

Lemma analyze_keeps_parameters sqrt s window signal s' :
  anyAnalyze sqrt s window = Some (signal, s') ->
  getName s' = getName s /\ getParameters s' = getParameters s.
Proof.
  intros Hrun. destruct s as [s|s|s|s|s|s]; simpl in Hrun;
    match type of Hrun with
    | lift _ ?r = _ =>
        destruct r as [[signal0 s0]|] eqn:E; [|discriminate];
        injection Hrun as <- <-
    end; (split; [reflexivity|]).
  - unfold MovingAverageCrossover.analyze in E.
    break_matches E; injection E as <- <-; reflexivity.
  - unfold RSIStrategy.analyze in E.
    break_matches E; injection E as <- <-; reflexivity.
  - unfold BollingerBandsStrategy.analyze in E.
    break_matches E; injection E as <- <-; reflexivity.
  - unfold MACDStrategy.analyze in E.
    break_matches E; injection E as <- <-; reflexivity.
  - unfold RSI_MA_ComboStrategy.analyze in E.
    break_matches E; injection E as <- <-; reflexivity.
  - eapply scalping_parameters. exact E.
Qed.

Lemma loopFrom_keeps_parameters sqrt candles :
  forall fuel i strategy b strategy' b',
    @Backtester.loopFrom AnyStrategy (AnyStrategy_Strategy sqrt)
      fuel candles i (strategy, b) = Some (strategy', b') ->
    getName strategy' = getName strategy
    /\ getParameters strategy' = getParameters strategy.
Proof.
  induction fuel as [|fuel IH]; intros i strategy b strategy' b' Hrun;
    simpl in Hrun.
  - destruct (i <? length candles)%nat; [discriminate|].
    injection Hrun as <- _. now split.
  - destruct (i <? length candles)%nat.
    2:{ injection Hrun as <- _. now split. }
    unfold Backtester.loopBody in Hrun. simpl in Hrun.
    destruct (anyAnalyze sqrt strategy (slicePrefix (i + 1) candles))
      as [[signal s1]|] eqn:Ea; [|discriminate].
    apply analyze_keeps_parameters in Ea. destruct Ea as [Hn Hp].
    destruct (Backtester.shouldExecute signal).
    + destruct (nth_error candles i) as [candle|]; [|discriminate].
      apply IH in Hrun. destruct Hrun as [Hn' Hp'].
      split; [now rewrite Hn'|now rewrite Hp'].
    + apply IH in Hrun. destruct Hrun as [Hn' Hp'].
      split; [now rewrite Hn'|now rewrite Hp'].
Qed.

Lemma backtest_keeps_parameters sqrt b strategy candles result b' strategy' :
  @Backtester.backtest AnyStrategy (AnyStrategy_Strategy sqrt)
    b strategy candles = Some (result, b', strategy') ->
  getName strategy' = getName strategy
  /\ getParameters strategy' = getParameters strategy.
Proof.
  intros Hrun.
  apply (LoopFacts.backtest_inv (H := AnyStrategy_Strategy sqrt)) in Hrun.
  destruct Hrun as [_ [b1 [Hloop _]]].
  eapply loopFrom_keeps_parameters. exact Hloop.
Qed.

(** ** The loop of [compareStrategies] *)

Lemma deref_assign_other store ref ref' strategy :
  ref' <> ref -> deref (assign store ref strategy) ref' = deref store ref'.
Proof.
  unfold deref. revert ref ref'.
  induction store as [|x store IH]; intros ref ref' Hne; [reflexivity|].
  destruct ref as [|ref], ref' as [|ref']; simpl; try reflexivity;
    try congruence.
  apply IH. congruence.
Qed.

(** The loop over references that are all different: each instance is still
    in the state of [store0] when its turn comes. *)
Lemma compareLoop_distinct sqrt initialBalance candles store0 :
  forall strategies store comparisons,
    NoDup strategies ->
    (forall ref, In ref strategies -> deref store ref = deref store0 ref) ->
    Forall (fun ref => exists strategy,
                deref store0 ref = Some strategy /\ answers strategy)
           strategies ->
    exists added store',
      compareLoop sqrt initialBalance strategies candles store comparisons
      = Some (comparisons ++ added, store')
      /\ Forall2 (refTestedAlone sqrt initialBalance candles store0)
                 strategies added.
Proof.
  induction strategies as [|ref rest IH];
    intros store comparisons Hdistinct Hsame Hanswers; simpl.
  - exists [], store. rewrite app_nil_r. split; [reflexivity|constructor].
  - inversion Hdistinct as [|x r Hfresh Hrest]; subst.
    inversion Hanswers as [|x r [strategy [Href Hok]] Hothers]; subst.
    rewrite (Hsame ref (or_introl eq_refl)), Href.
    destruct (AnswerFacts.backtest_of_any_returns sqrt
                (Backtester.create initialBalance) strategy candles Hok)
      as [[[result b'] s1] Hrun].
    rewrite Hrun.
    destruct (IH (assign store ref s1)
                 (comparisons
                  ++ [mkComparison (getName s1) (getParameters s1) result])
                 Hrest) as [added [store' [Hloop Hadded]]].
    + intros ref' Hin. rewrite deref_assign_other.
      * apply Hsame. now right.
      * intros ->. contradiction.
    + exact Hothers.
    + exists (mkComparison (getName s1) (getParameters s1) result :: added),
             store'.
      rewrite Hloop, <- app_assoc. split; [reflexivity|].
      constructor; [|exact Hadded].
      exists strategy. split; [exact Href|].
      destruct (backtest_keeps_parameters _ _ _ _ _ _ _ Hrun) as [Hn Hp].
      split; [exact Hn|]. split; [exact Hp|]. now exists b', s1.
Qed.

(** The crossover with periods 1 and 2 on the closes 3, 2, 4, 5, 1, 6 fires
    BUY, SELL, BUY and is left with the latch BUY.  Listed twice, the one
    instance is tested the second time from that latch: its first BUY is
    not repeated, and the second comparison counts one trade where the
    instance tested alone makes two. *)
Lemma shared_instance_is_tested_from_its_latch :
  let store := [Crossover (MovingAverageCrossover.create 1 2)] in
  let candles := Examples.upThenDown ++ [Examples.flatCandle 360000 6] in
  option_map (fun r => map (fun c => totalTrades (results c)) (fst r))
             (compareStrategies sqrtQ 10000 store [0; 0]%nat candles)
  = Some [2; 1]%nat
  /\ option_map (fun r => map (fun c => totalTrades (results c)) (fst r))
                (compareStrategies sqrtQ 10000 store [0]%nat candles)
     = Some [2]%nat.
Proof. split; vm_compute; reflexivity. Qed.

(** X12. [compareStrategies] throws on an empty list of strategies: the
    reductions of [printBestPerformers] have no initial value.  On a
    non-empty list of strategy instances that are all different and whose
    [analyze] returns (any of the six made with whole periods, a MACD
    strategy with fast and slow periods of at least 1) it returns one
    comparison for each strategy, in the order given, each with the name
    and the parameters of its strategy and the result that the strategy
    gives when tested alone with a new backtester on the initial balance. *)
Theorem compareStrategies_tests_each_alone (sqrt : Q -> Q)
  (initialBalance : Q) (store : Store) (strategies : list nat)
  (candles : list Candle.t) :
  NoDup strategies ->
  Forall (fun ref => exists strategy,
              deref store ref = Some strategy /\ answers strategy)
         strategies ->
  (strategies = [] ->
   compareStrategies sqrt initialBalance store strategies candles = None)
  /\ (strategies <> [] ->
      exists comparisons store',
        compareStrategies sqrt initialBalance store strategies candles
        = Some (comparisons, store')
        /\ Forall2 (refTestedAlone sqrt initialBalance candles store)
                   strategies comparisons).
Proof.
  intros Hdistinct Hs. split.
  - intros ->. reflexivity.
  - intros Hne. unfold compareStrategies.
    destruct (compareLoop_distinct sqrt initialBalance candles store
                strategies store [] Hdistinct (fun _ _ => eq_refl) Hs)
      as [all [store' [Hloop Hall]]].
    rewrite Hloop. simpl.
    assert (Hne' : all <> []).
    { intros ->. inversion Hall. congruence. }
    unfold printBestPerformers, bestReturn, bestWinRate, mostTrades.
    destruct all as [|first others]; [congruence|]. simpl.
    exists (first :: others), store'. split; [reflexivity|exact Hall].
Qed.

(** Two strategies on five candles: two comparisons, in the order given,
    the first with no trade at all. *)
Lemma compareStrategies_tests_each_alone_witness :
  let store := [construct (NewRsi 14 30 70); construct (NewCrossover 1 2)] in
  exists comparisons store',
    compareStrategies sqrtQ 10000 store [0; 1]%nat Examples.upThenDown
    = Some (comparisons, store')
    /\ map strategyName comparisons
       = ["RSI Strategy"%string; "Moving Average Crossover"%string]
    /\ map (fun c => totalTrades (results c)) comparisons = [0; 1]%nat
    /\ Forall2 (refTestedAlone sqrtQ 10000 Examples.upThenDown store)
               [0; 1]%nat comparisons.
Proof.
  intros store.
  assert (Hdistinct : NoDup [0; 1]%nat).
  { repeat constructor; simpl; intuition discriminate. }
  assert (Hs : Forall (fun ref => exists strategy,
                           deref store ref = Some strategy
                           /\ answers strategy)
                      [0; 1]%nat).
  { repeat constructor; eexists; (split; [reflexivity|exact I]). }
  destruct (proj2 (compareStrategies_tests_each_alone sqrtQ 10000 store
                     [0; 1]%nat Examples.upThenDown Hdistinct Hs)
                  ltac:(discriminate))
    as [comparisons [store' [Hrun Hall]]].
  exists comparisons, store'. split; [exact Hrun|].
  assert (Hval :
            option_map
              (fun r => (map strategyName (fst r),
                         map (fun c => totalTrades (results c)) (fst r)))
              (compareStrategies sqrtQ 10000 store [0; 1]%nat
                 Examples.upThenDown)
            = Some (["RSI Strategy"%string;
                     "Moving Average Crossover"%string], [0; 1]%nat))
    by (vm_compute; reflexivity).
  rewrite Hrun in Hval. simpl in Hval. injection Hval as Hnames Htrades.
  split; [exact Hnames|]. split; [exact Htrades|exact Hall].
Defined.

(** ** The best performers *)

Lemma fold_first_maximum {A} (key : A -> Q) (better : A -> A -> bool) :
  (forall current best, better current best = true -> key best < key current) ->
  (forall current best,
     better current best = false -> key current <= key best) ->
  forall rest before best after,
    Forall (fun x => key x < key best) before ->
    Forall (fun x => key x <= key best) after ->
    firstMaximumBy key
      (fold_left (fun best current =>
                    if better current best then current else best)
                 rest best)
      (before ++ best :: after ++ rest).
Proof.
  intros Hyes Hno. induction rest as [|current rest IH];
    intros before best after Hbefore Hafter.
  - rewrite app_nil_r. now exists before, after.
  - cbn [fold_left]. destruct (better current best) eqn:Eb.
    + apply Hyes in Eb.
      replace (before ++ best :: after ++ current :: rest)
        with ((before ++ best :: after) ++ current :: [] ++ rest)
        by (rewrite <- app_assoc; reflexivity).
      apply IH; [|constructor].
      apply Forall_app. split.
      * eapply Forall_impl; [|exact Hbefore]. intros x Hx. simpl in Hx. lra.
      * constructor; [exact Eb|].
        eapply Forall_impl; [|exact Hafter]. intros x Hx. simpl in Hx. lra.
    + apply Hno in Eb.
      replace (before ++ best :: after ++ current :: rest)
        with (before ++ best :: (after ++ [current]) ++ rest)
        by (rewrite <- app_assoc; reflexivity).
      apply IH; [exact Hbefore|].
      apply Forall_app. split; [exact Hafter|]. now constructor.
Qed.

Lemma reduce_first_maximum {A} (key : A -> Q) (better : A -> A -> bool) :
  (forall current best, better current best = true -> key best < key current) ->
  (forall current best,
     better current best = false -> key current <= key best) ->
  forall all best,
    reduce (fun best current =>
              if better current best then current else best) all
    = Some best ->
    firstMaximumBy key best all.
Proof.
  intros Hyes Hno all best Hrun. destruct all as [|first rest];
    [discriminate|].
  simpl in Hrun. injection Hrun as <-.
  apply (fold_first_maximum key better Hyes Hno rest [] first []);
    constructor.
Qed.

(** X13. The three winners that [printBestPerformers] names are the first
    maxima of the list: the comparison with the highest total return, the
    one with the highest win rate and the one with the most trades, and
    among equals the one that comes first.  Nothing is named for an empty
    list, where the reduction throws. *)
Theorem best_performers_are_first_maxima
  (comparisons : list StrategyComparison) :
  (comparisons = [] -> printBestPerformers comparisons = None)
  /\ (comparisons <> [] ->
      exists byReturn byWinRate byTrades,
        printBestPerformers comparisons
        = Some (byReturn, byWinRate, byTrades)
        /\ firstMaximumBy returnOf byReturn comparisons
        /\ firstMaximumBy winRateOf byWinRate comparisons
        /\ firstMaximumBy tradesOf byTrades comparisons).
Proof.
  split; [now intros ->|]. intros Hne. unfold printBestPerformers.
  destruct (bestReturn comparisons) as [byReturn|] eqn:Er.
  2:{ destruct comparisons; [congruence|discriminate]. }
  destruct (bestWinRate comparisons) as [byWinRate|] eqn:Ew.
  2:{ destruct comparisons; [congruence|discriminate]. }
  destruct (mostTrades comparisons) as [byTrades|] eqn:Et.
  2:{ destruct comparisons; [congruence|discriminate]. }
  exists byReturn, byWinRate, byTrades. split; [reflexivity|].
  split; [|split].
  - apply (reduce_first_maximum returnOf
             (fun current best =>
                Num.gt (totalReturn (results current))
                       (totalReturn (results best)))); [| |exact Er];
      intros current best Hb; unfold returnOf; num_facts; exact Hb.
  - apply (reduce_first_maximum winRateOf
             (fun current best =>
                Num.gt (winRate (results current)) (winRate (results best))));
      [| |exact Ew];
      intros current best Hb; unfold winRateOf; num_facts; exact Hb.
  - apply (reduce_first_maximum tradesOf
             (fun current best =>
                (totalTrades (results best)
                 <? totalTrades (results current))%nat)); [| |exact Et];
      intros current best Hb; unfold tradesOf, Num.ofNat.
    + apply Nat.ltb_lt in Hb. rewrite <- Zlt_Qlt. lia.
    + apply Nat.ltb_ge in Hb. rewrite <- Zle_Qle. lia.
Qed.

End ComparatorFacts.

(** * The paper-trading account *)

Module DemoTraderFacts.
Import DemoTrader DemoSession.

(** The guards of the two orders. *)
Lemma buy_accepted d symbol price now :
  10 <= balance d * 0.95 ->
  exists position,
    demoMarketBuy d symbol price now
    = (true,
       mk (balance d - balance d * 0.95)
          (StringMap.set symbol position (positions d))
          (trades d
           ++ [DemoTrade.mk symbol TradeBUY (balance d * 0.95 / price) price
                            now (balance d * 0.95)])
          (initialBalance d))
    /\ DemoPosition.symbol position = symbol
    /\ match StringMap.get symbol (positions d) with
       | Some existing =>
           DemoPosition.quantity position
           = DemoPosition.quantity existing + balance d * 0.95 / price
           /\ DemoPosition.averagePrice position
              = (DemoPosition.quantity existing
                 * DemoPosition.averagePrice existing
                 + balance d * 0.95 / price * price)
                / (DemoPosition.quantity existing
                   + balance d * 0.95 / price)
       | None =>
           DemoPosition.quantity position = balance d * 0.95 / price
           /\ DemoPosition.averagePrice position = price
       end.
Proof.
  intros Hten. unfold demoMarketBuy.
  replace (Num.lt (balance d * 0.95) 10) with false
    by (symmetry; apply NumFacts.lt_false; exact Hten).
  eexists. split; [reflexivity|].
  destruct (StringMap.get symbol (positions d)); simpl; auto.
Qed.

Lemma buy_refused d symbol price now :
  balance d * 0.95 < 10 -> demoMarketBuy d symbol price now = (false, d).
Proof.
  intros Hten. unfold demoMarketBuy.
  now replace (Num.lt (balance d * 0.95) 10) with true
    by (symmetry; apply NumFacts.lt_true; exact Hten).
Qed.

Lemma sell_accepted d symbol price now position :
  StringMap.get symbol (positions d) = Some position ->
  0 < DemoPosition.quantity position ->
  demoMarketSell d symbol price now
  = (true,
     mk (balance d + DemoPosition.quantity position * price)
        (StringMap.delete symbol (positions d))
        (trades d
         ++ [DemoTrade.mk symbol TradeSELL (DemoPosition.quantity position)
                          price now (DemoPosition.quantity position * price)])
        (initialBalance d)).
Proof.
  intros Hget Hq. unfold demoMarketSell. rewrite Hget.
  now replace (Num.le (DemoPosition.quantity position) 0) with false
    by (symmetry; apply NumFacts.le_false; exact Hq).
Qed.

Lemma sell_refused d symbol price now :
  match StringMap.get symbol (positions d) with
  | Some position => DemoPosition.quantity position <= 0
  | None => True
  end ->
  demoMarketSell d symbol price now = (false, d).
Proof.
  unfold demoMarketSell.
  destruct (StringMap.get symbol (positions d)) as [position|];
    [|reflexivity].
  intros Hq. now replace (Num.le (DemoPosition.quantity position) 0)
    with true by (symmetry; apply NumFacts.le_true; exact Hq).
Qed.

(** X14. [executeTrade] answers [true] exactly for a BUY with at least 10
    to invest (95% of the cash) and for a SELL of a symbol held in a
    positive quantity, and then it records exactly one trade of that side
    and symbol at the price quoted; in every other case, a HOLD among
    them, it answers [false] and leaves the account as it was. *)
Theorem executeTrade_records_or_refuses (d : t) (signal : Signal.t)
  (symbol : String.string) (currentPrice : Q) (now : Z) :
  (fst (executeTrade d signal symbol currentPrice now) = true
   <-> accepted d signal symbol)
  /\ (fst (executeTrade d signal symbol currentPrice now) = false ->
      snd (executeTrade d signal symbol currentPrice now) = d)
  /\ (fst (executeTrade d signal symbol currentPrice now) = true ->
      exists quantity value,
        trades (snd (executeTrade d signal symbol currentPrice now))
        = trades d
          ++ [DemoTrade.mk symbol
                (match Signal.type signal with
                 | SELL => TradeSELL
                 | _ => TradeBUY
                 end)
                quantity currentPrice now value]).
Proof.
  unfold executeTrade, accepted.
  destruct (Signal.type signal) eqn:Et.
  - destruct (Qlt_le_dec (balance d * 0.95) 10) as [Hlow|Hten].
    + rewrite (buy_refused d symbol currentPrice now Hlow). simpl.
      split; [|split; [reflexivity|discriminate]].
      split; [discriminate|].
      intros [[_ Hten]|[Hs _]]; [lra|discriminate].
    + destruct (buy_accepted d symbol currentPrice now Hten)
        as [position [-> _]]. simpl.
      split; [|split; [discriminate|]].
      * split; [|reflexivity]. intros _. left. now split.
      * intros _. eexists; eexists. reflexivity.
  - destruct (StringMap.get symbol (positions d)) as [position|] eqn:Eg.
    + destruct (Qlt_le_dec 0 (DemoPosition.quantity position)) as [Hq|Hq].
      * rewrite (sell_accepted d symbol currentPrice now position Eg Hq).
        simpl. split; [|split; [discriminate|]].
        -- split; [|reflexivity]. intros _. right. split; [reflexivity|].
           now exists position.
        -- intros _. eexists; eexists. reflexivity.
      * rewrite (sell_refused d symbol currentPrice now);
          [|now rewrite Eg]. simpl.
        split; [|split; [reflexivity|discriminate]].
        split; [discriminate|].
        intros [[Hb _]|[_ [p [Hp Hpos]]]]; [discriminate|].
        injection Hp as <-. lra.
    + rewrite (sell_refused d symbol currentPrice now); [|now rewrite Eg].
      simpl. split; [|split; [reflexivity|discriminate]].
      split; [discriminate|].
      intros [[Hb _]|[_ [p [Hp _]]]]; discriminate.
  - simpl. split; [|split; [reflexivity|discriminate]].
    split; [discriminate|].
    intros [[Hb _]|[Hs _]]; discriminate.
Qed.

(** The three outcomes of a call. *)
Lemma executeTrade_cases d signal symbol price now :
  snd (executeTrade d signal symbol price now) = d
  \/ (10 <= balance d * 0.95
      /\ exists position,
           snd (executeTrade d signal symbol price now)
           = mk (balance d - balance d * 0.95)
                (StringMap.set symbol position (positions d))
                (trades d
                 ++ [DemoTrade.mk symbol TradeBUY (balance d * 0.95 / price)
                                  price now (balance d * 0.95)])
                (initialBalance d)
           /\ DemoPosition.symbol position = symbol
           /\ match StringMap.get symbol (positions d) with
              | Some existing =>
                  DemoPosition.quantity position
                  = DemoPosition.quantity existing + balance d * 0.95 / price
                  /\ DemoPosition.averagePrice position
                     = (DemoPosition.quantity existing
                        * DemoPosition.averagePrice existing
                        + balance d * 0.95 / price * price)
                       / (DemoPosition.quantity existing
                          + balance d * 0.95 / price)
              | None =>
                  DemoPosition.quantity position = balance d * 0.95 / price
                  /\ DemoPosition.averagePrice position = price
              end)
  \/ (exists position,
        StringMap.get symbol (positions d) = Some position
        /\ 0 < DemoPosition.quantity position
        /\ snd (executeTrade d signal symbol price now)
           = mk (balance d + DemoPosition.quantity position * price)
                (StringMap.delete symbol (positions d))
                (trades d
                 ++ [DemoTrade.mk symbol TradeSELL
                       (DemoPosition.quantity position) price now
                       (DemoPosition.quantity position * price)])
                (initialBalance d)).
Proof.
  unfold executeTrade. destruct (Signal.type signal).
  - destruct (Qlt_le_dec (balance d * 0.95) 10) as [Hlow|Hten].
    + left. now rewrite buy_refused.
    + right. left. split; [exact Hten|].
      destruct (buy_accepted d symbol price now Hten)
        as [position [-> Hposition]].
      now exists position.
  - destruct (StringMap.get symbol (positions d)) as [position|] eqn:Eg.
    + destruct (Qlt_le_dec 0 (DemoPosition.quantity position)) as [Hq|Hq].
      * right. right. exists position.
        rewrite (sell_accepted d symbol price now position Eg Hq).
        now repeat split.
      * left. rewrite sell_refused; [reflexivity|now rewrite Eg].
    + left. rewrite sell_refused; [reflexivity|now rewrite Eg].
  - now left.
Qed.

(** What every call keeps holds after a session. *)
Lemma session_keeps (P : t -> Prop) (good : Call -> Prop) :
  (forall d call, good call -> P d -> P (step d call)) ->
  forall calls d, Forall good calls -> P d -> P (session d calls).
Proof.
  intros Hstep. induction calls as [|call calls IH]; intros d Hgood HP;
    [exact HP|].
  inversion Hgood as [|x r Hx Hr]; subst. simpl. apply IH; [exact Hr|].
  now apply Hstep.
Qed.

(** ** The cash is the ledger *)

Lemma cashOf_snoc initial ledger tr :
  cashOf initial (ledger ++ [tr]) = cashStep (cashOf initial ledger) tr.
Proof. unfold cashOf. now rewrite fold_left_app. Qed.

Lemma step_cash d call :
  balance d = cashOf (initialBalance d) (trades d) ->
  balance (step d call)
  = cashOf (initialBalance (step d call)) (trades (step d call)).
Proof.
  intros Hd. unfold step.
  destruct (executeTrade_cases d (callSignal call) (callSymbol call)
              (callPrice call) (callTime call))
    as [->|[[_ [position [-> _]]]|[position [_ [_ ->]]]]]; [exact Hd| |];
    cbn [balance trades initialBalance]; rewrite cashOf_snoc;
    unfold cashStep; cbn [DemoTrade.side DemoTrade.value];
    now rewrite <- Hd.
Qed.

Lemma step_initialBalance d call :
  initialBalance (step d call) = initialBalance d.
Proof.
  unfold step.
  destruct (executeTrade_cases d (callSignal call) (callSymbol call)
              (callPrice call) (callTime call))
    as [->|[[_ [position [-> _]]]|[position [_ [_ ->]]]]]; reflexivity.
Qed.

(** X15. After any sequence of calls on a new account, the cash is the
    initial balance replayed through the ledger, trade by trade in the
    order of the ledger: a BUY takes the recorded value of the trade off
    the cash, a SELL adds it.  [getPerformanceStats] reports the initial
    balance, that cash and the length of the ledger. *)
Theorem demo_cash_is_the_ledger (initial : Q) (calls : list Call)
  (currentPrices : StringMap.t Q) :
  balance (session (create initial) calls)
  = cashOf initial (trades (session (create initial) calls))
  /\ statsInitialBalance
       (getPerformanceStats (session (create initial) calls) currentPrices)
     = initial
  /\ statsCurrentBalance
       (getPerformanceStats (session (create initial) calls) currentPrices)
     = balance (session (create initial) calls)
  /\ statsTotalTrades
       (getPerformanceStats (session (create initial) calls) currentPrices)
     = length (trades (session (create initial) calls)).
Proof.
  assert (Hinv :
            initialBalance (session (create initial) calls) = initial
            /\ balance (session (create initial) calls)
               = cashOf (initialBalance (session (create initial) calls))
                        (trades (session (create initial) calls))).
  { apply (session_keeps
             (fun d => initialBalance d = initial
                       /\ balance d = cashOf (initialBalance d) (trades d))
             (fun _ => True)).
    - intros d call _ [Hi Hb]. split.
      + now rewrite step_initialBalance.
      + now apply step_cash.
    - apply Forall_forall. intros; exact I.
    - split; reflexivity. }
  destruct Hinv as [Hi Hb]. rewrite Hi in Hb.
  split; [exact Hb|]. unfold getPerformanceStats. simpl.
  split; [exact Hi|]. split; reflexivity.
Qed.

End DemoTraderFacts.

(** * The sample data *)

Module SampleDataFacts.
Import DataProvider SampleShape.

Section WithRandom.

Variable random : nat -> Q.
Variable startTime : Z.

(** One turn of the loop appends one candle, stamped [i] hours after the
    start, which opens at the running price and whose close is the new
    running price. *)
Lemma loopBody_appends st i :
  exists c,
    candles (loopBody random startTime st i) = candles st ++ [c]
    /\ Candle.timestamp c = (startTime + Z.of_nat i * 3600000)%Z
    /\ Candle.open c = price st
    /\ price (loopBody random startTime st i) = Candle.close c.
Proof.
  unfold loopBody. eexists. cbn [candles price]. split; [reflexivity|].
  cbn [Candle.timestamp Candle.open Candle.close].
  split; [lia|]. split; reflexivity.
Qed.

Lemma loop_appends n :
  forall i st,
    exists added,
      candles (fold_left (loopBody random startTime) (seq i n) st)
      = candles st ++ added
      /\ length added = n
      /\ hourlyFrom startTime i added
      /\ chained (price st) added.
Proof.
  induction n as [|n IH]; intros i st.
  - exists []. simpl. rewrite app_nil_r. now repeat split.
  - cbn [seq fold_left].
    destruct (loopBody_appends st i) as [c [Hc [Ht [Ho Hp]]]].
    destruct (IH (S i) (loopBody random startTime st i))
      as [added [Hadded [Hlen [Hhour Hchain]]]].
    exists (c :: added). rewrite Hadded, Hc, <- app_assoc.
    split; [reflexivity|]. split; [simpl; now rewrite Hlen|].
    split; [now split|]. split; [exact Ho|]. now rewrite <- Hp.
Qed.

(** X20. [generateSampleData(days)] returns [days * 24] candles, one hour
    apart from the start date on, the first of which opens at 50000 and
    each of the others where the one before closed, whatever
    [Math.random()] returns. *)
Theorem sample_data_is_an_hourly_chain (days : nat) :
  length (generateSampleData random startTime days) = (days * 24)%nat
  /\ hourlyFrom startTime 0 (generateSampleData random startTime days)
  /\ chained 50000 (generateSampleData random startTime days).
Proof.
  unfold generateSampleData.
  destruct (loop_appends (days * 24) 0 (mkState [] 50000 0.001 0 0))
    as [added [-> [Hlen [Hhour Hchain]]]].
  simpl. now repeat split.
Qed.

End WithRandom.

End SampleDataFacts.

(** * The trading bot *)

Module BotFacts.
Import TradingBot BotSession SignalShape.

(** ** Signals that always pass the thresholds *)

Lemma exitFor_confident s cs current positionType position signal profit :
  ScalpingStrategy.exitFor s cs current positionType position
  = Some (signal, profit) ->
  confident signal.
Proof.
  unfold ScalpingStrategy.exitFor, confident. intros Hrun.
  break_matches Hrun; injection Hrun as <- <-; right; simpl; lra.
Qed.

Lemma exitLoop_confident s cs current entries :
  confident (fst (ScalpingStrategy.exitLoop s cs current entries)).
Proof.
  induction entries as [|[positionType position] entries IH]; simpl.
  - now left.
  - destruct (ScalpingStrategy.exitFor s cs current positionType position)
      as [[signal profit]|] eqn:E; [|exact IH].
    simpl. eapply exitFor_confident. exact E.
Qed.

Lemma instant_confident s cs signal s' :
  ScalpingStrategy.getInstantScalpSignal s cs = Some (signal, s') ->
  confident signal.
Proof.
  unfold ScalpingStrategy.getInstantScalpSignal, confident. intros Hrun.
  break_matches Hrun; injection Hrun as <- <-; simpl;
    (now left) || (right; lra).
Qed.

Lemma entry_confident s cs signal s' :
  ScalpingStrategy.checkEntryConditions s cs = Some (signal, s') ->
  confident signal.
Proof.
  unfold ScalpingStrategy.checkEntryConditions. intros Hrun.
  destruct (fromEnd 1 cs) as [current|]; [|discriminate].
  destruct (0 <? length (ScalpingStrategy.positions s))%nat.
  { injection Hrun as <- <-. now left. }
  destruct (ScalpingStrategy.getInstantScalpSignal s cs)
    as [[instant s1]|] eqn:Ei; [|discriminate].
  apply instant_confident in Ei. unfold confident in *.
  break_matches Hrun; injection Hrun as <- <-; simpl; try exact Ei;
    (now left) || (right; lra).
Qed.

Lemma scalping_confident s window signal s' :
  ScalpingStrategy.analyze s window = Some (signal, s') ->
  confident signal.
Proof.
  unfold ScalpingStrategy.analyze, ScalpingStrategy.checkExitConditions.
  intros Hrun.
  destruct (lastOf window) as [current|]; [|discriminate].
  destruct (length window <? ScalpingStrategy.volatilityPeriod s + 5)%nat.
  { injection Hrun as <- <-. now left. }
  destruct (fromEnd 1 window) as [c|]; [|discriminate].
  match type of Hrun with
  | context [ScalpingStrategy.exitLoop ?a ?b ?c ?d] =>
      assert (Hexit := exitLoop_confident a b c d);
      destruct (ScalpingStrategy.exitLoop a b c d) as [exitSignal s3]
  end.
  simpl in Hexit.
  destruct (negb (SignalType_eqb (Signal.type exitSignal) HOLD)).
  - injection Hrun as <- <-. exact Hexit.
  - eapply entry_confident. exact Hrun.
Qed.

Lemma class_confident sqrt s window signal s' :
  confidentClass s ->
  anyAnalyze sqrt s window = Some (signal, s') ->
  confident signal.
Proof.
  intros Hclass Hrun. destruct s as [s|s|s|s|s|s]; simpl in Hrun, Hclass;
    try contradiction;
    match type of Hrun with
    | lift _ ?r = _ =>
        destruct r as [[signal0 s0]|] eqn:E; [|discriminate];
        injection Hrun as <- <-
    end.
  - unfold MACDStrategy.analyze in E. unfold confident.
    break_matches E; injection E as <- <-; simpl;
      (now left) || (right; lra).
  - unfold RSI_MA_ComboStrategy.analyze in E. unfold confident.
    break_matches E; injection E as <- <-; simpl;
      (now left) || (right; lra).
  - eapply scalping_confident. exact E.
Qed.

(** X23. A signal of MACD, of the RSI+MA combo or of the scalping strategy
    that is not HOLD has a confidence of at least 0.4, one of the constants
    of the code: the backtester, which asks for more than 0.1, and the bot,
    which asks for more than 0.3, act on every one of them.  (The
    confidence of the crossover, of RSI and of Bollinger is computed.) *)
Theorem confident_signals_pass_the_thresholds (sqrt : Q -> Q)
  (s : AnyStrategy) (window : list Candle.t) (signal : Signal.t)
  (s' : AnyStrategy) :
  confidentClass s ->
  anyAnalyze sqrt s window = Some (signal, s') ->
  Signal.type signal <> HOLD ->
  0.4 <= Signal.confidence signal
  /\ Backtester.shouldExecute signal = true
  /\ shouldTrade signal = true.
Proof.
  intros Hclass Hrun Hfired.
  destruct (class_confident sqrt s window signal s' Hclass Hrun)
    as [Hhold|Hconf]; [contradiction|].
  split; [exact Hconf|].
  assert (Hne : negb (SignalType_eqb (Signal.type signal) HOLD) = true).
  { apply negb_true_iff. destruct (SignalType_eqb (Signal.type signal) HOLD)
      eqn:E; [|reflexivity].
    apply SignalType_eqb_eq in E. contradiction. }
  unfold Backtester.shouldExecute, shouldTrade. rewrite Hne. simpl.
  split; apply NumFacts.gt_true; lra.
Qed.

(** The BUY of the scalping strategy on the first fifteen of its example
    candles. *)
Lemma confident_signals_pass_the_thresholds_witness :
  exists signal s',
    confidentClass
      (StrategySpec.construct
         (StrategySpec.NewScalping 0.02 1.5 0.15 5 10 0.1))
    /\ anyAnalyze sqrtQ
         (StrategySpec.construct
            (StrategySpec.NewScalping 0.02 1.5 0.15 5 10 0.1))
         (firstn 15 Examples.scalpCandles)
       = Some (signal, s')
    /\ Signal.type signal = BUY
    /\ Backtester.shouldExecute signal = true
    /\ shouldTrade signal = true.
Proof.
  eexists; eexists.
  assert (Hclass : confidentClass
                     (StrategySpec.construct
                        (StrategySpec.NewScalping 0.02 1.5 0.15 5 10 0.1)))
    by exact I.
  split; [exact Hclass|].
  match goal with
  | |- ?R /\ _ => assert (Hrun : R) by (vm_compute; reflexivity)
  end.
  split; [exact Hrun|]. split; [reflexivity|].
  refine (proj2 (confident_signals_pass_the_thresholds _ _ _ _ _
                   Hclass Hrun _)).
  discriminate.
Defined.

(** ** Demo mode *)

Lemma after_demo sqrt parseFloat bot event :
  demoMode (config bot) = true ->
  LiveTrader.isActive (liveTrader bot) = false ->
  snd (after sqrt parseFloat bot event) = []
  /\ config (fst (after sqrt parseFloat bot event)) = config bot
  /\ LiveTrader.isActive (liveTrader (fst (after sqrt parseFloat bot event)))
     = false.
Proof.
  intros Hdemo Hidle. destruct event as [klines| |latest now answers| |];
    simpl.
  - unfold start. destruct (isRunning bot); [now repeat split|].
    destruct klines; now repeat split.
  - unfold stop. destruct (negb (isRunning bot)); now repeat split.
  - unfold tradingLoop.
    destruct latest as [[|latestCandle rest]|]; [now repeat split| |
                                                  now repeat split].
    destruct (anyAnalyze sqrt (strategy bot)
                (candleHistory bot ++ [latestCandle])) as [[signal s1]|];
      [|now repeat split].
    destruct (shouldTrade signal); [|now repeat split].
    rewrite Hdemo. now repeat split.
  - unfold activateLiveTrading. rewrite Hdemo. now repeat split.
  - now repeat split.
Qed.

Lemma run_demo sqrt parseFloat events :
  forall bot,
    demoMode (config bot) = true ->
    LiveTrader.isActive (liveTrader bot) = false ->
    snd (run sqrt parseFloat bot events) = []
    /\ config (fst (run sqrt parseFloat bot events)) = config bot
    /\ LiveTrader.isActive (liveTrader (fst (run sqrt parseFloat bot events)))
       = false.
Proof.
  induction events as [|event events IH]; intros bot Hdemo Hidle;
    [now repeat split|].
  cbn [run].
  destruct (after_demo sqrt parseFloat bot event Hdemo Hidle)
    as [Hnone [Hconfig Hidle1]].
  destruct (after sqrt parseFloat bot event) as [bot1 requests].
  cbn [fst snd] in *. subst requests.
  assert (Hdemo1 : demoMode (config bot1) = true) by now rewrite Hconfig.
  destruct (IH bot1 Hdemo1 Hidle1) as [Hmore [Hconfig' Hidle']].
  destruct (run sqrt parseFloat bot1 events) as [bot2 more].
  cbn [fst snd] in *. subst more.
  split; [reflexivity|]. split; [congruence|exact Hidle'].
Qed.

(** X24. A bot made in demo mode never makes a request to the exchange for
    an order or for the balances, whatever happens to it and whatever the
    outside world returns: [activateLiveTrading] does nothing in demo mode,
    the live trader stays inactive, and every trade of the loop goes to
    the paper account. *)
Theorem demo_mode_makes_no_request (sqrt : Q -> Q)
  (parseFloat : String.string -> option Q) (config : BotConfig)
  (strategy : AnyStrategy) (events : list Event) :
  demoMode config = true ->
  snd (run sqrt parseFloat (create config strategy) events) = []
  /\ LiveTrader.isLiveActive
       (liveTrader (fst (run sqrt parseFloat (create config strategy)
                           events)))
     = false.
Proof.
  intros Hdemo.
  destruct (run_demo sqrt parseFloat events (create config strategy)
              Hdemo eq_refl) as [Hnone [_ Hidle]].
  now split.
Qed.

(** In demo mode the BUY of the crossover goes to the paper account, which
    keeps 5 of its 100; the same events on a bot that is not in demo mode
    send the order to the exchange. *)
Lemma demo_mode_makes_no_request_witness :
  demoMode (MoreExamples.botConfig true) = true
  /\ snd (run sqrtQ (fun _ => None)
            (create (MoreExamples.botConfig true)
                    (Crossover (MovingAverageCrossover.create 1 2)))
            MoreExamples.botEvents)
     = []
  /\ DemoTrader.balance
       (demoTrader
          (fst (run sqrtQ (fun _ => None)
                  (create (MoreExamples.botConfig true)
                          (Crossover (MovingAverageCrossover.create 1 2)))
                  MoreExamples.botEvents)))
     == 5
  /\ snd (run sqrtQ (fun _ => None)
            (create (MoreExamples.botConfig false)
                    (Crossover (MovingAverageCrossover.create 1 2)))
            MoreExamples.botEvents)
     = [LiveTrader.MarketBuy "BTCUSDT" 100].
Proof.
  assert (Hdemo : demoMode (MoreExamples.botConfig true) = true)
    by reflexivity.
  split; [exact Hdemo|].
  split; [|split; vm_compute; reflexivity].
  exact (proj1 (demo_mode_makes_no_request sqrtQ (fun _ => None)
                  (MoreExamples.botConfig true)
                  (Crossover (MovingAverageCrossover.create 1 2))
                  MoreExamples.botEvents Hdemo)).
Defined.

End BotFacts.
(** * Facts about binary64 numbers

    The operations of the kernel's floats are specified by the functions of
    [SpecFloat] on sign, mantissa and exponent.  What is proved here of them
    needs no theory of rounding: the sign of a result, the order, and the
    sign of a difference. *)

Module FloatFacts.
Import PrimFloat SpecFloat FloatOps FloatAxioms.
Import Binary64 FloatShape.

Local Open Scope float_scope.

(** ** Signs at the level of the specification *)

Lemma round_aux_signed s m e l :
  signed s (binary_round_aux prec emax s m e l).
Proof.
  unfold binary_round_aux.
  destruct (shr_fexp prec emax m e l) as [mrs' e'].
  destruct (shr_fexp prec emax _ e' loc_Exact) as [mrs'' e''].
  destruct (shr_m mrs''); simpl; auto.
  destruct (_ <=? _)%Z; simpl; auto.
Qed.

Lemma round_signed s m e : signed s (binary_round prec emax s m e).
Proof.
  unfold binary_round.
  destruct (shl_align m e _) as [mz ez]. apply round_aux_signed.
Qed.

Lemma normalize_signed m e :
  (0 <= m)%Z -> signed false (binary_normalize prec emax m e false).
Proof.
  destruct m; simpl; intros; auto using round_signed. lia.
Qed.

Lemma signed_unsigned x : signed false x -> unsigned x.
Proof. destruct x; simpl; auto. Qed.

Lemma SFmul_signed x y :
  signed false x -> signed false y -> signed false (SF64mul x y).
Proof.
  destruct x as [s1|s1| |s1 m1 e1], y as [s2|s2| |s2 m2 e2];
    simpl; intros; subst; auto.
  apply (round_aux_signed false).
Qed.

Lemma SFmul_unsigned x y :
  unsigned x -> unsigned y -> unsigned (SF64mul x y).
Proof.
  destruct x as [s1|s1| |s1 m1 e1], y as [s2|s2| |s2 m2 e2];
    simpl; intros; subst; auto.
  apply signed_unsigned, (round_aux_signed false).
Qed.

Lemma SFdiv_signed x y :
  signed false x -> signed false y -> signed false (SF64div x y).
Proof.
  destruct x as [s1|s1| |s1 m1 e1], y as [s2|s2| |s2 m2 e2];
    simpl; intros; subst; auto.
  unfold SF64div, SFdiv.
  destruct (SFdiv_core_binary prec emax (Z.pos m1) e1 (Z.pos m2) e2)
    as [[mz ez] lz].
  apply (round_aux_signed false).
Qed.

Lemma SFdiv_unsigned x y :
  unsigned x -> signed false y -> unsigned (SF64div x y).
Proof.
  destruct x as [s1|s1| |s1 m1 e1], y as [s2|s2| |s2 m2 e2];
    simpl; intros; subst; auto.
  unfold SF64div, SFdiv.
  destruct (SFdiv_core_binary prec emax (Z.pos m1) e1 (Z.pos m2) e2)
    as [[mz ez] lz].
  apply signed_unsigned, (round_aux_signed false).
Qed.

Lemma SFadd_signed x y :
  signed false x -> unsigned y -> signed false (SF64add x y).
Proof.
  destruct x as [s1|s1| |s1 m1 e1], y as [s2|s2| |s2 m2 e2];
    simpl; intros; subst; simpl; auto.
  - now destruct s2.
  - apply round_signed.
Qed.

Lemma SFadd_unsigned x y :
  unsigned x -> unsigned y -> unsigned (SF64add x y).
Proof.
  destruct x as [s1|s1| |s1 m1 e1], y as [s2|s2| |s2 m2 e2];
    simpl; intros; subst; simpl; auto.
  - now destruct s1, s2.
  - apply signed_unsigned, round_signed.
Qed.

Lemma SFsqrt_signed x : signed false x -> signed false (SF64sqrt x).
Proof.
  destruct x as [s1|s1| |s1 m1 e1]; simpl; intros; subst; simpl; auto.
  unfold SF64sqrt, SFsqrt.
  destruct (SFsqrt_core_binary prec emax (Z.pos m1) e1) as [[mz ez] lz].
  apply round_aux_signed.
Qed.

Lemma SFabs_signed x : signed false (SFabs x).
Proof. destruct x; simpl; auto. Qed.

(** ** The order at the level of the specification *)

Lemma SFcompare_refl x : x <> S754_nan -> SFcompare x x = Some Eq.
Proof.
  destruct x as [s|s| |s m e]; simpl; intros; try congruence.
  - destruct s; reflexivity.
  - rewrite Z.compare_refl, Pos.compare_cont_refl.
    destruct s; reflexivity.
Qed.

Lemma SFcompare_antisym x y c :
  SFcompare x y = Some c -> SFcompare y x = Some (CompOpp c).
Proof.
  destruct x as [s1|s1| |s1 m1 e1], y as [s2|s2| |s2 m2 e2];
    simpl; try discriminate;
    try (destruct s1); try (destruct s2);
    intros E; inversion E; subst; try reflexivity.
  all: change (Pos.compare_cont Eq) with Pos.compare.
  all: rewrite (Z.compare_antisym e1 e2), (Pos.compare_antisym m1 m2).
  all: destruct (e1 ?= e2)%Z, (m1 ?= m2)%positive; reflexivity.
Qed.

Lemma SFleb_trans x y z :
  SFleb x y = true -> SFleb y z = true -> SFleb x z = true.
Proof.
  unfold SFleb.
  destruct x as [s1|s1| |s1 m1 e1], y as [s2|s2| |s2 m2 e2],
           z as [s3|s3| |s3 m3 e3];
    simpl; try discriminate; try reflexivity;
    try (destruct s1; simpl; try discriminate; try reflexivity);
    try (destruct s2; simpl; try discriminate; try reflexivity);
    try (destruct s3; simpl; try discriminate; try reflexivity).
  all: change (Pos.compare_cont Eq) with Pos.compare.
  all: destruct (Z.compare_spec e1 e2), (Z.compare_spec e2 e3),
         (Z.compare_spec e1 e3);
    simpl; try discriminate; try reflexivity; try lia; subst.
  all: destruct (Pos.compare_spec m1 m2), (Pos.compare_spec m2 m3),
         (Pos.compare_spec m1 m3);
    simpl; try discriminate; try reflexivity; try lia.
Qed.

(** ** The sign of a difference *)

Lemma digits2_bounds m :
  (2 ^ (Zpos (digits2_pos m) - 1) <= Zpos m < 2 ^ Zpos (digits2_pos m))%Z.
Proof.
  induction m as [m IH|m IH|]; simpl digits2_pos.
  - rewrite Pos2Z.inj_succ.
    replace (Z.succ (Zpos (digits2_pos m)) - 1)%Z
      with (Z.succ (Zpos (digits2_pos m) - 1))%Z by lia.
    rewrite !Z.pow_succ_r by lia. lia.
  - rewrite Pos2Z.inj_succ.
    replace (Z.succ (Zpos (digits2_pos m)) - 1)%Z
      with (Z.succ (Zpos (digits2_pos m) - 1))%Z by lia.
    rewrite !Z.pow_succ_r by lia. lia.
  - simpl. lia.
Qed.

Lemma iter_xO m d : Zpos (Pos.iter xO m d) = (Zpos m * 2 ^ Zpos d)%Z.
Proof.
  induction d as [|d IH] using Pos.peano_ind.
  - simpl. lia.
  - rewrite Pos.iter_succ, Pos2Z.inj_succ, Z.pow_succ_r by lia.
    rewrite Pos2Z.inj_xO, IH. lia.
Qed.

Lemma shl_align_fst m e ez :
  (ez <= e)%Z ->
  Zpos (fst (shl_align m e ez)) = (Zpos m * 2 ^ (e - ez))%Z.
Proof.
  intros Hle. unfold shl_align.
  destruct (ez - e)%Z as [|d|d] eqn:Ed; simpl fst.
  - replace (e - ez)%Z with 0%Z by lia. simpl. lia.
  - lia.
  - rewrite iter_xO. f_equal. f_equal. lia.
Qed.

(** A number of the format has at most [prec] digits, and exactly [prec]
    of them above the smallest exponent. *)
Lemma bounded_digits m e :
  bounded prec emax m e = true ->
  (emin <= e /\ Zpos (digits2_pos m) <= prec
   /\ (emin < e -> Zpos (digits2_pos m) = prec))%Z.
Proof.
  unfold bounded, canonical_mantissa, fexp. intros Hb.
  apply andb_true_iff in Hb. destruct Hb as [Hb _].
  apply Z.eqb_eq in Hb. unfold emin, SpecFloat.emin, prec, emax in *. lia.
Qed.

(** Brought to the smaller exponent, the mantissas are ordered like the
    exponents. *)
Lemma aligned_lt m1 e1 m2 e2 :
  bounded prec emax m1 e1 = true -> bounded prec emax m2 e2 = true ->
  (e1 < e2)%Z ->
  (Zpos (fst (shl_align m1 e1 (Z.min e1 e2)))
   < Zpos (fst (shl_align m2 e2 (Z.min e1 e2))))%Z.
Proof.
  intros H1 H2 Hlt.
  destruct (bounded_digits _ _ H1) as [Hmin1 [Hd1 _]].
  destruct (bounded_digits _ _ H2) as [_ [_ Hd2]].
  rewrite !shl_align_fst by lia.
  rewrite Z.min_l by lia.
  replace (e1 - e1)%Z with 0%Z by lia. rewrite Z.pow_0_r, Z.mul_1_r.
  assert (Hd : Zpos (digits2_pos m2) = prec) by (apply Hd2; lia).
  destruct (digits2_bounds m1) as [_ Hu1].
  destruct (digits2_bounds m2) as [Hl2 _].
  rewrite Hd in Hl2.
  assert (Hp : (2 ^ Zpos (digits2_pos m1) <= 2 ^ prec)%Z)
    by (apply Z.pow_le_mono_r; lia).
  assert (Hq : (2 ^ 1 <= 2 ^ (e2 - e1))%Z)
    by (apply Z.pow_le_mono_r; lia).
  assert (Hr : (2 ^ prec = 2 ^ (prec - 1) * 2 ^ 1)%Z)
    by (rewrite <- Z.pow_add_r by (unfold prec; lia); f_equal; lia).
  assert (H0 : (0 < 2 ^ (prec - 1))%Z)
    by (apply Z.pow_pos_nonneg; unfold prec; lia).
  nia.
Qed.

Lemma aligned_eq m1 m2 e :
  Zpos (fst (shl_align m1 e (Z.min e e))) = Zpos m1
  /\ Zpos (fst (shl_align m2 e (Z.min e e))) = Zpos m2.
Proof.
  rewrite !shl_align_fst by lia. rewrite Z.min_id, Z.sub_diag. simpl. lia.
Qed.

Lemma SFsub_unsigned x y :
  valid_binary x = true -> valid_binary y = true ->
  SFleb x y = true -> unsigned (SF64sub y x).
Proof.
  unfold SFleb.
  destruct x as [s1|s1| |s1 m1 e1], y as [s2|s2| |s2 m2 e2];
    simpl; intros Hx Hy Hle; try discriminate; auto;
    try (destruct s1, s2; simpl in *; try discriminate; auto; fail);
    try (destruct s1; simpl in *; try discriminate; auto; fail);
    try (destruct s2; simpl in *; try discriminate; auto; fail).
  apply signed_unsigned, normalize_signed.
  change (Pos.compare_cont Eq) with Pos.compare in Hle.
  destruct s1, s2; cbn [cond_Zopp]; try discriminate; try lia.
  - destruct (Z.compare_spec e1 e2) as [He|He|He]; try discriminate.
    + subst e2. destruct (aligned_eq m1 m2 e1) as [-> ->].
      destruct (Pos.compare_spec m1 m2); simpl in Hle;
        try discriminate; lia.
    + assert (Ha := aligned_lt m2 e2 m1 e1 Hy Hx He). lia.
  - destruct (Z.compare_spec e1 e2) as [He|He|He]; try discriminate.
    + subst e2. destruct (aligned_eq m1 m2 e1) as [-> ->].
      destruct (Pos.compare_spec m1 m2); simpl in Hle;
        try discriminate; lia.
    + assert (Ha := aligned_lt m1 e1 m2 e2 Hx Hy He).
      rewrite (Z.min_comm e2 e1). lia.
Qed.

(** ** NaN and the order on numbers *)

Lemma isNaN_true x : Num.isNaN x = true <-> Prim2SF x = S754_nan.
Proof.
  unfold Num.isNaN, is_nan. rewrite eqb_spec. unfold SFeqb. split.
  - destruct (Prim2SF x) as [s|s| |s m e] eqn:Ex; auto;
      rewrite SFcompare_refl by discriminate; discriminate.
  - intros ->. reflexivity.
Qed.

Lemma isNaN_false x : Num.isNaN x = false <-> Prim2SF x <> S754_nan.
Proof.
  rewrite <- isNaN_true. destruct (Num.isNaN x); split; congruence.
Qed.

Lemma le_numbers x y :
  Num.le x y = true -> Num.isNaN x = false /\ Num.isNaN y = false.
Proof.
  unfold Num.le. rewrite leb_spec, !isNaN_false. unfold SFleb.
  destruct (Prim2SF x), (Prim2SF y); simpl; try discriminate;
    split; discriminate.
Qed.

Lemma lt_numbers x y :
  Num.lt x y = true -> Num.isNaN x = false /\ Num.isNaN y = false.
Proof.
  unfold Num.lt. rewrite ltb_spec, !isNaN_false. unfold SFltb.
  destruct (Prim2SF x), (Prim2SF y); simpl; try discriminate;
    split; discriminate.
Qed.

Lemma le_refl x : Num.isNaN x = false -> Num.le x x = true.
Proof.
  rewrite isNaN_false. intros Hx. unfold Num.le. rewrite leb_spec.
  unfold SFleb. now rewrite SFcompare_refl.
Qed.

Lemma le_trans x y z :
  Num.le x y = true -> Num.le y z = true -> Num.le x z = true.
Proof. unfold Num.le. rewrite !leb_spec. apply SFleb_trans. Qed.

Lemma lt_le x y : Num.lt x y = true -> Num.le x y = true.
Proof.
  unfold Num.lt, Num.le. rewrite ltb_spec, leb_spec. unfold SFltb, SFleb.
  destruct (SFcompare (Prim2SF x) (Prim2SF y)) as [[]|];
    congruence.
Qed.

(** Of two numbers, one is below the other or they are equal. *)
Lemma le_total x y :
  Num.isNaN x = false -> Num.isNaN y = false ->
  Num.lt x y = false -> Num.le y x = true.
Proof.
  rewrite !isNaN_false. unfold Num.lt, Num.le.
  rewrite ltb_spec, leb_spec. unfold SFltb, SFleb. intros Hx Hy.
  destruct (SFcompare (Prim2SF x) (Prim2SF y)) as [c|] eqn:Ec.
  - rewrite (SFcompare_antisym _ _ _ Ec). destruct c; simpl; congruence.
  - destruct (Prim2SF x), (Prim2SF y); simpl in Ec; congruence.
Qed.

(** ** Signs of numbers *)

Lemma plus_notNegative x : plus x -> notNegative x.
Proof. apply signed_unsigned. Qed.

Lemma plus_zero : plus 0.
Proof. reflexivity. Qed.

Lemma plus_add x y : plus x -> notNegative y -> plus (x + y).
Proof. unfold plus, notNegative. rewrite add_spec. apply SFadd_signed. Qed.

Lemma notNegative_add x y :
  notNegative x -> notNegative y -> notNegative (x + y).
Proof. unfold notNegative. rewrite add_spec. apply SFadd_unsigned. Qed.

Lemma plus_mul x y : plus x -> plus y -> plus (x * y).
Proof. unfold plus. rewrite mul_spec. apply SFmul_signed. Qed.

Lemma notNegative_mul x y :
  notNegative x -> notNegative y -> notNegative (x * y).
Proof. unfold notNegative. rewrite mul_spec. apply SFmul_unsigned. Qed.

Lemma plus_div x y : plus x -> plus y -> plus (x / y).
Proof. unfold plus. rewrite div_spec. apply SFdiv_signed. Qed.

Lemma notNegative_div x y : notNegative x -> plus y -> notNegative (x / y).
Proof.
  unfold notNegative, plus. rewrite div_spec. apply SFdiv_unsigned.
Qed.

Lemma plus_sqrt x : plus x -> plus (sqrt x).
Proof. unfold plus. rewrite sqrt_spec. apply SFsqrt_signed. Qed.

Lemma plus_abs x : plus (Num.abs x).
Proof. unfold plus, Num.abs. rewrite abs_spec. apply SFabs_signed. Qed.

(** [y - x] is not negative when [x <= y]. *)
Lemma notNegative_sub x y : Num.le x y = true -> notNegative (y - x).
Proof.
  unfold Num.le, notNegative. rewrite leb_spec, sub_spec.
  apply SFsub_unsigned; apply Prim2SF_valid.
Qed.

Lemma notNegative_le x :
  notNegative x -> Num.isNaN x = false -> Num.le 0 x = true.
Proof.
  unfold notNegative, Num.le. rewrite isNaN_false, leb_spec.
  change (Prim2SF 0) with (S754_zero false).
  destruct (Prim2SF x) as [s|s| |s m e]; simpl; intros Hs Hn;
    subst; try congruence; reflexivity.
Qed.

Lemma le_notNegative x : Num.le 0 x = true -> notNegative x.
Proof.
  unfold notNegative, Num.le. rewrite leb_spec.
  change (Prim2SF 0) with (S754_zero false).
  destruct (Prim2SF x) as [s|s| |s m e]; simpl; auto;
    destruct s; simpl; auto; discriminate.
Qed.

(** A strictly positive number has its sign bit clear, and so has a number
    above it. *)
Lemma lt_plus x : Num.lt 0 x = true -> plus x.
Proof.
  unfold plus, Num.lt. rewrite ltb_spec.
  change (Prim2SF 0) with (S754_zero false).
  destruct (Prim2SF x) as [s|s| |s m e]; simpl; auto;
    destruct s; simpl; auto; discriminate.
Qed.

Lemma lt_le_plus x y :
  Num.lt 0 x = true -> Num.le x y = true -> plus y.
Proof.
  unfold plus, Num.lt, Num.le. rewrite ltb_spec, leb_spec.
  change (Prim2SF 0) with (S754_zero false).
  destruct (Prim2SF x) as [s1|s1| |s1 m1 e1],
           (Prim2SF y) as [s2|s2| |s2 m2 e2];
    simpl; auto;
    try (destruct s1); try (destruct s2); simpl; auto; discriminate.
Qed.


(** The sum of an array of numbers that are not negative. *)
Lemma plus_fold {A} (f : A -> float) (a : list A) acc :
  plus acc -> Forall (fun x => notNegative (f x)) a ->
  plus (fold_left (fun acc x => acc + f x) a acc).
Proof.
  revert acc. induction a as [|x a IH]; intros acc Hacc Ha; simpl; auto.
  inversion Ha; subst. apply IH; auto. now apply plus_add.
Qed.

Lemma plus_sumOf {A} (f : A -> float) (a : list A) :
  Forall (fun x => notNegative (f x)) a -> plus (sumOf f a).
Proof. apply plus_fold, plus_zero. Qed.


(** ** [Math.min] and [Math.max] *)

Lemma min_nan x y :
  Num.isNaN x = true \/ Num.isNaN y = true ->
  Num.isNaN (Num.min x y) = true.
Proof.
  unfold Num.min. intros [-> | ->]; rewrite ?orb_true_r; reflexivity.
Qed.

Lemma max_nan x y :
  Num.isNaN x = true \/ Num.isNaN y = true ->
  Num.isNaN (Num.max x y) = true.
Proof.
  unfold Num.max. intros [-> | ->]; rewrite ?orb_true_r; reflexivity.
Qed.

(** The minimum of two numbers is one of them, below both. *)
Lemma min_numbers x y :
  Num.isNaN x = false -> Num.isNaN y = false ->
  (Num.min x y = x \/ Num.min x y = y)
  /\ Num.le (Num.min x y) x = true /\ Num.le (Num.min x y) y = true.
Proof.
  intros Hx Hy. unfold Num.min. rewrite Hx, Hy. simpl.
  destruct (Num.lt x y) eqn:Exy.
  - repeat split; auto using le_refl, lt_le.
  - assert (Hyx := le_total x y Hx Hy Exy).
    destruct (Num.lt y x) eqn:Eyx.
    + repeat split; auto using le_refl.
    + assert (Hxy := le_total y x Hy Hx Eyx).
      destruct (get_sign x); repeat split; auto using le_refl.
Qed.

(** The maximum of two numbers is one of them, above both. *)
Lemma max_numbers x y :
  Num.isNaN x = false -> Num.isNaN y = false ->
  (Num.max x y = x \/ Num.max x y = y)
  /\ Num.le x (Num.max x y) = true /\ Num.le y (Num.max x y) = true.
Proof.
  intros Hx Hy. unfold Num.max. rewrite Hx, Hy. simpl.
  destruct (Num.lt x y) eqn:Exy.
  - repeat split; auto using le_refl, lt_le.
  - assert (Hyx := le_total x y Hx Hy Exy).
    destruct (Num.lt y x) eqn:Eyx.
    + repeat split; auto using le_refl.
    + assert (Hxy := le_total y x Hy Hx Eyx).
      destruct (get_sign x); repeat split; auto using le_refl.
Qed.

(** ** Clamped values *)

Lemma nanOrWithin_weaken lo hi lo' hi' x :
  nanOrWithin lo hi x ->
  Num.le lo' lo = true -> Num.le hi hi' = true ->
  nanOrWithin lo' hi' x.
Proof.
  intros [Hn|[Hlo Hhi]] Hl Hh; [now left|right].
  split; eauto using le_trans.
Qed.

(** [Math.min(cap, x)] of a number that is not negative, for a cap that is
    not negative either. *)
Lemma min_capped cap x :
  Num.le 0 cap = true -> notNegative x ->
  nanOrWithin 0 cap (Num.min cap x).
Proof.
  intros Hcap Hx.
  destruct (le_numbers _ _ Hcap) as [_ Hc].
  destruct (Num.isNaN x) eqn:En.
  - left. apply min_nan. now right.
  - right. destruct (min_numbers cap x Hc En) as [[E|E] [H1 H2]].
    + rewrite E. split; auto using le_refl.
    + split; [|exact H1]. rewrite E. now apply notNegative_le.
Qed.

(** [Math.max(floor, x)] of a clamped value. *)
Lemma max_floored lo hi x :
  Num.le lo hi = true -> nanOrWithin 0 hi x ->
  nanOrWithin lo hi (Num.max lo x).
Proof.
  intros Hle [Hn|[H0 Hhi]].
  - left. apply max_nan. now right.
  - right. destruct (le_numbers _ _ Hle) as [Hl _].
    destruct (le_numbers _ _ Hhi) as [Hx _].
    destruct (max_numbers lo x Hl Hx) as [[E|E] [H1 H2]].
    + split; [exact H1|]. now rewrite E.
    + split; [exact H1|]. now rewrite E.
Qed.

End FloatFacts.
(** * Rounding to nearest even

    The operations of binary64 round the exact result to the nearest
    number of the format.  Rounding is monotone: what is at most (at least)
    a number of the format rounds to at most (at least) that number.  This
    is proved here from the definitions of [SpecFloat] (mantissas shifted
    right with a rounding and a sticky bit), for the rounding of a positive
    value against a positive number of the format, and gives [x <= x + y],
    [x - y <= x] and [x / z <= x] on numbers. *)

Module RoundingFacts.
Import PrimFloat SpecFloat FloatOps FloatAxioms.
Import Binary64 FloatShape FloatFacts Rounding.

Local Open Scope Z_scope.

(** ** Digits *)








(** ** Shifting a mantissa to the right *)









(** ** Rounding against a number of the format *)













(** ** Rounding an integer mantissa *)




(** ** Sums, differences and quotients *)














Local Open Scope float_scope.

(** ** The same on numbers *)











End RoundingFacts.
(** * The backtester in binary64 *)

Module Binary64BacktesterFacts.
Import PrimFloat SpecFloat FloatOps FloatAxioms.
Import Binary64 Binary64.Backtester Binary64Spec FloatShape FloatFacts.
Import Binary64Examples.

Local Open Scope float_scope.

(** ** One signal *)

Lemma executeSignal_initial signal candle b :
  initialBalance (executeSignal signal candle b) = initialBalance b.
Proof.
  unfold executeSignal.
  destruct (_ && _ && _); [reflexivity|]. now destruct (_ && _).
Qed.

Lemma replay_snoc initial ledger tr :
  replay initial (ledger ++ [tr]) = replayStep (replay initial ledger) tr.
Proof. unfold replay. now rewrite fold_left_app. Qed.

Lemma positionOf_snoc ledger tr :
  positionOf (ledger ++ [tr])
  = if isBuy tr then Trade.quantity tr else 0.
Proof.
  unfold positionOf.
  assert (E : lastOf (ledger ++ [tr]) = Some tr).
  { destruct ledger as [|x ledger]; [reflexivity|].
    simpl. now rewrite last_last. }
  now rewrite E.
Qed.

Lemma reset_replays b : replayed (reset b).
Proof. split; reflexivity. Qed.

Lemma executeSignal_replays signal candle b :
  replayed b -> replayed (executeSignal signal candle b).
Proof.
  intros [Hr Hp]. unfold executeSignal.
  destruct (_ && _ && _).
  - split; cbn [currentBalance maxBalance initialBalance trades position].
    + rewrite replay_snoc, <- Hr. reflexivity.
    + now rewrite positionOf_snoc.
  - destruct (_ && _); [|now split].
    split; cbn [currentBalance maxBalance initialBalance trades position].
    + rewrite replay_snoc, <- Hr. reflexivity.
    + now rewrite positionOf_snoc.
Qed.

(** A SELL against a position that is strictly positive is accepted. *)
Lemma executeSignal_closes price timestamp confidence candle b :
  Num.gt (position b) 0 = true ->
  position (executeSignal (Signal.mk SELL price timestamp confidence)
                          candle b) = 0.
Proof.
  intros Hp. unfold executeSignal. cbn [Signal.type SignalType_eqb andb].
  now rewrite Hp.
Qed.

Lemma calculateResults_trades b :
  resultTrades (calculateResults b) = trades b.
Proof.
  unfold calculateResults.
  now destruct (countPairs _ _ 0 0).
Qed.

(** ** The loop *)

Section Generic.

Context {St : Type} `{Strategy St}.

Lemma loopBody_keeps (P : t -> Prop) candles i (st st' : St * t) :
  (forall signal candle b, P b -> P (executeSignal signal candle b)) ->
  P (snd st) -> loopBody candles i st = Some st' -> P (snd st').
Proof.
  intros Hstep Hst. unfold loopBody.
  destruct (analyze (fst st) (windowAt i candles)) as [[signal s1]|];
    [|discriminate].
  destruct (isProgressIndex i); [destruct (candleAt i candles)|];
    try discriminate;
    intros E; injection E as <-; cbn [snd];
    destruct (shouldExecute signal); auto.
Qed.

Lemma loopFrom_keeps (P : t -> Prop) :
  (forall signal candle b, P b -> P (executeSignal signal candle b)) ->
  forall fuel candles i (st st' : St * t),
    P (snd st) -> loopFrom fuel candles i st = Some st' -> P (snd st').
Proof.
  intros Hstep. induction fuel as [|fuel IH]; intros candles i st st' Hst;
    simpl; destruct (below i (length candles)).
  - discriminate.
  - now intros [= <-].
  - destruct (loopBody candles i st) as [st1|] eqn:Eb; [|discriminate].
    apply IH. exact (loopBody_keeps P candles i st st1 Hstep Hst Eb).
  - now intros [= <-].
Qed.

Lemma closeRemaining_keeps (P : t -> Prop) candles b b' :
  (forall signal candle b, P b -> P (executeSignal signal candle b)) ->
  P b -> closeRemaining candles b = Some b' -> P b'.
Proof.
  intros Hstep Hb. unfold closeRemaining.
  destruct (Num.gt (position b) 0); [|now intros [= <-]].
  destruct (lastOf candles); [|discriminate].
  intros [= <-]. now apply Hstep.
Qed.

(** What is left after the forced close: nothing, or a position that is
    not strictly positive. *)
Lemma closeRemaining_leaves candles b b' :
  closeRemaining candles b = Some b' ->
  position b' = 0 \/ (b' = b /\ Num.gt (position b) 0 = false).
Proof.
  unfold closeRemaining.
  destruct (Num.gt (position b) 0) eqn:Ep.
  - destruct (lastOf candles); [|discriminate].
    intros [= <-]. left. now apply executeSignal_closes.
  - intros [= <-]. now right.
Qed.

Lemma backtest_inverts b strategy candles result b' s' :
  backtest b strategy candles = Some (result, b', s') ->
  result = calculateResults b'
  /\ exists b1,
       loopFrom (iterations (indexOf (startIndex strategy)) (length candles))
                candles (indexOf (startIndex strategy)) (strategy, reset b)
       = Some (s', b1)
       /\ closeRemaining candles b1 = Some b'.
Proof.
  unfold backtest.
  destruct (loopFrom _ candles _ (strategy, reset b)) as [[s1 b1]|];
    [|discriminate].
  destruct (closeRemaining candles b1) as [b2|] eqn:Ec; [|discriminate].
  intros [= <- <- <-]. split; [reflexivity|]. now exists b1.
Qed.

Lemma backtest_keeps (P : t -> Prop) b strategy candles result b' s' :
  (forall signal candle b, P b -> P (executeSignal signal candle b)) ->
  P (reset b) ->
  backtest b strategy candles = Some (result, b', s') -> P b'.
Proof.
  intros Hstep Hreset Hrun.
  destruct (backtest_inverts _ _ _ _ _ _ Hrun) as [_ [b1 [Hloop Hclose]]].
  apply (closeRemaining_keeps P candles b1 b' Hstep); [|exact Hclose].
  exact (loopFrom_keeps P Hstep _ _ _ (strategy, reset b) (s', b1)
           Hreset Hloop).
Qed.

End Generic.

(** The closes -3, -4, -2 leave a short position, and on the closes
    5, 2, 3, 8, 7, 11, 14, 13 the sum of the ledger is not the balance. *)
Lemma conservation_fails_in_binary64 :
  (exists result b' s',
     backtest (create 10000) (MovingAverageCrossover.create 1 2)
              (closes [-3; -4; -2]) = Some (result, b', s')
     /\ position b' = -4750
     /\ Num.eq (position b') 0 = false)
  /\ (exists result b' s',
        backtest (create 10000) (MovingAverageCrossover.create 1 2)
                 (closes [5; 2; 3; 8; 7; 11; 14; 13])
        = Some (result, b', s')
        /\ buysOfPositiveQuantity (trades b')
        /\ currentBalance b' = 26581.818181818173
        /\ initialBalance b' + sellProceeds (trades b') - buyCosts (trades b')
           = 26581.818181818177
        /\ initialBalance b' + sellProceeds (trades b')
           - invested (initialBalance b') (trades b')
           = 26581.818181818177
        /\ Num.eq (currentBalance b')
                  (initialBalance b' + sellProceeds (trades b')
                   - buyCosts (trades b')) = false).
Proof.
  split.
  - eexists _, _, _. split; [vm_compute; reflexivity|].
    split; reflexivity.
  - eexists _, _, _. split; [vm_compute; reflexivity|].
    split; [|repeat split; reflexivity].
    cbn [trades]. repeat constructor; intros _; reflexivity.
Qed.

(** C1 (amended). After [backtest] returns, in binary64: the initial
    balance is untouched, the ledger returned is the backtester's, the final
    balance and the high-water mark are those obtained by replaying the
    ledger in order from the initial balance (a BUY leaves 5% of the
    balance, a SELL adds quantity times price), and when every recorded BUY
    bought a strictly positive quantity the position is exactly 0 after the
    forced liquidation. *)
Theorem conservation_by_replay {St : Type} `{Strategy St}
  (b : t) (strategy : St) (candles : list Candle.t)
  (result : BacktestResult) (b' : t) (s' : St) :
  backtest b strategy candles = Some (result, b', s') ->
  initialBalance b' = initialBalance b
  /\ resultTrades result = trades b'
  /\ currentBalance b' = fst (replay (initialBalance b) (trades b'))
  /\ maxBalance b' = snd (replay (initialBalance b) (trades b'))
  /\ (buysOfPositiveQuantity (trades b') -> position b' = 0).
Proof.
  intros Hrun.
  assert (Hinit : initialBalance b' = initialBalance b).
  { apply (backtest_keeps (fun x => initialBalance x = initialBalance b)
             b strategy candles result b' s'); auto.
    intros signal candle x Hx. now rewrite executeSignal_initial. }
  assert (Hrep : replayed b').
  { apply (backtest_keeps replayed b strategy candles result b' s'); auto.
    - intros signal candle x. apply executeSignal_replays.
    - apply reset_replays. }
  destruct Hrep as [Hr Hp]. rewrite Hinit in Hr.
  destruct (backtest_inverts _ _ _ _ _ _ Hrun) as [Hres [b1 [_ Hclose]]].
  split; [exact Hinit|].
  split; [rewrite Hres; apply calculateResults_trades|].
  split; [now rewrite <- Hr|]. split; [now rewrite <- Hr|].
  intros Hbuys.
  destruct (closeRemaining_leaves _ _ _ Hclose) as [H0|[-> Hflat]];
    [exact H0|].
  rewrite Hp in *. unfold positionOf in *.
  destruct (lastOf (trades b1)) as [tr|] eqn:El; [|reflexivity].
  destruct (isBuy tr) eqn:Eb; [|reflexivity].
  assert (Hin : In tr (trades b1)).
  { destruct (trades b1) as [|x l]; [discriminate|].
    injection El as <-. apply (ArrayFacts.last_In l x). }
  unfold buysOfPositiveQuantity in Hbuys. rewrite Forall_forall in Hbuys.
  rewrite (Hbuys tr Hin Eb) in Hflat. discriminate.
Qed.

Lemma conservation_by_replay_witness :
  exists result b' s',
    backtest (create 10000) (MovingAverageCrossover.create 1 2)
             (closes [5; 2; 3; 8; 7; 11; 14; 13]) = Some (result, b', s')
    /\ currentBalance b' = 26581.818181818173
    /\ currentBalance b' = fst (replay 10000 (trades b'))
    /\ position b' = 0.
Proof.
  assert (Hrun :
    exists result b' s',
      backtest (create 10000) (MovingAverageCrossover.create 1 2)
               (closes [5; 2; 3; 8; 7; 11; 14; 13]) = Some (result, b', s')
      /\ currentBalance b' = 26581.818181818173
      /\ buysOfPositiveQuantity (trades b')).
  { eexists _, _, _. split; [vm_compute; reflexivity|].
    split; [reflexivity|].
    cbn [trades]. repeat constructor; intros _; reflexivity. }
  destruct Hrun as [result [b' [s' [Hrun [Hbalance Hbuys]]]]].
  exists result, b', s'. split; [exact Hrun|]. split; [exact Hbalance|].
  destruct (conservation_by_replay _ _ _ _ _ _ Hrun)
    as [_ [_ [Hbal [_ Hpos]]]].
  split; [exact Hbal|]. now apply Hpos.
Defined.

(** ** The schedule of the loop *)

Lemma slice_prefix {A} (a : list A) i :
  (i < length a)%nat ->
  slice (Num.Finite 0) (Num.Finite (Z.of_nat i + 1)) a = firstn (i + 1) a.
Proof.
  intros Hi. unfold slice, relativeIndex.
  replace (0 <? 0)%Z with false by reflexivity.
  replace (Z.of_nat i + 1 <? 0)%Z with false
    by (symmetry; apply Z.ltb_ge; lia).
  rewrite Z.min_l by lia. rewrite Z.min_l by lia.
  cbn [Z.to_nat skipn]. rewrite Nat.sub_0_r. f_equal. lia.
Qed.

Lemma candleAt_integral {A} (a : list A) i :
  candleAt (Integral (Z.of_nat i)) a = nth_error a i.
Proof.
  unfold candleAt.
  replace (0 <=? Z.of_nat i)%Z with true by (symmetry; apply Z.leb_le; lia).
  now rewrite Nat2Z.id.
Qed.

Section Schedule.

Context {St : Type} `{Strategy St}.

Lemma shouldExecute_iff signal :
  shouldExecute signal = true
  <-> Signal.type signal <> HOLD
      /\ Num.gt (Signal.confidence signal) 0.1 = true.
Proof.
  unfold shouldExecute. rewrite andb_true_iff, negb_true_iff.
  destruct (Signal.type signal); simpl; intuition congruence.
Qed.

Lemma loopBody_at_integral candles i (st : St * t) :
  (i < length candles)%nat ->
  loopBody candles (Integral (Z.of_nat i)) st = stepAt candles (Some st) i.
Proof.
  intros Hi. unfold loopBody, stepAt. destruct st as [strategy b].
  cbn [fst snd windowAt]. rewrite slice_prefix by exact Hi.
  rewrite candleAt_integral.
  destruct (analyze strategy (firstn (i + 1) candles)) as [[signal s1]|];
    [|reflexivity].
  destruct (nth_error candles i) as [candle|] eqn:En.
  - unfold shouldExecute.
    destruct (Signal.type signal); cbn [SignalType_eqb negb andb];
      destruct (isProgressIndex _);
      try reflexivity;
      destruct (Num.gt (Signal.confidence signal) 0.1); reflexivity.
  - apply nth_error_None in En. lia.
Qed.

Lemma stepAt_thrown candles l :
  fold_left (@stepAt St _ candles) l None = None.
Proof. induction l; simpl; auto. Qed.

Lemma loopFrom_from_integral fuel candles i (st : St * t) :
  (Z.of_nat (length candles) <= maxSafeInteger)%Z ->
  (length candles - i <= fuel)%nat ->
  loopFrom fuel candles (Integral (Z.of_nat i)) st
  = stepsFrom candles i st.
Proof.
  intros Hsafe. unfold stepsFrom.
  revert i st. induction fuel as [|fuel IH]; intros i st Hfuel.
  - replace (length candles - i)%nat with 0%nat by lia.
    simpl. unfold below.
    replace (Z.of_nat i <? Z.of_nat (length candles))%Z with false
      by (symmetry; apply Z.ltb_ge; lia).
    reflexivity.
  - cbn [loopFrom]. unfold below.
    destruct (Z.of_nat i <? Z.of_nat (length candles))%Z eqn:Ei.
    + apply Z.ltb_lt in Ei.
      replace (length candles - i)%nat
        with (S (length candles - S i)) by lia.
      cbn [seq fold_left].
      rewrite loopBody_at_integral by lia.
      destruct (stepAt candles (Some st) i) as [st1|].
      * unfold next.
        replace (Z.of_nat i <? maxSafeInteger)%Z with true
          by (symmetry; apply Z.ltb_lt; lia).
        replace (Z.of_nat i + 1)%Z with (Z.of_nat (S i)) by lia.
        apply IH. lia.
      * now rewrite stepAt_thrown.
    + apply Z.ltb_ge in Ei.
      replace (length candles - i)%nat with 0%nat by lia. reflexivity.
Qed.

(** A declared period that is a positive integer is truthy. *)
Lemma integral_truthy p z :
  Num.integerOf p = Some z -> z <> 0%Z -> Num.truthy p = true.
Proof.
  unfold Num.truthy, Num.integerOf, Num.isNaN, is_nan, Num.eq.
  rewrite !eqb_spec. change (Prim2SF 0) with (S754_zero false).
  unfold SFeqb.
  destruct (Prim2SF p) as [s|s| |s m e]; try discriminate.
  - intros [= <-] Hz. contradiction.
  - intros _ _. rewrite SFcompare_refl by discriminate.
    simpl. now destruct s.
Qed.

Lemma declaredStart_index strategy n :
  declaredStart strategy = Some n ->
  indexOf (startIndex strategy) = Integral (Z.of_nat n).
Proof.
  unfold declaredStart, startIndex.
  destruct (longPeriod strategy) as [p|]; [|now intros [= <-]].
  destruct (Num.truthy p); [|now intros [= <-]].
  destruct (Num.integerOf p) as [z|] eqn:Ez; [|discriminate].
  destruct ((0 <? z)%Z && (z <=? maxSafeInteger)%Z) eqn:Eb; [|discriminate].
  intros [= <-]. apply andb_true_iff in Eb. destruct Eb as [H0 H1].
  apply Z.ltb_lt in H0. apply Z.leb_le in H1.
  unfold indexOf. rewrite Ez.
  replace (Z.abs z <=? maxSafeInteger)%Z with true
    by (symmetry; apply Z.leb_le; lia).
  f_equal. lia.
Qed.

End Schedule.

(** The start index departs from the declared long period when that is 0:
    [0 || 20] is 20.  A negative declared period is taken as it is: the
    loop starts at -2, where [candles.slice(0, i + 1)] drops the last
    candle, and ends on the empty window, on which [analyze] throws. *)
Lemma start_index_departs :
  (longPeriod (MovingAverageCrossover.create 1 0) = Some 0
   /\ startIndex (MovingAverageCrossover.create 1 0) = 20)
  /\ (startIndex (MovingAverageCrossover.create (-3) (-2)) = -2
      /\ windowAt (indexOf (-2)) (closes [5; 2; 3; 8]) = closes [5; 2; 3]
      /\ windowAt (next (indexOf (-2))) (closes [5; 2; 3; 8]) = []
      /\ backtest (create 10000) (MovingAverageCrossover.create (-3) (-2))
                  (closes [5; 2; 3; 8]) = None).
Proof. repeat split; vm_compute; reflexivity. Qed.

(** C6 (amended). For a strategy whose declared long period is absent,
    falsy (0, -0 or NaN) or a positive integer, and a series of at most
    [2^53] candles: the simulation loop of [backtest] starts at the declared
    long period when it is a positive integer and at 20 otherwise; from
    there it visits every index [i] up to the end of the series in order,
    feeds the strategy the prefix [candles[0..i]] and executes the returned
    signal if and only if its type is not HOLD and its confidence is
    strictly greater than 0.1.  ([stepsFrom] is that schedule in the
    specification's words; a call of [analyze] that throws ends both.) *)
Theorem backtest_loop_schedule {St : Type} `{Strategy St}
  (b : t) (strategy : St) (candles : list Candle.t) (start : nat) :
  declaredStart strategy = Some start ->
  (Z.of_nat (length candles) <= maxSafeInteger)%Z ->
  (forall p, longPeriod strategy = Some p -> Num.truthy p = true ->
             Num.integerOf p = Some (Z.of_nat start)
             /\ startIndex strategy = p)
  /\ (longPeriod strategy = None
      \/ (exists p, longPeriod strategy = Some p /\ Num.truthy p = false) ->
      start = 20%nat /\ startIndex strategy = 20)
  /\ (forall signal,
        shouldExecute signal = true
        <-> Signal.type signal <> HOLD
            /\ Num.gt (Signal.confidence signal) 0.1 = true)
  /\ (forall i st,
        (i < length candles)%nat ->
        loopBody candles (Integral (Z.of_nat i)) st
        = stepAt candles (Some st) i)
  /\ backtest b strategy candles
     = match stepsFrom candles start (strategy, reset b) with
       | Some (strategy', b') =>
           match closeRemaining candles b' with
           | Some b'' => Some (calculateResults b'', b'', strategy')
           | None => None
           end
       | None => None
       end.
Proof.
  intros Hstart Hsafe.
  assert (Hindex := declaredStart_index strategy start Hstart).
  split; [|split; [|split; [|split]]].
  - intros p Hp Ht. unfold declaredStart, startIndex in *.
    rewrite Hp, Ht in *. split; [|reflexivity].
    destruct (Num.integerOf p) as [z|]; [|discriminate].
    destruct ((0 <? z)%Z && (z <=? maxSafeInteger)%Z) eqn:Eb;
      [|discriminate].
    injection Hstart as <-. apply andb_true_iff in Eb.
    destruct Eb as [H0 _]. apply Z.ltb_lt in H0. f_equal. lia.
  - unfold declaredStart, startIndex in *.
    intros [Hp|[p [Hp Ht]]]; rewrite Hp in *.
    + now injection Hstart as <-.
    + rewrite Ht in *. now injection Hstart as <-.
  - exact shouldExecute_iff.
  - intros i st Hi. now apply loopBody_at_integral.
  - unfold backtest. rewrite Hindex.
    rewrite loopFrom_from_integral; [reflexivity|exact Hsafe|].
    unfold iterations. lia.
Qed.

Lemma backtest_loop_schedule_witness :
  declaredStart (MovingAverageCrossover.create 1 2) = Some 2%nat
  /\ backtest (create 10000) (MovingAverageCrossover.create 1 2)
              (closes [5; 2; 3; 8; 7])
     = match stepsFrom (closes [5; 2; 3; 8; 7]) 2
                       (MovingAverageCrossover.create 1 2,
                        reset (create 10000)) with
       | Some (strategy', b') =>
           match closeRemaining (closes [5; 2; 3; 8; 7]) b' with
           | Some b'' => Some (calculateResults b'', b'', strategy')
           | None => None
           end
       | None => None
       end.
Proof.
  assert (Hstart :
            declaredStart (MovingAverageCrossover.create 1 2) = Some 2%nat)
    by (vm_compute; reflexivity).
  split; [exact Hstart|].
  apply (backtest_loop_schedule (create 10000)
           (MovingAverageCrossover.create 1 2) (closes [5; 2; 3; 8; 7])
           2 Hstart).
  vm_compute. discriminate.
Defined.

End Binary64BacktesterFacts.
(** * Confidence and the first window, in binary64 *)

Module Binary64StrategyFacts.
Import PrimFloat SpecFloat FloatOps FloatAxioms.
Import Binary64 FloatShape FloatFacts Binary64Examples.

Local Open Scope float_scope.

Lemma nanOrUnit_zero : nanOrUnit 0.
Proof. right. split; reflexivity. Qed.

Lemma Forall_take {A} (P : A -> Prop) n (a : list A) :
  Forall P a -> Forall P (firstn n a).
Proof.
  revert n. induction a as [|x a IH]; intros [|n] Ha; simpl;
    try constructor; inversion Ha; auto.
Qed.

Lemma Forall_drop {A} (P : A -> Prop) n (a : list A) :
  Forall P a -> Forall P (skipn n a).
Proof.
  revert n. induction a as [|x a IH]; intros [|n] Ha; simpl; auto.
  inversion Ha; auto.
Qed.

(** A slice of an array holds elements of the array only. *)
Lemma slice_Forall {A} (P : A -> Prop) start finish (a : list A) :
  Forall P a -> Forall P (slice start finish a).
Proof. intros Ha. unfold slice. now apply Forall_take, Forall_drop. Qed.


Lemma positive_closes_notNegative candles :
  positiveCloses candles ->
  Forall (fun c => notNegative (Candle.close c)) candles.
Proof.
  apply Forall_impl. intros c Hc. now apply plus_notNegative, lt_plus.
Qed.

(** ** The crossover *)

Module Crossover.
Import MovingAverageCrossover.

(** [Math.max(0.5, Math.min(0.9, Math.abs(spread) * 50))] *)
Lemma crossConfidence_clamped spread :
  nanOrWithin 0.5 0.9 (crossConfidence spread).
Proof.
  unfold crossConfidence.
  apply max_floored; [reflexivity|].
  apply min_capped; [reflexivity|].
  apply plus_notNegative, plus_mul; [apply plus_abs|reflexivity].
Qed.

Lemma crossover_answer_confidence s candles signal s' :
  analyze s candles = Some (signal, s') ->
  (Signal.type signal = HOLD /\ Signal.confidence signal = 0)
  \/ (Signal.type signal <> HOLD
      /\ nanOrWithin 0.5 0.9 (Signal.confidence signal)).
Proof.
  unfold analyze.
  destruct (lastOf candles) as [current|]; [|discriminate].
  destruct (Num.lt _ (longPeriod s)).
  { intros [= <- _]. now left. }
  cbv zeta.
  destruct (_ && _ && _).
  { intros [= <- _]. right. split; [discriminate|].
    apply crossConfidence_clamped. }
  destruct (_ && _ && _).
  { intros [= <- _]. right. split; [discriminate|].
    apply crossConfidence_clamped. }
  intros [= <- _]. now left.
Qed.




End Crossover.

(** ** RSI *)

Module Rsi.
Import RSIStrategy Binary64Spec RoundingFacts.






Lemma rsi_answer_confidence s candles signal s' :
  analyze s candles = Some (signal, s') ->
  nanOrWithin 0 0.9 (Signal.confidence signal).
Proof.
  unfold analyze.
  destruct (lastOf candles) as [current|]; [|discriminate].
  destruct (Num.lt _ (period s + 1)).
  { intros [= <- _]. right. split; reflexivity. }
  cbv zeta.
  set (rsi := calculateRSI s candles).
  set (prevRSI := calculateRSI s (dropLast candles)).
  destruct (Num.le prevRSI (oversoldThreshold s)) eqn:Ebuy;
    cbn [andb].
  - destruct (Num.gt rsi (oversoldThreshold s) && differs (lastSignal s) BUY).
    + intros [= <- _]. cbn [Signal.confidence].
      apply min_capped; [reflexivity|].
      apply notNegative_div; [|reflexivity].
      apply notNegative_sub.
      destruct (le_numbers _ _ Ebuy) as [Hp _].
      destruct (min_numbers prevRSI 20 Hp eq_refl) as [_ [Hm _]].
      exact (le_trans _ _ _ Hm Ebuy).
    + destruct (Num.ge prevRSI (overboughtThreshold s)) eqn:Esell;
        cbn [andb].
      * destruct (Num.lt rsi (overboughtThreshold s)
                  && differs (lastSignal s) SELL).
        -- intros [= <- _]. cbn [Signal.confidence].
           apply min_capped; [reflexivity|].
           apply notNegative_div; [|reflexivity].
           apply notNegative_sub.
           destruct (le_numbers _ _ Esell) as [_ Hp].
           destruct (max_numbers prevRSI 80 Hp eq_refl) as [_ [Hm _]].
           exact (le_trans _ _ _ Esell Hm).
        -- intros [= <- _]. right. split; reflexivity.
      * intros [= <- _]. right. split; reflexivity.
  - destruct (Num.ge prevRSI (overboughtThreshold s)) eqn:Esell;
      cbn [andb].
    + destruct (Num.lt rsi (overboughtThreshold s)
                && differs (lastSignal s) SELL).
      * intros [= <- _]. cbn [Signal.confidence].
        apply min_capped; [reflexivity|].
        apply notNegative_div; [|reflexivity].
        apply notNegative_sub.
        destruct (le_numbers _ _ Esell) as [_ Hp].
        destruct (max_numbers prevRSI 80 Hp eq_refl) as [_ [Hm _]].
        exact (le_trans _ _ _ Esell Hm).
      * intros [= <- _]. right. split; reflexivity.
    + intros [= <- _]. right. split; reflexivity.
Qed.

End Rsi.

(** ** Bollinger bands *)

Module Bands.
Import BollingerBandsStrategy.

Section WithPow.

Variable square : float -> float.

(** [Math.pow(x, 2)] is NaN or not negative. *)
Hypothesis square_notNegative : forall x, notNegative (square x).

Lemma upperBand_plus s candles :
  Num.lt 0 (period s) = true ->
  Num.le 0 (standardDeviations s) = true ->
  positiveCloses candles ->
  plus (upperBand (calculateBollingerBands square s candles)).
Proof.
  intros Hperiod Hk Hc. unfold calculateBollingerBands.
  cbn [upperBand].
  assert (Hp : plus (period s)) by now apply lt_plus.
  apply plus_add.
  - apply plus_div; [|exact Hp].
    apply plus_sumOf, slice_Forall.
    now apply positive_closes_notNegative.
  - apply notNegative_mul; [|now apply le_notNegative].
    apply plus_notNegative, plus_sqrt, plus_div; [|exact Hp].
    apply plus_fold; [apply plus_zero|].
    apply Forall_forall. intros c _. apply square_notNegative.
Qed.

Lemma bands_answer_confidence s candles signal s' :
  Num.lt 0 (period s) = true ->
  Num.le 0 (standardDeviations s) = true ->
  positiveCloses candles ->
  analyze square s candles = Some (signal, s') ->
  nanOrWithin 0 0.9 (Signal.confidence signal).
Proof.
  intros Hperiod Hk Hc. unfold analyze.
  destruct (lastOf candles) as [current|] eqn:El; [|discriminate].
  assert (Hcur : Num.lt 0 (Candle.close current) = true).
  { unfold positiveCloses in Hc. rewrite Forall_forall in Hc. apply Hc.
    now apply ArrayFacts.lastOf_In. }
  destruct (Num.lt (Num.ofNat (length candles)) (period s)).
  { intros [= <- _]. right. split; reflexivity. }
  cbv zeta.
  assert (Hupper := upperBand_plus s candles Hperiod Hk Hc).
  set (bands := calculateBollingerBands square s candles) in *.
  destruct (Num.le (Candle.close current) (lowerBand bands)) eqn:Ebuy;
    cbn [andb].
  - destruct (differs (lastSignal s) BUY).
    + intros [= <- _]. cbn [Signal.confidence].
      apply min_capped; [reflexivity|].
      apply notNegative_mul; [|reflexivity].
      apply notNegative_div; [now apply notNegative_sub|].
      exact (lt_le_plus _ _ Hcur Ebuy).
    + destruct (Num.ge (Candle.close current) (upperBand bands)) eqn:Esell;
        cbn [andb].
      * destruct (differs (lastSignal s) SELL).
        -- intros [= <- _]. cbn [Signal.confidence].
           apply min_capped; [reflexivity|].
           apply notNegative_mul; [|reflexivity].
           apply notNegative_div; [now apply notNegative_sub|exact Hupper].
        -- intros [= <- _]. right. split; reflexivity.
      * intros [= <- _]. right. split; reflexivity.
  - destruct (Num.ge (Candle.close current) (upperBand bands)) eqn:Esell;
      cbn [andb].
    + destruct (differs (lastSignal s) SELL).
      * intros [= <- _]. cbn [Signal.confidence].
        apply min_capped; [reflexivity|].
        apply notNegative_mul; [|reflexivity].
        apply notNegative_div; [now apply notNegative_sub|exact Hupper].
      * intros [= <- _]. right. split; reflexivity.
    + intros [= <- _]. right. split; reflexivity.
Qed.

End WithPow.

Lemma square_notNegative x : notNegative (Binary64Examples.square x).
Proof.
  unfold notNegative, Binary64Examples.square. rewrite mul_spec.
  destruct (Prim2SF x) as [s|s| |s m e]; simpl; auto.
  - now destruct s.
  - destruct s; simpl; apply signed_unsigned, (round_aux_signed false).
Qed.

End Bands.

End Binary64StrategyFacts.
(** * The claims on computed numbers *)

Module NumericFacts.
Import PrimFloat SpecFloat FloatOps FloatAxioms.
Import FloatShape FloatFacts Binary64Examples.

(** ** RSI *)




(** ** Confidence *)

(** In binary64 the confidence leaves [0, 1]: Bollinger(10, 2) on nine
    closes at -10 and one at -20 buys with confidence -1.76..., a negative
    multiplier (on nine closes at 20 and one at 100) and a negative period
    (on the single close 4) sell with a negative confidence, and the
    crossover with the long period 0 on the closes -5, 10 sells with the
    confidence NaN. *)
Lemma confidence_leaves_unit_interval :
  (exists signal s',
     Binary64.BollingerBandsStrategy.analyze square
       (Binary64.BollingerBandsStrategy.create 10 2)
       (closes [-10; -10; -10; -10; -10; -10; -10; -10; -10; -20])%float
     = Some (signal, s')
     /\ Binary64.Signal.type signal = BUY
     /\ Binary64.Signal.confidence signal = (-1.7647058823529413)%float
     /\ Binary64.Num.le 0 (Binary64.Signal.confidence signal) = false)
  /\ (exists signal s',
        Binary64.BollingerBandsStrategy.analyze square
          (Binary64.BollingerBandsStrategy.create 10 (-2))
          (closes [20; 20; 20; 20; 20; 20; 20; 20; 20; 100])%float
        = Some (signal, s')
        /\ Binary64.Signal.type signal = SELL
        /\ Binary64.Num.le 0 (Binary64.Signal.confidence signal) = false)
  /\ (exists signal s',
        Binary64.BollingerBandsStrategy.analyze square
          (Binary64.BollingerBandsStrategy.create (-1) 0.5)
          (closes [4])%float
        = Some (signal, s')
        /\ Binary64.Signal.type signal = SELL
        /\ Binary64.Signal.confidence signal = neg_infinity)
  /\ (exists signal s',
        Binary64.MovingAverageCrossover.analyze
          (Binary64.MovingAverageCrossover.create 1 0)
          (closes [-5; 10])%float
        = Some (signal, s')
        /\ Binary64.Signal.type signal = SELL
        /\ Binary64.Num.isNaN (Binary64.Signal.confidence signal) = true
        /\ Binary64.Num.le 0 (Binary64.Signal.confidence signal) = false
        /\ Binary64.Num.le (Binary64.Signal.confidence signal) 1 = false).
Proof.
  repeat split;
    eexists _, _; (split; [vm_compute; reflexivity|]);
    repeat split; reflexivity.
Qed.

(** C8 (amended).  For every window accepted by one of the six strategies,
    the confidence of the signal that [analyze] returns is NaN or lies in
    the closed interval [0, 1], provided that, for the Bollinger strategy,
    the period is strictly positive, the band multiplier is not negative and
    the closes of the window are strictly positive.  For the crossover, RSI
    and Bollinger strategies, which compute their confidence, this is proved
    in binary64 and for every number given as a parameter ([square] stands
    for [Math.pow(x, 2)], of which the proof uses that it is NaN or not
    negative); the confidence of the MACD, RSI+MA combo and scalping
    strategies is one of a few constants, never NaN. *)
Theorem confidence_in_unit_interval :
  (forall s candles signal s',
      Binary64.MovingAverageCrossover.analyze s candles = Some (signal, s') ->
      nanOrUnit (Binary64.Signal.confidence signal))
  /\ (forall s candles signal s',
         Binary64.RSIStrategy.analyze s candles = Some (signal, s') ->
         nanOrUnit (Binary64.Signal.confidence signal))
  /\ (forall square s candles signal s',
         (forall x, notNegative (square x)) ->
         Binary64.Num.lt 0 (Binary64.BollingerBandsStrategy.period s) = true ->
         Binary64.Num.le
           0 (Binary64.BollingerBandsStrategy.standardDeviations s) = true ->
         positiveCloses candles ->
         Binary64.BollingerBandsStrategy.analyze square s candles
         = Some (signal, s') ->
         nanOrUnit (Binary64.Signal.confidence signal))
  /\ (forall s window signal s',
         MACDStrategy.analyze s window = Some (signal, s') ->
         0 <= Signal.confidence signal <= 1)
  /\ (forall s window signal s',
         RSI_MA_ComboStrategy.analyze s window = Some (signal, s') ->
         0 <= Signal.confidence signal <= 1)
  /\ (forall s window signal s',
         ScalpingStrategy.analyze s window = Some (signal, s') ->
         0 <= Signal.confidence signal <= 1).
Proof.
  assert (Hlow : Binary64.Num.le 0 0.5 = true) by reflexivity.
  assert (Hhigh : Binary64.Num.le 0.9 1 = true) by reflexivity.
  split; [|split; [|split; [|split; [|split]]]].
  - intros s candles signal s' Hrun.
    destruct (Binary64StrategyFacts.Crossover.crossover_answer_confidence
                s candles signal s' Hrun) as [[_ ->]|[_ Hfired]].
    + apply Binary64StrategyFacts.nanOrUnit_zero.
    + exact (nanOrWithin_weaken _ _ _ _ _ Hfired Hlow Hhigh).
  - intros s candles signal s' Hrun.
    apply (nanOrWithin_weaken 0 0.9); [|reflexivity|exact Hhigh].
    exact (Binary64StrategyFacts.Rsi.rsi_answer_confidence
             s candles signal s' Hrun).
  - intros square s candles signal s' Hsquare Hperiod Hk Hcloses Hrun.
    apply (nanOrWithin_weaken 0 0.9); [|reflexivity|exact Hhigh].
    exact (Binary64StrategyFacts.Bands.bands_answer_confidence
             square Hsquare s candles signal s' Hperiod Hk Hcloses Hrun).
  - intros s window signal s'. apply ConfidenceFacts.macd_confidence.
  - intros s window signal s'. apply ConfidenceFacts.combo_confidence.
  - intros s window signal s'. apply ConfidenceFacts.scalping_confidence.
Qed.

(** The theorem for Bollinger(10, 2) on nine closes at 20 and a last one at
    10, a BUY below the lower band 13. *)
Lemma confidence_in_unit_interval_witness :
  exists signal s',
    Binary64.BollingerBandsStrategy.analyze square
      (Binary64.BollingerBandsStrategy.create 10 2)
      (closes [20; 20; 20; 20; 20; 20; 20; 20; 20; 10])%float
    = Some (signal, s')
    /\ Binary64.Signal.type signal = BUY
    /\ Binary64.Signal.confidence signal = 0.9%float
    /\ nanOrUnit (Binary64.Signal.confidence signal).
Proof.
  eexists _, _.
  split; [vm_compute; reflexivity|].
  split; [reflexivity|]. split; [reflexivity|].
  destruct confidence_in_unit_interval as [_ [_ [Hbands _]]].
  apply (Hbands square
           (Binary64.BollingerBandsStrategy.create 10 2)
           (closes [20; 20; 20; 20; 20; 20; 20; 20; 20; 10])%float
           _ (Binary64.BollingerBandsStrategy.mk 10 2 BUY)).
  - exact Binary64StrategyFacts.Bands.square_notNegative.
  - reflexivity.
  - reflexivity.
  - repeat constructor.
  - vm_compute. reflexivity.
Defined.

(** ** The crossover on its first window past the warm-up *)





(** X3.  In binary64 and for every pair of numbers given as periods, the
    confidence of a BUY or SELL signal of [MovingAverageCrossover.analyze]
    is NaN or lies between 0.5 and 0.9. *)
Lemma crossover_fired_confidence
  (s : Binary64.MovingAverageCrossover.t)
  (candles : list Binary64.Candle.t) (signal : Binary64.Signal.t)
  (s' : Binary64.MovingAverageCrossover.t) :
  Binary64.MovingAverageCrossover.analyze s candles = Some (signal, s') ->
  Binary64.Signal.type signal <> HOLD ->
  nanOrWithin 0.5 0.9 (Binary64.Signal.confidence signal).
Proof.
  intros Hrun Hfired.
  destruct (Binary64StrategyFacts.Crossover.crossover_answer_confidence
              s candles signal s' Hrun) as [[Hhold _]|[_ Hrange]].
  - contradiction.
  - exact Hrange.
Qed.

(** The crossover with periods 1 and 3 on three falling closes sells with
    the confidence 0.9. *)
Lemma crossover_fired_confidence_witness :
  exists signal s',
    Binary64.MovingAverageCrossover.analyze
      (Binary64.MovingAverageCrossover.create 1 3) (closes [3; 2; 1])%float
    = Some (signal, s')
    /\ Binary64.Signal.type signal = SELL
    /\ Binary64.Signal.confidence signal = 0.9%float
    /\ nanOrWithin 0.5 0.9 (Binary64.Signal.confidence signal).
Proof.
  eexists _, _.
  split; [vm_compute; reflexivity|].
  split; [reflexivity|]. split; [reflexivity|].
  apply (crossover_fired_confidence
           (Binary64.MovingAverageCrossover.create 1 3)
           (closes [3; 2; 1])%float _
           (Binary64.MovingAverageCrossover.mk 1 3 SELL)).
  - vm_compute. reflexivity.
  - discriminate.
Defined.

End NumericFacts.
